(** * snapd: attribute constraints, device assertions and the REST handlers

    A shallow embedding of the parts of snapd that the specification's
    testable properties talk about:

    - [asserts]: the attribute-constraint compiler and matcher, and the
      assembly of [serial] and [serial-request] assertions;
    - [daemon]: the request handlers of the REST API ([loginUser],
      [postSnap], [snapsOp], [getSnapConf], [changeInterfaces],
      [abortChange]).

    Go values of type [interface{}] are a tagged tree ([value]); a Go
    [(T, error)] return is a [result]; a Go map that is only iterated is an
    association list whose order is the order in which [range] visits it.
    Handlers are written in a small monad that threads the state of the
    overlord and records, in program order, every call made on the state or
    on a collaborator (state lock, store, snapstate, ...); what those
    collaborators answer is supplied by a [Backend]. *)

From stdpp Require Import base strings list gmap pretty.
From Stdlib Require Import ZArith Lia Ascii String.

Set Warnings "-register-all".
Set Default Proof Using "Type".

(** A Go [(T, error)] return: the value, or the error and no value. *)
Inductive result (E A : Type) : Type :=
| OK (a : A)
| Err (e : E).
Arguments OK {E A} a.
Arguments Err {E A} e.

Definition is_OK {E A} (r : result E A) : bool :=
  match r with OK _ => true | Err _ => false end.

(** [strings.Contains]: [sub] occurs somewhere inside [s]. *)
Definition contains (s sub : string) : Prop :=
  ∃ pre post : string, s = pre +:+ sub +:+ post.

(** ** Go's [strconv] *)
Module strconv.

Definition Itoa (x : Z) : string := pretty x.

Definition FormatBool (b : bool) : string :=
  if b then "true" else "false".

End strconv.

(** ** Go's [regexp], as an interface

    The regular-expression engine is Go's library, not code of snapd: the
    development is parametric in it. *)
Module regexp.

Class Lib : Type := {
  Regexp : Type;
  Compile : string → result string Regexp;
  MatchString : Regexp → string → bool;
}.

End regexp.

(** A reference engine for a fragment of the syntax: literal bytes, [.],
    backslash-escaped punctuation, the anchors [^] and [$] and the postfix
    operators [*], [+] and [?] on a single atom.  Patterns outside the
    fragment are refused.  Matching is by derivatives. *)
Module refregexp.

Inductive re : Type :=
| Void
| Eps
| Chr (a : ascii)
| Dot
| Any
| Bol
| Eol
| Cat (r1 r2 : re)
| Alt (r1 r2 : re)
| Star (r : re).

Inductive token : Type :=
| TAtom (r : re)
| TStar
| TPlus
| TQuest
| TBad.

Definition is_meta (a : ascii) : bool :=
  bool_decide (a ∈ String.list_ascii_of_string "()[]{}|").

Definition is_word (a : ascii) : bool :=
  let n := Ascii.nat_of_ascii a in
  ((48 <=? n) && (n <=? 57)) || ((65 <=? n) && (n <=? 90))
  || ((97 <=? n) && (n <=? 122)) || (128 <=? n).

Fixpoint tokenize (s : string) : list token :=
  match s with
  | EmptyString => []
  | String "\"%char EmptyString => [TBad]
  | String "\"%char (String d s') =>
      (if is_word d then TBad else TAtom (Chr d)) :: tokenize s'
  | String "."%char s' => TAtom Dot :: tokenize s'
  | String "^"%char s' => TAtom Bol :: tokenize s'
  | String "$"%char s' => TAtom Eol :: tokenize s'
  | String "*"%char s' => TStar :: tokenize s'
  | String "+"%char s' => TPlus :: tokenize s'
  | String "?"%char s' => TQuest :: tokenize s'
  | String c s' => (if is_meta c then TBad else TAtom (Chr c)) :: tokenize s'
  end.

Fixpoint parse (ts : list token) : result string re :=
  match ts with
  | [] => OK Eps
  | TAtom r :: ts' =>
      let post (r' : re) (rest : list token) :=
        match parse rest with
        | OK k => OK (Cat r' k)
        | Err e => Err e
        end in
      match ts' with
      | TStar :: ts'' => post (Star r) ts''
      | TPlus :: ts'' => post (Cat r (Star r)) ts''
      | TQuest :: ts'' => post (Alt r Eps) ts''
      | _ => post r ts'
      end
  | TBad :: _ => Err "unsupported syntax"
  | _ :: _ => Err "missing argument to repetition operator"
  end.

Fixpoint nullable (bol eol : bool) (r : re) : bool :=
  match r with
  | Void | Chr _ | Dot | Any => false
  | Eps | Star _ => true
  | Bol => bol
  | Eol => eol
  | Cat r1 r2 => nullable bol eol r1 && nullable bol eol r2
  | Alt r1 r2 => nullable bol eol r1 || nullable bol eol r2
  end.

Definition cat (r1 r2 : re) : re :=
  match r1, r2 with
  | Void, _ | _, Void => Void
  | Eps, r | r, Eps => r
  | _, _ => Cat r1 r2
  end.

Definition alt (r1 r2 : re) : re :=
  match r1, r2 with
  | Void, r | r, Void => r
  | _, _ => Alt r1 r2
  end.

(** The derivative by the byte [c] read at a position that is the
    beginning of the text iff [bol]; a position with a byte to read is
    not the end of the text. *)
Fixpoint deriv (bol : bool) (c : ascii) (r : re) : re :=
  match r with
  | Void | Eps | Bol | Eol => Void
  | Chr a => if bool_decide (a = c) then Eps else Void
  | Dot => if bool_decide (c = "010"%char) then Void else Eps
  | Any => Eps
  | Cat r1 r2 =>
      alt (cat (deriv bol c r1) r2)
          (if nullable bol false r1 then deriv bol c r2 else Void)
  | Alt r1 r2 => alt (deriv bol c r1) (deriv bol c r2)
  | Star r1 => cat (deriv bol c r1) (Star r1)
  end.

Fixpoint matches (bol : bool) (r : re) (s : string) : bool :=
  match s with
  | EmptyString => nullable bol true r
  | String c s' => matches false (deriv bol c r) s'
  end.

(** [MatchString] reports a match anywhere in the text. *)
Definition search (r : re) (s : string) : bool :=
  matches true (Cat (Star Any) (Cat r (Star Any))) s.

Definition lib : regexp.Lib := {|
  regexp.Regexp := re;
  regexp.Compile := λ p, parse (tokenize p);
  regexp.MatchString := search;
|}.

End refregexp.

(** ** Go's dynamically typed values

    What a decoded YAML or JSON document holds behind [interface{}]: the
    attributes of a plug or slot and the constraint trees of an assertion
    header are both of this shape.  [VOther] stands for every dynamic type
    the matcher's type switches do not name (floats, other integer widths,
    ...). *)
Inductive value : Type :=
| VNil
| VString (s : string)
| VBool (b : bool)
| VInt (n : Z)
| VList (l : list value)
| VMapS (m : list (string * value))
| VMapI (m : list (value * value))
| VOther (descr : string).

(** [x[k]] on a [map[string]interface{}]: the zero value [nil] when the key
    is absent. *)
Fixpoint index_string_map (x : list (string * value)) (k : string) : value :=
  match x with
  | [] => VNil
  | (k', v) :: x' => if bool_decide (k' = k) then v else index_string_map x' k
  end.

(** [x[k]] with a string [k] on a [map[interface{}]interface{}]: only a key
    that is itself the string [k] is equal to it. *)
Fixpoint index_iface_map (x : list (value * value)) (k : string) : value :=
  match x with
  | [] => VNil
  | (VString k', v) :: x' =>
      if bool_decide (k' = k) then v else index_iface_map x' k
  | _ :: x' => index_iface_map x' k
  end.

(** A list of alternatives appears directly inside another list of
    alternatives, somewhere in the constraint tree. *)
Inductive nested_alternatives : value → Prop :=
| nested_here l l' :
    VList l' ∈ l → nested_alternatives (VList l)
| nested_in_alternative l v :
    v ∈ l → nested_alternatives v → nested_alternatives (VList l)
| nested_in_entry m k v :
    (k, v) ∈ m → nested_alternatives v → nested_alternatives (VMapS m)
| nested_in_iface_entry m k v :
    (k, v) ∈ m → nested_alternatives k ∨ nested_alternatives v →
    nested_alternatives (VMapI m).

(** The first level of the tree that is not a list of alternatives is a
    bare regexp string: the tree is a string, or a list of alternatives one
    of which is such a tree. *)
Inductive first_level_regexp : value → Prop :=
| first_level_string s :
    first_level_regexp (VString s)
| first_level_alternative l v :
    v ∈ l → first_level_regexp v → first_level_regexp (VList l).

(** The kinds of value a regexp leaf takes: strings, booleans, integers
    and lists. *)
Definition scalar_or_list (v : value) : bool :=
  match v with
  | VString _ | VBool _ | VInt _ | VList _ => true
  | _ => false
  end.

(** [m[k] = a] on a map that is being built. *)
Fixpoint map_assign {A} (matcher : list (string * A)) (k : string) (a : A)
  : list (string * A) :=
  match matcher with
  | [] => [(k, a)]
  | (k', a') :: matcher' =>
      if bool_decide (k' = k) then (k, a) :: matcher'
      else (k', a') :: map_assign matcher' k a
  end.

(** ** Go's [strings] *)
Module gostrings.

(** [strings.Split(s, sep)] for a separator that is not empty (the handlers
    split on a comma only): [skip] counts the bytes of a separator that are
    still to be passed over, [cur] is the piece being read. *)
Fixpoint Split_from (sep : string) (skip : nat) (cur : string) (s : string)
  : list string :=
  match s with
  | EmptyString => [cur]
  | String a s' =>
      match skip with
      | S skip' => Split_from sep skip' cur s'
      | O =>
          if String.prefix sep s
          then cur :: Split_from sep (String.length sep - 1) "" s'
          else Split_from sep 0 (cur +:+ String a "") s'
      end
  end.

Definition Split (s sep : string) : list string := Split_from sep 0 "" s.

Fixpoint Join (a : list string) (sep : string) : string :=
  match a with
  | [] => ""
  | [x] => x
  | x :: a' => x +:+ sep +:+ Join a' sep
  end.

End gostrings.

(** ** Package [asserts]: attribute constraints *)
Module asserts.
Section attr_matcher.
Context {L : regexp.Lib}.
Import regexp.

Definition chain (context k : string) : string :=
  if bool_decide (context = "") then k else context +:+ "." +:+ k.

Record compileContext : Type := {
  dotted : string;
  hadMap : bool;
  wasAlt : bool;
}.

(** The zero value [compileContext{}]. *)
Definition compileContext_zero : compileContext :=
  {| dotted := ""; hadMap := false; wasAlt := false |}.

Definition keyEntry (cc : compileContext) (k : string) : compileContext :=
  {| dotted := chain (dotted cc) k; hadMap := true; wasAlt := false |}.

Definition alt (cc : compileContext) (alt : nat) : compileContext :=
  {| dotted := dotted cc +:+ "/alt#" +:+ strconv.Itoa (Z.of_nat alt + 1) +:+ "/";
     hadMap := hadMap cc;
     wasAlt := true |}.

(** The three matcher types behind the [attrMatcher] interface. *)
Inductive attrMatcher : Type :=
| mapAttrMatcher (m : list (string * attrMatcher))
| regexpAttrMatcher (rx : Regexp)
| altAttrMatcher (alts : list attrMatcher).

(** The errors of compilation, one constructor per [fmt.Errorf] of the
    compiler, holding the arguments of its format. *)
Inductive compileError : Type :=
| ErrNestedAlt (cc : string)
    (* cannot nest alternative constraints directly at %q *)
| ErrFirstLevel
    (* first level of non alternative constraints must be a set of
       key-value contraints *)
| ErrConstraintKind (cc : string) (x : value)
    (* constraint %q must be a key-value map, regexp or a list of
       alternative constraints: %v *)
| ErrRegexp (cc s err : string).
    (* cannot compile %q constraint %q: %v *)

(** The errors of matching, likewise. *)
Inductive matchError : Type :=
| ErrUnset (context : string)
    (* attribute %q has constraints but is unset *)
| ErrNotMap (context : string)
    (* attribute %q must be a map *)
| ErrNotScalar (context : string)
    (* attribute %q must be a scalar or list *)
| ErrNoMatch (context s : string) (rx : Regexp)
    (* attribute %q value %q does not match %v *)
| ErrNoAlternative (context : string) (firstErr : option matchError).
    (* no alternative%s matches: %v, the context named when not empty *)

(** The attribute a diagnostic names. *)
Definition matchError_context (e : matchError) : string :=
  match e with
  | ErrUnset c | ErrNotMap c | ErrNotScalar c | ErrNoMatch c _ _
  | ErrNoAlternative c _ => c
  end.

(** *** Compilation *)

Definition compileRegexpAttrMatcher (cc : compileContext) (s : string)
  : result compileError attrMatcher :=
  match Compile ("^" +:+ s +:+ "$") with
  | Err err => Err (ErrRegexp (dotted cc) s err)
  | OK rx => OK (regexpAttrMatcher rx)
  end.

(** The loop of [compileMapAttrMatcher], over the entries in the order
    [range] yields them; [compile] is [compileAttrMatcher]. *)
Definition compileMapAttrMatcher_loop
    (compile : compileContext → value → result compileError attrMatcher)
    (cc : compileContext)
  : list (string * value) → list (string * attrMatcher) →
    result compileError attrMatcher :=
  fix loop m matcher :=
    match m with
    | [] => OK (mapAttrMatcher matcher)
    | (k, constraint) :: m' =>
        match compile (keyEntry cc k) constraint with
        | Err err => Err err
        | OK matcher1 => loop m' (map_assign matcher k matcher1)
        end
    end.

(** The loop of [compileAltAttrMatcher]; [i] is the index of the head of
    the remaining list and [alts] the matchers of the elements before. *)
Definition compileAltAttrMatcher_loop
    (compile : compileContext → value → result compileError attrMatcher)
    (cc : compileContext)
  : nat → list value → list attrMatcher → result compileError attrMatcher :=
  fix loop i l alts :=
    match l with
    | [] => OK (altAttrMatcher alts)
    | constraint :: l' =>
        match compile (alt cc i) constraint with
        | Err err => Err err
        | OK matcher1 => loop (S i) l' (alts ++ [matcher1])
        end
    end.

Fixpoint compileAttrMatcher (cc : compileContext) (constraints : value)
  {struct constraints} : result compileError attrMatcher :=
  match constraints with
  | VMapS x => compileMapAttrMatcher_loop compileAttrMatcher cc x []
  | VList x =>
      if wasAlt cc then Err (ErrNestedAlt (dotted cc))
      else compileAltAttrMatcher_loop compileAttrMatcher cc 0 x []
  | VString x =>
      if negb (hadMap cc) then Err ErrFirstLevel
      else compileRegexpAttrMatcher cc x
  | x => Err (ErrConstraintKind (dotted cc) x)
  end.

Definition compileMapAttrMatcher (cc : compileContext)
    (m : list (string * value)) : result compileError attrMatcher :=
  compileMapAttrMatcher_loop compileAttrMatcher cc m [].

Definition compileAltAttrMatcher (cc : compileContext) (l : list value)
  : result compileError attrMatcher :=
  compileAltAttrMatcher_loop compileAttrMatcher cc 0 l [].

(** *** Matching *)

(** [matchEntry], given the [match] method of [matcher1]. *)
Definition matchEntry (context k : string)
    (matcher1_match : string → value → option matchError) (v : value)
  : option matchError :=
  let context := chain context k in
  match v with
  | VNil => Some (ErrUnset context)
  | _ => matcher1_match context v
  end.

(** [matchList], given the [match] method of [matcher]; the loop is
    started at index [i]. *)
Definition matchList_from (context : string)
    (matcher_match : string → value → option matchError)
  : nat → list value → option matchError :=
  fix loop i l :=
    match l with
    | [] => None
    | elem :: l' =>
        match matcher_match (chain context (strconv.Itoa (Z.of_nat i))) elem with
        | Some err => Some err
        | None => loop (S i) l'
        end
    end.

Definition matchList (context : string)
    (matcher_match : string → value → option matchError) (l : list value)
  : option matchError :=
  matchList_from context matcher_match 0 l.

Fixpoint regexpAttrMatcher_match (rx : Regexp) (context : string)
    (v : value) {struct v} : option matchError :=
  let matches (s : string) :=
    if negb (MatchString rx s) then Some (ErrNoMatch context s rx)
    else None in
  match v with
  | VString x => matches x
  | VBool x => matches (strconv.FormatBool x)
  | VInt x => matches (strconv.Itoa x)
  | VList x => matchList context (regexpAttrMatcher_match rx) x
  | _ => Some (ErrNotScalar context)
  end.

(** The loop over the entries of a [mapAttrMatcher], in the order [range]
    yields them; [index] is [x[k]] on the attribute map. *)
Definition mapAttrMatcher_loop
    (match_ : attrMatcher → string → value → option matchError)
    (context : string) (index : string → value)
  : list (string * attrMatcher) → option matchError :=
  fix loop matcher :=
    match matcher with
    | [] => None
    | (k, matcher1) :: matcher' =>
        match matchEntry context k (match_ matcher1) (index k) with
        | Some err => Some err
        | None => loop matcher'
        end
    end.

(** The loop of [altAttrMatcher.match]. *)
Definition altAttrMatcher_loop
    (match_ : attrMatcher → string → value → option matchError)
    (context : string) (v : value)
  : list attrMatcher → option matchError → option matchError :=
  fix loop alts firstErr :=
    match alts with
    | [] => Some (ErrNoAlternative context firstErr)
    | alt :: alts' =>
        match match_ alt context v with
        | None => None
        | Some err =>
            loop alts' (match firstErr with None => Some err | Some _ => firstErr end)
        end
    end.

(** The [match] method, dispatched on the dynamic type of the matcher. *)
Fixpoint attrMatcher_match (matcher : attrMatcher)
  : string → value → option matchError :=
  match matcher with
  | mapAttrMatcher m =>
      fix self (context : string) (v : value) {struct v} :=
        match v with
        | VMapS x =>
            mapAttrMatcher_loop attrMatcher_match context (index_string_map x) m
        | VMapI x =>
            mapAttrMatcher_loop attrMatcher_match context (index_iface_map x) m
        | VList x => matchList context self x
        | _ => Some (ErrNotMap context)
        end
  | regexpAttrMatcher rx => regexpAttrMatcher_match rx
  | altAttrMatcher alts =>
      λ context v, altAttrMatcher_loop attrMatcher_match context v alts None
  end.

(** [AttributeConstraints], the compiled constraints of a plug or slot. *)
Record AttributeConstraints : Type := { matcher : attrMatcher }.

Definition compileAttributeConstraints (constraints : value)
  : result compileError AttributeConstraints :=
  match compileAttrMatcher compileContext_zero constraints with
  | Err err => Err err
  | OK matcher => OK {| matcher := matcher |}
  end.

Definition Check (c : AttributeConstraints) (attrs : list (string * value))
  : option matchError :=
  attrMatcher_match (matcher c) "" (VMapS attrs).

End attr_matcher.
(** *** Device assertions ([device_asserts.go])

    The assertion base type, the header checks, the decoding of public keys
    and the parsing of dates live in other files of the package, which are
    not part of this development: they are the operations of [Base]. *)
Class Base : Type := {
  assertionBase : Type;
  PublicKey : Type;
  time_Time : Type;
  headers : assertionBase → gmap string value;
  TypeName : assertionBase → string;         (* a.Type().Name *)
  AuthorityID : assertionBase → string;
  SignKeyID : assertionBase → string;
  HeaderString : assertionBase → string → string;
  checkNotEmptyString : gmap string value → string → result string string;
  checkOptionalString : gmap string value → string → result string string;
  checkRFC3339Date : gmap string value → string → result string time_Time;
  DecodePublicKey : string → result string PublicKey;
  PublicKey_ID : PublicKey → string;         (* pubKey.ID() *)
}.

Section device_asserts.
Context {B : Base}.

(** The errors of assembly: those the helpers return, passed on as they
    are, and the three raised here. *)
Inductive assembleError : Type :=
| ErrHeader (err : string)
| ErrAuthorityBrand (typeName authorityID brand : string)
    (* authority-id and brand-id must match, %s assertions are expected
       to be signed by the brand: %q != %q *)
| ErrDeviceKeyID
    (* device key does not match provided key id *)
| ErrDeviceKeySignKey.
    (* device key does not match included signing key id *)

Definition checkAuthorityMatchesBrand (a : assertionBase)
  : option assembleError :=
  let typeName := TypeName a in
  let authorityID := AuthorityID a in
  let brand := HeaderString a "brand-id" in
  if bool_decide (brand ≠ authorityID)
  then Some (ErrAuthorityBrand typeName authorityID brand)
  else None.

Record Serial : Type := {
  Serial_assertionBase : assertionBase;
  Serial_timestamp : time_Time;
  Serial_pubKey : PublicKey;
}.

Record SerialRequest : Type := {
  SerialRequest_assertionBase : assertionBase;
  SerialRequest_pubKey : PublicKey;
}.

(** The [Assertion] values the two assemblers below return. *)
Inductive Assertion : Type :=
| ASerial (ser : Serial)
| ASerialRequest (sreq : SerialRequest).

(** [x, err := f(); if err != nil { return nil, err }]. *)
Definition try {A} (r : result string A)
    (k : A → result assembleError Assertion)
  : result assembleError Assertion :=
  match r with
  | Err err => Err (ErrHeader err)
  | OK a => k a
  end.

Definition assembleSerial (assert : assertionBase)
  : result assembleError Assertion :=
  match checkAuthorityMatchesBrand assert with
  | Some err => Err err
  | None =>
      try (checkNotEmptyString (headers assert) "device-key") (λ encodedKey,
      try (DecodePublicKey encodedKey) (λ pubKey,
      try (checkNotEmptyString (headers assert) "device-key-sha3-384") (λ keyID,
      if bool_decide (keyID ≠ PublicKey_ID pubKey) then Err ErrDeviceKeyID
      else
      try (checkRFC3339Date (headers assert) "timestamp") (λ timestamp,
      OK (ASerial {| Serial_assertionBase := assert;
                     Serial_timestamp := timestamp;
                     Serial_pubKey := pubKey |})))))
  end.

Definition assembleSerialRequest (assert : assertionBase)
  : result assembleError Assertion :=
  try (checkNotEmptyString (headers assert) "brand-id") (λ _,
  try (checkNotEmptyString (headers assert) "model") (λ _,
  try (checkNotEmptyString (headers assert) "request-id") (λ _,
  try (checkOptionalString (headers assert) "serial") (λ _,
  try (checkNotEmptyString (headers assert) "device-key") (λ encodedKey,
  try (DecodePublicKey encodedKey) (λ pubKey,
  if bool_decide (PublicKey_ID pubKey ≠ SignKeyID assert)
  then Err ErrDeviceKeySignKey
  else
  OK (ASerialRequest {| SerialRequest_assertionBase := assert;
                        SerialRequest_pubKey := pubKey |}))))))).

End device_asserts.
End asserts.

(** A small instance of [Base] to run the assemblers on: an assertion is
    its header map, a public key is its encoding and the id of a key is the
    encoding behind ["id:"]; a mandatory header must be there, be a string
    and not be empty. *)
Module refasserts.

Definition HeaderString (a : gmap string value) (name : string) : string :=
  match a !! name with
  | Some (VString s) => s
  | _ => ""
  end.

Definition checkNotEmptyString (h : gmap string value) (name : string)
  : result string string :=
  match h !! name with
  | None => Err (name +:+ " header is mandatory")
  | Some (VString s) =>
      if bool_decide (s = "") then Err (name +:+ " header should not be empty")
      else OK s
  | Some _ => Err (name +:+ " header must be a string")
  end.

Definition checkOptionalString (h : gmap string value) (name : string)
  : result string string :=
  match h !! name with
  | None => OK ""
  | Some (VString s) => OK s
  | Some _ => Err (name +:+ " header must be a string")
  end.

Definition base : asserts.Base := {|
  asserts.assertionBase := gmap string value;
  asserts.PublicKey := string;
  asserts.time_Time := string;
  asserts.headers := λ a, a;
  asserts.TypeName := λ a, HeaderString a "type";
  asserts.AuthorityID := λ a, HeaderString a "authority-id";
  asserts.SignKeyID := λ a, HeaderString a "sign-key-sha3-384";
  asserts.HeaderString := HeaderString;
  asserts.checkNotEmptyString := checkNotEmptyString;
  asserts.checkOptionalString := checkOptionalString;
  asserts.checkRFC3339Date := checkNotEmptyString;
  asserts.DecodePublicKey := λ encoded, OK encoded;
  asserts.PublicKey_ID := λ key, "id:" +:+ key;
|}.

(** A serial and a serial-request whose key ids do not agree with the
    device key. *)
Definition serial_wrong_key_id : gmap string value :=
  list_to_map
    [ ("type", VString "serial"); ("authority-id", VString "canonical");
      ("brand-id", VString "canonical"); ("model", VString "pc");
      ("serial", VString "1"); ("device-key", VString "KEY");
      ("device-key-sha3-384", VString "id:OTHER");
      ("timestamp", VString "2016-08-24T21:55:00Z") ].

Definition serial_request_wrong_sign_key : gmap string value :=
  list_to_map
    [ ("type", VString "serial-request"); ("brand-id", VString "canonical");
      ("model", VString "pc"); ("request-id", VString "REQ");
      ("device-key", VString "KEY");
      ("sign-key-sha3-384", VString "id:OTHER") ].

(** The constraints and the two attribute maps of scenario S6. *)
Definition usb_constraints : list (string * value) :=
  [("bus", VString "usb"); ("speed", VList [VString "high"; VString "full"])].
Definition usb_full : list (string * value) :=
  [("bus", VString "usb"); ("speed", VString "full")].
Definition pci_full : list (string * value) :=
  [("bus", VString "pci"); ("speed", VString "full")].

End refasserts.

(** ** Package [overlord/state] and the user records of [overlord/auth] *)
Module state.

(** Modelled from the spec: package overlord/state is not among the
    sources.  Section 3 gives the task statuses, section 4.2 the terminal
    ones (Done, Undone, Error, Hold). *)
Inductive Status : Type :=
| DoStatus
| DoingStatus
| DoneStatus
| ErrorStatus
| HoldStatus
| AbortStatus
| UndoStatus
| UndoingStatus
| UndoneStatus.

(** Modelled from the spec: [Status.Ready()] of overlord/state, which is not
    among the sources; the terminal statuses are Done, Undone, Error and Hold
    (section 4.2). *)
Definition Status_Ready (s : Status) : bool :=
  match s with
  | DoneStatus | UndoneStatus | ErrorStatus | HoldStatus => true
  | _ => false
  end.

(** Modelled from the spec: a task of overlord/state, with its id, kind,
    status and the tasks it waits for (section 3). *)
Record Task : Type := {
  Task_ID : string;
  Task_Kind : string;
  Task_Status : Status;
  Task_WaitTasks : list string;
}.

(** Modelled from the spec: a task-set groups tasks being added together;
    [WaitAll(other)] adds dependencies from every task in the set to every
    task in [other] (section 3). *)
Definition TaskSet : Type := list Task.

(** Modelled from the spec: [ts.WaitAll(anotherTs)] of overlord/state
    (section 3). *)
Definition TaskSet_WaitAll (ts anotherTs : TaskSet) : TaskSet :=
  (λ t, {| Task_ID := Task_ID t; Task_Kind := Task_Kind t;
           Task_Status := Task_Status t;
           Task_WaitTasks := Task_WaitTasks t ++ (Task_ID <$> anotherTs) |})
    <$> ts.

(** Modelled from the spec: a change of overlord/state, with its id, kind,
    summary, tasks and data (section 3). *)
Record Change : Type := {
  Change_ID : string;
  Change_Kind : string;
  Change_Summary : string;
  Change_status : Status;   (* what [SetStatus] sets on a change of no task *)
  Change_Tasks : list Task;
  Change_Data : list (string * value);
}.

(** Modelled from the spec: [chg.Status().Ready()]; a change is Ready iff
    every task is in a terminal status (section 4.2). *)
Definition Change_Ready (chg : Change) : bool :=
  forallb (λ t, Status_Ready (Task_Status t)) (Change_Tasks chg).

(** Modelled from the spec: [Change.Abort()] marks every non-terminal task
    Abort (section 4.2, Cancellation). *)
Definition Change_Abort (chg : Change) : Change :=
  {| Change_ID := Change_ID chg; Change_Kind := Change_Kind chg;
     Change_Summary := Change_Summary chg; Change_status := Change_status chg;
     Change_Tasks :=
       (λ t, if Status_Ready (Task_Status t) then t
             else {| Task_ID := Task_ID t; Task_Kind := Task_Kind t;
                     Task_Status := AbortStatus;
                     Task_WaitTasks := Task_WaitTasks t |})
         <$> Change_Tasks chg;
     Change_Data := Change_Data chg |}.

(** Modelled from the spec: [chg.AddAll(ts)] of overlord/state; task-sets
    are attached to the change (section 3). *)
Definition Change_AddAll (chg : Change) (ts : TaskSet) : Change :=
  {| Change_ID := Change_ID chg; Change_Kind := Change_Kind chg;
     Change_Summary := Change_Summary chg; Change_status := Change_status chg;
     Change_Tasks := Change_Tasks chg ++ ts;
     Change_Data := Change_Data chg |}.

(** Modelled from the spec: [chg.Set(key, v)] of overlord/state, on the
    opaque data of the change (section 3). *)
Definition Change_Set (chg : Change) (key : string) (v : value) : Change :=
  {| Change_ID := Change_ID chg; Change_Kind := Change_Kind chg;
     Change_Summary := Change_Summary chg; Change_status := Change_status chg;
     Change_Tasks := Change_Tasks chg;
     Change_Data := (key, v) :: filter (λ kv, kv.1 ≠ key) (Change_Data chg) |}.

(** Modelled from the spec: [chg.SetStatus(s)] of overlord/state. *)
Definition Change_SetStatus (chg : Change) (s : Status) : Change :=
  {| Change_ID := Change_ID chg; Change_Kind := Change_Kind chg;
     Change_Summary := Change_Summary chg; Change_status := s;
     Change_Tasks := Change_Tasks chg;
     Change_Data := Change_Data chg |}.

(** Modelled from the spec: a user record holds id, username, a macaroon
    and a set of discharges (section 3, Identity). *)
Record UserState : Type := {
  ID : Z;
  Username : string;
  Macaroon : string;
  Discharges : list string;
}.

(** Modelled from the spec: the state holds the changes by id, the last id
    handed out (ids are monotonic) and the user records (sections 3, 4.1). *)
Record State : Type := {
  State_changes : gmap string Change;
  State_lastID : Z;
  State_users : list UserState;
}.

(** Modelled from the spec: [st.Change(id)] of overlord/state, [nil] when
    there is none (section 4.1). *)
Definition State_Change (st : State) (id : string) : option Change :=
  State_changes st !! id.

(** Modelled from the spec: [st.NewChange(kind, summary)] of overlord/state,
    the new change and the state holding it; ids are monotonic (sections 3
    and 4.1). *)
Definition State_NewChange (st : State) (kind summary : string)
  : Change * State :=
  let id := strconv.Itoa (State_lastID st + 1) in
  let chg := {| Change_ID := id; Change_Kind := kind;
                Change_Summary := summary; Change_status := DoStatus;
                Change_Tasks := []; Change_Data := [] |} in
  (chg, {| State_changes := <[id := chg]> (State_changes st);
           State_lastID := State_lastID st + 1;
           State_users := State_users st |}).

(** Modelled from the spec: [auth.NewUser(st, username, macaroon,
    discharges)] of overlord/auth when it succeeds; a user is created on
    login and kept in the state (section 3, Identity). *)
Definition State_NewUser (st : State) (username macaroon : string)
    (discharges : list string) : UserState * State :=
  let user := {| ID := Z.of_nat (List.length (State_users st)) + 1;
                 Username := username; Macaroon := macaroon;
                 Discharges := discharges |} in
  (user, {| State_changes := State_changes st;
            State_lastID := State_lastID st;
            State_users := State_users st ++ [user] |}).

End state.

(** ** Package [daemon] *)
Module daemon.
Import state.

(** *** Responses ([response.go]) *)

Inductive ResponseType : Type :=
| ResponseTypeSync
| ResponseTypeAsync
| ResponseTypeError.

(** The status codes of [net/http] that the handlers use. *)
Definition StatusOK : Z := 200.
Definition StatusAccepted : Z := 202.
Definition StatusBadRequest : Z := 400.
Definition StatusUnauthorized : Z := 401.
Definition StatusNotFound : Z := 404.
Definition StatusInternalServerError : Z := 500.
Definition StatusNotImplemented : Z := 501.

(** Modelled from the spec: the error kinds are constants of the response
    code that is not among the sources; section 4.5 lists them. *)
Definition errorKind : Type := string.
Definition errorKindNone : errorKind := "".
Definition errorKindLoginRequired : errorKind := "login-required".
Definition errorKindInvalidAuthData : errorKind := "invalid-auth-data".
Definition errorKindTwoFactorRequired : errorKind := "two-factor-required".
Definition errorKindTwoFactorFailed : errorKind := "two-factor-failed".

Record errorResult : Type := {
  Message : string;
  Kind : errorKind;
  Value : option (list (string * list string));
}.

Record loginResponseData : Type := {
  loginResponseData_Macaroon : string;
  loginResponseData_Discharges : list string;
}.

Record taskInfo : Type := {
  taskInfo_ID : string;
  taskInfo_Kind : string;
  taskInfo_Status : Status;
}.

(** The fields of [changeInfo] that are read off the change itself; the
    rendered status, the error text, the times and the api-data are not
    modelled. *)
Record changeInfo : Type := {
  changeInfo_ID : string;
  changeInfo_Kind : string;
  changeInfo_Summary : string;
  changeInfo_Tasks : list taskInfo;
  changeInfo_Ready : bool;
}.

(** What a handler puts in the [result] field of the envelope. *)
Inductive payload : Type :=
| RNil
| RError (e : errorResult)
| RLogin (d : loginResponseData)
| RConf (currentConfValues : list (string * value))
| RChangeInfo (c : changeInfo).

Record Meta : Type := { Meta_Change : string }.

Record resp : Type := {
  Type_ : ResponseType;
  Status_ : Z;
  Result : payload;
  Meta_ : option Meta;
}.

(** Every response of the handlers below is a [*resp]. *)
Definition Response : Type := resp.

(** The dynamic type of the first argument of [SyncResponse]. *)
Inductive syncResult : Type :=
| SyncOfError (err : string)
| SyncOfResponse (rsp : Response)
| SyncOfPayload (p : payload).

(** Modelled from the spec: the response constructors that the handlers
    call ([SyncResponse] of two arguments, [AsyncResponse], [BadRequest],
    ...) are not among the sources: [response.go] there is of an earlier
    revision, whose [SyncResponse] takes one argument and whose [resp] has
    no [Result], and only its response types are used here.  Section 4.5:
    a sync response carries its payload in [result]; an async response
    carries status code 202 and the change id; an error response carries a
    message and a kind, under the HTTP status its constructor is named
    after.  A result that is already a response is the response (scenario
    S2: the login handler's 400 error envelope is what the client
    receives). *)
Definition makeErrorResponder (status : Z) (message : string) : Response :=
  {| Type_ := ResponseTypeError;
     Status_ := status;
     Result := RError {| Message := message;
                         Kind := if bool_decide (status = StatusUnauthorized)
                                 then errorKindLoginRequired else errorKindNone;
                         Value := None |};
     Meta_ := None |}.

(** Modelled from the spec: the error responders, one per HTTP status
    (section 7). *)
Definition BadRequest : string → Response := makeErrorResponder StatusBadRequest.
Definition Unauthorized : string → Response := makeErrorResponder StatusUnauthorized.
Definition NotFound : string → Response := makeErrorResponder StatusNotFound.
Definition InternalError : string → Response :=
  makeErrorResponder StatusInternalServerError.
Definition NotImplemented : string → Response :=
  makeErrorResponder StatusNotImplemented.

(** Modelled from the spec: [SyncResponse(result, meta)]; a sync response
    carries its payload in [result], and a result that is itself a response
    is that response (section 4.5, scenario S2). *)
Definition SyncResponse (result : syncResult) (meta : option Meta) : Response :=
  match result with
  | SyncOfError err => InternalError ("internal error: " +:+ err)
  | SyncOfResponse rsp => rsp
  | SyncOfPayload p =>
      {| Type_ := ResponseTypeSync; Status_ := StatusOK; Result := p;
         Meta_ := meta |}
  end.

(** Modelled from the spec: [AsyncResponse(result, meta)]; status code 202
    and the id of the change (section 4.5). *)
Definition AsyncResponse (result : payload) (meta : option Meta) : Response :=
  {| Type_ := ResponseTypeAsync; Status_ := StatusAccepted; Result := result;
     Meta_ := meta |}.

(** *** Request bodies and query values *)

(** [url.Values.Get]: the first value of the key, or the empty string. *)
Fixpoint Values_Get (q : list (string * list string)) (key : string) : string :=
  match q with
  | [] => ""
  | (k, vs) :: q' =>
      if bool_decide (k = key) then match vs with [] => "" | v :: _ => v end
      else Values_Get q' key
  end.

(** [vars[name]] on the map of route variables. *)
Fixpoint Vars_at (vars : list (string * string)) (name : string) : string :=
  match vars with
  | [] => ""
  | (k, v) :: vars' => if bool_decide (k = name) then v else Vars_at vars' name
  end.

Record loginData : Type := {
  loginData_Username : string;
  loginData_Password : string;
  loginData_Otp : string;
}.

Record plugJSON : Type := {
  plugJSON_Snap : string;
  plugJSON_Name : string;
  plugJSON_Interface : string;
  plugJSON_Attrs : list (string * value);
  plugJSON_Apps : list string;
  plugJSON_Label : string;
}.

Record slotJSON : Type := {
  slotJSON_Snap : string;
  slotJSON_Name : string;
  slotJSON_Interface : string;
  slotJSON_Attrs : list (string * value);
  slotJSON_Apps : list string;
  slotJSON_Label : string;
}.

Record interfaceAction : Type := {
  interfaceAction_Action : string;
  Plugs : list plugJSON;
  Slots : list slotJSON;
}.

Record licenseData : Type := {
  licenseData_Intro : string;
  licenseData_License : string;
  licenseData_Agreed : bool;
}.

(** [snapInstruction], over the type of revisions. *)
Record snapInstruction (Revision : Type) : Type := {
  Action : string;
  Channel : string;
  Revision_ : Revision;
  DevMode : bool;
  JailMode : bool;
  LeaveOld : bool;
  License : option licenseData;
  Snaps : list string;
  userID : Z;
}.
Arguments Action {_} _.
Arguments Channel {_} _.
Arguments Revision_ {_} _.
Arguments DevMode {_} _.
Arguments JailMode {_} _.
Arguments LeaveOld {_} _.
Arguments License {_} _.
Arguments Snaps {_} _.
Arguments userID {_} _.

(** The errors of [store.LoginUser] that [loginUser] tells apart. *)
Inductive storeLoginError : Type :=
| ErrAuthenticationNeeds2fa (msg : string)
| Err2faFailed (msg : string)
| ErrInvalidAuthData (msg : string) (fields : list (string * list string))
| ErrOtherLogin (msg : string).

(** The three outcomes of [snapstate.Get] that [ensureUbuntuCore] tells
    apart. *)
Inductive getError : Type :=
| GetNil
| GetErrNoState
| GetErrOther (msg : string).

(** *** The collaborators

    The packages the handlers call into ([encoding/json], [strconv.Quote],
    [release], [store], [snapstate], [assertstate], [configstate],
    [ifacestate], [snap]) are outside this development; a [Backend] says
    what each call answers.  The package-level variables [snapstateInstall],
    [snapstateUpdate], ... of [api.go] are of this kind by construction. *)
Class Backend : Type := {
  RequestBody : Type;                     (* what [r.Body] yields when read *)
  Revision : Type;                                   (* snap.Revision *)
  Revision_Unset : Revision → bool;
  snap_R0 : Revision;                                (* snap.R(0) *)
  snapstate_DevMode : Z;                             (* snapstate.DevMode *)
  snapstate_JailMode : Z;                            (* snapstate.JailMode *)
  strconv_Quote : string → string;                   (* the verb %q *)
  ForceDevMode : bool;               (* release.ReleaseInfo.ForceDevMode() *)
  decodeLoginData : RequestBody → result string loginData;
  decodeSnapInstruction : RequestBody → result string (snapInstruction Revision);
  decodeAction : RequestBody → result string string;
  decodeInterfaceAction : RequestBody → result string interfaceAction;
  store_LoginUser :
    string → string → string → result storeLoginError (string * string);
  auth_NewUser_err : State → string → option string;
  snapstateGet : State → string → getError;
  snapstateInstall :
    State → string → string → Revision → Z → Z → result string TaskSet;
  snapstateUpdate :
    State → string → string → Revision → Z → Z → result string TaskSet;
  snapstateUpdateMany :
    State → list string → Z → result string (list string * list TaskSet);
  snapstateInstallMany :
    State → list string → Z → result string (list string * list TaskSet);
  snapstateRemoveMany :
    State → list string → result string (list string * list TaskSet);
  snapstate_Remove : State → string → Revision → result string TaskSet;
  snapstate_Revert : State → string → Z → result string TaskSet;
  snapstate_RevertToRevision :
    State → string → Revision → Z → result string TaskSet;
  snapstate_Enable : State → string → result string TaskSet;
  snapstate_Disable : State → string → result string TaskSet;
  assertstateRefreshSnapDeclarations : State → Z → option string;
  transaction_Get : State → string → string → result string value;
  ifacestate_Connect :
    State → string → string → string → string → result string TaskSet;
  ifacestate_Disconnect :
    State → string → string → string → string → result string TaskSet;
}.

Record Request {B : Backend} : Type := {
  Body : RequestBody;
  URL_Query : list (string * list string);   (* r.URL.Query() *)
  Vars : list (string * string);             (* muxVars(r) *)
}.

(** The calls a handler makes on the state and on its collaborators, as
    they are recorded. *)
Inductive Call : Type :=
| CLock                                   (* state.Lock() *)
| CUnlock                                 (* state.Unlock() *)
| CEnsureBefore (d : Z)                   (* st.EnsureBefore(d) *)
| CStoreLoginUser (username password otp : string)
| CAuthNewUser (username : string)
| CNewChange (kind summary : string)
| CChangeAbort (id : string)
| CSnapstateGet (name : string)
| CBuildTaskSet (op : string) (names : list string)
    (* a call of snapstate or ifacestate that builds task-sets *)
| CRefreshSnapDeclarations
| CNewTransaction
| CTransactionGet (snapName key : string)
| CNoticef.

Record World : Type := {
  World_state : State;
  World_calls : list Call;
}.

(** The handler monad: the state of the overlord threaded through, and the
    record of calls. *)
Definition M (A : Type) : Type := World → A * World.

#[global] Instance M_ret : MRet M := λ A a w, (a, w).
#[global] Instance M_bind : MBind M :=
  λ A B f m w, let '(a, w') := m w in f a w'.
#[global] Instance M_fmap : FMap M :=
  λ A B f m w, let '(a, w') := m w in (f a, w').

Definition call (c : Call) : M unit :=
  λ w, (tt, {| World_state := World_state w;
               World_calls := World_calls w ++ [c] |}).

Definition getState : M State := λ w, (World_state w, w).

Definition putState (st : State) : M unit :=
  λ w, (tt, {| World_state := st; World_calls := World_calls w |}).

(** [state.Lock(); defer state.Unlock()] around the rest of a handler. *)
Definition locked {A} (body : M A) : M A :=
  call CLock;; a ← body; call CUnlock;; mret a.

(** Run a handler from a state, with nothing recorded yet. *)
Definition run {A} (m : M A) (st : State) : A * World :=
  m {| World_state := st; World_calls := [] |}.

(** The world a handler leaves when it has touched nothing. *)
Definition untouched (st : State) : World :=
  {| World_state := st; World_calls := [] |}.

(** The world a handler leaves when it has only taken and released the
    state lock. *)
Definition only_locked (st : State) : World :=
  {| World_state := st; World_calls := [CLock; CUnlock] |}.

(** *** The route table ([api.go]) *)

Definition rootCmd_Path : string := "/".
Definition sysInfoCmd_Path : string := "/v2/system-info".
Definition loginCmd_Path : string := "/v2/login".
Definition logoutCmd_Path : string := "/v2/logout".
Definition appIconCmd_Path : string := "/v2/icons/{name}/icon".
Definition findCmd_Path : string := "/v2/find".
Definition snapsCmd_Path : string := "/v2/snaps".
Definition snapCmd_Path : string := "/v2/snaps/{name}".
Definition snapConfCmd_Path : string := "/v2/snaps/{name}/conf".
Definition interfacesCmd_Path : string := "/v2/interfaces".
Definition assertsCmd_Path : string := "/v2/assertions".
Definition assertsFindManyCmd_Path : string := "/v2/assertions/{assertType}".
Definition eventsCmd_Path : string := "/v2/events".
Definition stateChangeCmd_Path : string := "/v2/changes/{id}".
Definition stateChangesCmd_Path : string := "/v2/changes".
Definition createUserCmd_Path : string := "/v2/create-user".
Definition buyCmd_Path : string := "/v2/buy".
Definition readyToBuyCmd_Path : string := "/v2/buy/ready".
Definition paymentMethodsCmd_Path : string := "/v2/buy/methods".
Definition snapctlCmd_Path : string := "/v2/snapctl".

(** The paths of [api], in its order. *)
Definition api : list string :=
  [ rootCmd_Path; sysInfoCmd_Path; loginCmd_Path; logoutCmd_Path;
    appIconCmd_Path; findCmd_Path; snapsCmd_Path; snapCmd_Path;
    snapConfCmd_Path; interfacesCmd_Path; assertsCmd_Path;
    assertsFindManyCmd_Path; eventsCmd_Path; stateChangeCmd_Path;
    stateChangesCmd_Path; createUserCmd_Path; buyCmd_Path;
    readyToBuyCmd_Path; paymentMethodsCmd_Path; snapctlCmd_Path ].

(** The daemon a command belongs to: the names of the routes registered on
    its router, and the switch for the internal interface actions. *)
Record Daemon : Type := {
  router : list string;
  enableInternalInterfaceActions : bool;
}.

Record Command : Type := {
  Path : string;
  d : Daemon;
}.

(** [c.d.router.Get(name) != nil]. *)
Definition router_Get (dm : Daemon) (name : string) : bool :=
  bool_decide (name ∈ router dm).

(** Modelled from the spec: the daemon's start-up code is not among the
    sources; the router holds the fixed set of endpoints of the route table
    (sections 4.5 and 5), one route per command, named by its path. *)
Definition addRoutes (enable : bool) : Daemon :=
  {| router := api; enableInternalInterfaceActions := enable |}.

Section handlers.
Context {B : Backend} {L : regexp.Lib}.
Import regexp.

#[local] Abbreviation snapInstruction := (snapInstruction Revision).

(** [strconv.Quote] of each name, as [%q] prints a slice of strings. *)
Definition Quote_slice (l : list string) : string :=
  "[" +:+ gostrings.Join (strconv_Quote <$> l) " " +:+ "]".

(** [ensureStateSoon(st)], that is [st.EnsureBefore(0)]. *)
Definition ensureStateSoon : M unit := call (CEnsureBefore 0).

(** A method called on the change of id [id], which the state holds. *)
Definition Change_update (id : string) (f : Change → Change) : M unit :=
  st ← getState;
  putState {| State_changes := alter f id (State_changes st);
              State_lastID := State_lastID st;
              State_users := State_users st |}.

(** [st.NewChange(kind, summary)]; a change is referred to by its id. *)
Definition NewChange (kind summary : string) : M string :=
  st ← getState;
  call (CNewChange kind summary);;
  let '(chg, st') := State_NewChange st kind summary in
  putState st';;
  mret (Change_ID chg).

(** *** [loginUser] *)

Definition isEmailish_pattern : string := ".@.*\..".

(** [isEmailish] is [regexp.MustCompile(isEmailish_pattern).MatchString];
    [rx] is what the pattern compiled to when the package was loaded. *)
Definition isEmailish (rx : Regexp) : string → bool := MatchString rx.

Definition loginError (kind : errorKind) (message : string)
    (value : option (list (string * list string))) (status : Z) : Response :=
  SyncResponse
    (SyncOfResponse
       {| Type_ := ResponseTypeError;
          Result := RError {| Message := message; Kind := kind;
                              Value := value |};
          Status_ := status;
          Meta_ := None |})
    None.

Definition loginUser (rx : Regexp) (c : Command) (r : Request)
    (user : option UserState) : M Response :=
  match decodeLoginData (Body r) with
  | Err err =>
      mret (BadRequest ("cannot decode login data from request body: " +:+ err))
  | OK loginData =>
      if negb (isEmailish rx (loginData_Username loginData)) then
        mret (loginError errorKindInvalidAuthData
                "please use a valid email address."
                (Some [("email", ["invalid"])]) StatusBadRequest)
      else
        call (CStoreLoginUser (loginData_Username loginData)
                (loginData_Password loginData) (loginData_Otp loginData));;
        match store_LoginUser (loginData_Username loginData)
                (loginData_Password loginData) (loginData_Otp loginData) with
        | Err (ErrAuthenticationNeeds2fa msg) =>
            mret (loginError errorKindTwoFactorRequired msg None
                    StatusUnauthorized)
        | Err (Err2faFailed msg) =>
            mret (loginError errorKindTwoFactorFailed msg None
                    StatusUnauthorized)
        | Err (ErrInvalidAuthData msg fields) =>
            mret (loginError errorKindInvalidAuthData msg (Some fields)
                    StatusBadRequest)
        | Err (ErrOtherLogin msg) => mret (Unauthorized msg)
        | OK (macaroon, discharge) =>
            call CLock;;
            st ← getState;
            call (CAuthNewUser (loginData_Username loginData));;
            err ← match auth_NewUser_err st (loginData_Username loginData) with
                  | Some err => mret (Some err)
                  | None =>
                      putState (State_NewUser st (loginData_Username loginData)
                                  macaroon [discharge]).2;;
                      mret None
                  end;
            call CUnlock;;
            match err with
            | Some err =>
                mret (InternalError
                        ("cannot persist authentication details: " +:+ err))
            | None =>
                mret (SyncResponse
                        (SyncOfPayload
                           (RLogin {| loginResponseData_Macaroon := macaroon;
                                      loginResponseData_Discharges := [discharge] |}))
                        None)
            end
        end
  end.

(** *** The single-snap operations *)

Inductive ensureError : Type :=
| errNothingToInstall
| ensureErrorOf (err : string).

Definition ensureUbuntuCore (targetSnap : string) (userID : Z)
  : M (option TaskSet * option ensureError) :=
  let ubuntuCore := "ubuntu-core" in
  if bool_decide (targetSnap = ubuntuCore) then
    mret (None, Some errNothingToInstall)
  else
    st ← getState;
    call (CSnapstateGet ubuntuCore);;
    match snapstateGet st ubuntuCore with
    | GetNil => mret (None, None)
    | GetErrOther err => mret (None, Some (ensureErrorOf err))
    | GetErrNoState =>
        call (CBuildTaskSet "Install" [ubuntuCore]);;
        match snapstateInstall st ubuntuCore "stable" snap_R0 userID 0 with
        | OK ts => mret (Some ts, None)
        | Err err => mret (None, Some (ensureErrorOf err))
        end
    end.

Definition withEnsureUbuntuCore (targetSnap : string) (userID : Z)
    (install : M (result string TaskSet)) : M (result string (list TaskSet)) :=
  '(ubuCoreTs, err) ← ensureUbuntuCore targetSnap userID;
  match err with
  | Some (ensureErrorOf err) => mret (Err err)
  | _ =>
      r ← install;
      match r with
      | Err err => mret (Err err)
      | OK ts =>
          match ubuCoreTs with
          | Some ubuCoreTs => mret (OK [ubuCoreTs; TaskSet_WaitAll ts ubuCoreTs])
          | None => mret (OK [ts])
          end
      end
  end.

Definition errModeConflict : string :=
  "cannot use devmode and jailmode flags together".
Definition errNoJailMode : string :=
  "this system cannot honour the jailmode flag".

Definition modeFlags (devMode jailMode : bool) : result string Z :=
  let devModeOS := ForceDevMode in
  let flags := 0%Z in
  let jail :=
    if jailMode then
      if devModeOS then Err errNoJailMode
      else if devMode then Err errModeConflict
      else OK (Z.lor flags snapstate_JailMode)
    else OK flags in
  match jail with
  | Err err => Err err
  | OK flags =>
      OK (if devMode || devModeOS then Z.lor flags snapstate_DevMode else flags)
  end.

(** [inst.Snaps[0]]; the single-snap operations run on one name. *)
Definition Snaps_0 (inst : snapInstruction) : string :=
  match Snaps inst with
  | name :: _ => name
  | [] => ""
  end.

Definition fromChannel (inst : snapInstruction) : bool :=
  bool_decide (Channel inst ≠ "stable") && bool_decide (Channel inst ≠ "").

Definition snapActionFunc : Type :=
  snapInstruction → M (result string (string * list TaskSet)).

Definition snapInstall : snapActionFunc := λ inst,
  match modeFlags (DevMode inst) (JailMode inst) with
  | Err err => mret (Err err)
  | OK flags =>
      call CNoticef;;
      tsets ← withEnsureUbuntuCore (Snaps_0 inst) (userID inst)
                (st ← getState;
                 call (CBuildTaskSet "Install" [Snaps_0 inst]);;
                 mret (snapstateInstall st (Snaps_0 inst) (Channel inst)
                         (Revision_ inst) (userID inst) flags));
      match tsets with
      | Err err => mret (Err err)
      | OK tsets =>
          let msg :=
            if fromChannel inst
            then "Install " +:+ strconv_Quote (Snaps_0 inst) +:+ " snap from "
                 +:+ strconv_Quote (Channel inst) +:+ " channel"
            else "Install " +:+ strconv_Quote (Snaps_0 inst) +:+ " snap" in
          mret (OK (msg, tsets))
      end
  end.

Definition snapUpdate : snapActionFunc := λ inst,
  match modeFlags (DevMode inst) (JailMode inst) with
  | Err err => mret (Err err)
  | OK flags =>
      st ← getState;
      call CRefreshSnapDeclarations;;
      match assertstateRefreshSnapDeclarations st (userID inst) with
      | Some err => mret (Err err)
      | None =>
          call (CBuildTaskSet "Update" [Snaps_0 inst]);;
          match snapstateUpdate st (Snaps_0 inst) (Channel inst)
                  (Revision_ inst) (userID inst) flags with
          | Err err => mret (Err err)
          | OK ts =>
              let msg :=
                if fromChannel inst
                then "Refresh " +:+ strconv_Quote (Snaps_0 inst)
                     +:+ " snap from " +:+ strconv_Quote (Channel inst)
                     +:+ " channel"
                else "Refresh " +:+ strconv_Quote (Snaps_0 inst) +:+ " snap" in
              mret (OK (msg, [ts]))
          end
      end
  end.

Definition snapRemove : snapActionFunc := λ inst,
  st ← getState;
  call (CBuildTaskSet "Remove" [Snaps_0 inst]);;
  match snapstate_Remove st (Snaps_0 inst) (Revision_ inst) with
  | Err err => mret (Err err)
  | OK ts =>
      mret (OK ("Remove " +:+ strconv_Quote (Snaps_0 inst) +:+ " snap", [ts]))
  end.

Definition snapRevert : snapActionFunc := λ inst,
  match modeFlags (DevMode inst) (JailMode inst) with
  | Err err => mret (Err err)
  | OK flags =>
      st ← getState;
      call (CBuildTaskSet "Revert" [Snaps_0 inst]);;
      match (if Revision_Unset (Revision_ inst)
             then snapstate_Revert st (Snaps_0 inst) flags
             else snapstate_RevertToRevision st (Snaps_0 inst)
                    (Revision_ inst) flags) with
      | Err err => mret (Err err)
      | OK ts =>
          mret (OK ("Revert " +:+ strconv_Quote (Snaps_0 inst) +:+ " snap", [ts]))
      end
  end.

Definition snapEnable : snapActionFunc := λ inst,
  if negb (Revision_Unset (Revision_ inst)) then
    mret (Err "enable takes no revision")
  else
    st ← getState;
    call (CBuildTaskSet "Enable" [Snaps_0 inst]);;
    match snapstate_Enable st (Snaps_0 inst) with
    | Err err => mret (Err err)
    | OK ts =>
        mret (OK ("Enable " +:+ strconv_Quote (Snaps_0 inst) +:+ " snap", [ts]))
    end.

Definition snapDisable : snapActionFunc := λ inst,
  if negb (Revision_Unset (Revision_ inst)) then
    mret (Err "disable takes no revision")
  else
    st ← getState;
    call (CBuildTaskSet "Disable" [Snaps_0 inst]);;
    match snapstate_Disable st (Snaps_0 inst) with
    | Err err => mret (Err err)
    | OK ts =>
        mret (OK ("Disable " +:+ strconv_Quote (Snaps_0 inst) +:+ " snap", [ts]))
    end.

Definition snapInstructionDispTable : list (string * snapActionFunc) :=
  [ ("install", snapInstall);
    ("refresh", snapUpdate);
    ("remove", snapRemove);
    ("revert", snapRevert);
    ("enable", snapEnable);
    ("disable", snapDisable) ].

(** [inst.dispatch()]: the entry of the table for the action, [nil] when
    there is none.  It panics unless the instruction names exactly one
    snap, which [postSnap], its only caller, has just seen to. *)
Definition dispatch (inst : snapInstruction) : option snapActionFunc :=
  snd <$> List.find (λ e, bool_decide (e.1 = Action inst))
            snapInstructionDispTable.

(** [inst.userID = user.ID] when there is a user. *)
Definition with_user (inst : snapInstruction) (user : option UserState)
  : snapInstruction :=
  match user with
  | Some user =>
      {| Action := Action inst; Channel := Channel inst;
         Revision_ := Revision_ inst; DevMode := DevMode inst;
         JailMode := JailMode inst; LeaveOld := LeaveOld inst;
         License := License inst; Snaps := Snaps inst; userID := ID user |}
  | None => inst
  end.

(** [inst.Snaps = snaps]. *)
Definition with_Snaps (inst : snapInstruction) (snaps : list string)
  : snapInstruction :=
  {| Action := Action inst; Channel := Channel inst;
     Revision_ := Revision_ inst; DevMode := DevMode inst;
     JailMode := JailMode inst; LeaveOld := LeaveOld inst;
     License := License inst; Snaps := snaps; userID := userID inst |}.

(** [newChange]; an empty list of names stands for the [nil] slice. *)
Definition newChange (kind summary : string) (tsets : list TaskSet)
    (snapNames : list string) : M string :=
  chg ← NewChange kind summary;
  (fix loop (tsets : list TaskSet) : M unit :=
     match tsets with
     | [] => mret tt
     | ts :: tsets' =>
         Change_update chg (λ c, Change_AddAll c ts);; loop tsets'
     end) tsets;;
  (match snapNames with
   | [] => mret tt
   | _ => Change_update chg
            (λ c, Change_Set c "snap-names" (VList (VString <$> snapNames)))
   end);;
  mret chg.

Definition postSnap (c : Command) (r : Request) (user : option UserState)
  : M Response :=
  if negb (router_Get (d c) stateChangeCmd_Path) then
    mret (InternalError "cannot find route for change")
  else
    match decodeSnapInstruction (Body r) with
    | Err err =>
        mret (BadRequest
                ("cannot decode request body into snap instruction: " +:+ err))
    | OK inst =>
        locked
          (let inst := with_user inst user in
           let inst := with_Snaps inst [Vars_at (Vars r) "name"] in
           match dispatch inst with
           | None => mret (BadRequest ("unknown action " +:+ Action inst))
           | Some impl =>
               res ← impl inst;
               match res with
               | Err err =>
                   mret (BadRequest
                           ("cannot " +:+ Action inst +:+ " "
                            +:+ strconv_Quote (Snaps_0 inst) +:+ ": " +:+ err))
               | OK (msg, tsets) =>
                   chg ← newChange (Action inst +:+ "-snap") msg tsets
                           (Snaps inst);
                   ensureStateSoon;;
                   mret (AsyncResponse RNil (Some {| Meta_Change := chg |}))
               end
           end)
    end.

(** *** The multi-snap operations *)

Definition snapManyResult : Type :=
  result string (string * list string * list TaskSet).

(** The summary of a multi-snap operation on two names or more. *)
Definition manyMsg (verb : string) (snaps : list string) : string :=
  verb +:+ " snaps " +:+ gostrings.Join (strconv_Quote <$> snaps) ", ".

Definition snapUpdateMany (inst : snapInstruction) : M snapManyResult :=
  st ← getState;
  call CRefreshSnapDeclarations;;
  match assertstateRefreshSnapDeclarations st (userID inst) with
  | Some err => mret (Err err)
  | None =>
      call (CBuildTaskSet "UpdateMany" (Snaps inst));;
      match snapstateUpdateMany st (Snaps inst) (userID inst) with
      | Err err => mret (Err err)
      | OK (updated, tasksets) =>
          let msg :=
            match Snaps inst with
            | [] => "Refresh all snaps in the system"
            | [name] => "Refresh snap " +:+ strconv_Quote name
            | _ => manyMsg "Refresh" (Snaps inst)
            end in
          mret (OK (msg, updated, tasksets))
      end
  end.

Definition snapInstallMany (inst : snapInstruction) : M snapManyResult :=
  st ← getState;
  call (CBuildTaskSet "InstallMany" (Snaps inst));;
  match snapstateInstallMany st (Snaps inst) (userID inst) with
  | Err err => mret (Err err)
  | OK (installed, tasksets) =>
      match Snaps inst with
      | [] => mret (Err "cannot install zero snaps")
      | [name] =>
          mret (OK ("Install snap " +:+ strconv_Quote name, installed, tasksets))
      | _ => mret (OK (manyMsg "Install" (Snaps inst), installed, tasksets))
      end
  end.

Definition snapRemoveMany (inst : snapInstruction) : M snapManyResult :=
  st ← getState;
  call (CBuildTaskSet "RemoveMany" (Snaps inst));;
  match snapstateRemoveMany st (Snaps inst) with
  | Err err => mret (Err err)
  | OK (removed, tasksets) =>
      match Snaps inst with
      | [] => mret (Err "cannot remove zero snaps")
      | [name] =>
          mret (OK ("Remove snap " +:+ strconv_Quote name, removed, tasksets))
      | _ => mret (OK (manyMsg "Remove" (Snaps inst), removed, tasksets))
      end
  end.

Definition snapsOp (c : Command) (r : Request) (user : option UserState)
  : M Response :=
  if negb (router_Get (d c) stateChangeCmd_Path) then
    mret (InternalError "cannot find route for change")
  else
    match decodeSnapInstruction (Body r) with
    | Err err =>
        mret (BadRequest
                ("cannot decode request body into snap instruction: " +:+ err))
    | OK inst =>
        if bool_decide (Channel inst ≠ "")
           || negb (Revision_Unset (Revision_ inst))
           || DevMode inst || JailMode inst
        then
          mret (BadRequest "unsupported option provided for multi-snap operation")
        else
          locked
            (let inst := with_user inst user in
             res ← (if bool_decide (Action inst = "refresh")
                    then Some <$> snapUpdateMany inst
                    else if bool_decide (Action inst = "install")
                    then Some <$> snapInstallMany inst
                    else if bool_decide (Action inst = "remove")
                    then Some <$> snapRemoveMany inst
                    else mret None);
             match res with
             | None =>
                 mret (BadRequest
                         ("unsupported multi-snap operation "
                          +:+ strconv_Quote (Action inst)))
             | Some (Err err) =>
                 mret (InternalError
                         ("cannot " +:+ Action inst +:+ " "
                          +:+ Quote_slice (Snaps inst) +:+ ": " +:+ err))
             | Some (OK (msg, affected, tsets)) =>
                 chg ← match tsets with
                       | [] =>
                           chg ← NewChange (Action inst +:+ "-snap") msg;
                           Change_update chg (λ c, Change_SetStatus c DoneStatus);;
                           mret chg
                       | _ =>
                           chg ← newChange (Action inst +:+ "-snap") msg tsets
                                   affected;
                           ensureStateSoon;;
                           mret chg
                       end;
                 Change_update chg
                   (λ c, Change_Set c "api-data"
                           (VMapS [("snap-names", VList (VString <$> affected))]));;
                 mret (AsyncResponse RNil (Some {| Meta_Change := chg |}))
             end)
    end.

(** *** [getSnapConf] *)

(** The loop over the keys; [transaction] is the state the transaction was
    opened on. *)
Fixpoint getSnapConf_loop (transaction : State) (snapName : string)
    (keys : list string) (currentConfValues : list (string * value))
  : M Response :=
  match keys with
  | [] => mret (SyncResponse (SyncOfPayload (RConf currentConfValues)) None)
  | key :: keys' =>
      call (CTransactionGet snapName key);;
      match transaction_Get transaction snapName key with
      | Err err => mret (BadRequest err)
      | OK value =>
          getSnapConf_loop transaction snapName keys'
            (map_assign currentConfValues key value)
      end
  end.

Definition getSnapConf (c : Command) (r : Request) (user : option UserState)
  : M Response :=
  let snapName := Vars_at (Vars r) "name" in
  let keys := gostrings.Split (Values_Get (URL_Query r) "keys") "," in
  if bool_decide (List.length keys = 0%nat) then
    mret (BadRequest "cannot obtain configuration: no keys supplied")
  else
    call CLock;;
    call CNewTransaction;;
    transaction ← getState;
    call CUnlock;;
    getSnapConf_loop transaction snapName keys [].

(** *** [changeInterfaces] *)

Definition Plugs_0 (a : interfaceAction) : plugJSON :=
  match Plugs a with
  | p :: _ => p
  | [] => {| plugJSON_Snap := ""; plugJSON_Name := ""; plugJSON_Interface := "";
             plugJSON_Attrs := []; plugJSON_Apps := []; plugJSON_Label := "" |}
  end.

Definition Slots_0 (a : interfaceAction) : slotJSON :=
  match Slots a with
  | p :: _ => p
  | [] => {| slotJSON_Snap := ""; slotJSON_Name := ""; slotJSON_Interface := "";
             slotJSON_Attrs := []; slotJSON_Apps := []; slotJSON_Label := "" |}
  end.

Definition changeInterfaces (c : Command) (r : Request)
    (user : option UserState) : M Response :=
  match decodeInterfaceAction (Body r) with
  | Err err =>
      mret (BadRequest
              ("cannot decode request body into an interface action: " +:+ err))
  | OK a =>
      let Action := interfaceAction_Action a in
      if bool_decide (Action = "") then
        mret (BadRequest "interface action not specified")
      else if negb (enableInternalInterfaceActions (d c))
              && bool_decide (Action ≠ "connect")
              && bool_decide (Action ≠ "disconnect") then
        mret (BadRequest "internal interface actions are disabled")
      else if bool_decide (1 < List.length (Plugs a))%nat
              || bool_decide (1 < List.length (Slots a))%nat then
        mret (NotImplemented "many-to-many operations are not implemented")
      else if bool_decide (Action ≠ "connect")
              && bool_decide (Action ≠ "disconnect") then
        mret (BadRequest
                ("unsupported interface action: " +:+ strconv_Quote Action))
      else if bool_decide (List.length (Plugs a) = 0%nat)
              || bool_decide (List.length (Slots a) = 0%nat) then
        mret (BadRequest "at least one plug and slot is required")
      else
        let plug := Plugs_0 a in
        let slot := Slots_0 a in
        let names := plugJSON_Snap plug +:+ ":" +:+ plugJSON_Name plug in
        let slotNames := slotJSON_Snap slot +:+ ":" +:+ slotJSON_Name slot in
        locked
          (st ← getState;
           call (CBuildTaskSet Action [plugJSON_Snap plug; slotJSON_Snap slot]);;
           let '(summary, taskset) :=
             if bool_decide (Action = "connect") then
               ("Connect " +:+ names +:+ " to " +:+ slotNames,
                ifacestate_Connect st (plugJSON_Snap plug) (plugJSON_Name plug)
                  (slotJSON_Snap slot) (slotJSON_Name slot))
             else
               ("Disconnect " +:+ names +:+ " from " +:+ slotNames,
                ifacestate_Disconnect st (plugJSON_Snap plug)
                  (plugJSON_Name plug) (slotJSON_Snap slot) (slotJSON_Name slot))
           in
           match taskset with
           | Err err => mret (BadRequest err)
           | OK taskset =>
               change ← NewChange (Action +:+ "-snap") summary;
               Change_update change
                 (λ c, Change_Set c "snap-names"
                         (VList [VString (plugJSON_Snap plug);
                                 VString (slotJSON_Snap slot)]));;
               Change_update change (λ c, Change_AddAll c taskset);;
               call (CEnsureBefore 0);;
               mret (AsyncResponse RNil (Some {| Meta_Change := change |}))
           end)
  end.

(** *** [abortChange] *)

Definition change2changeInfo (chg : Change) : changeInfo :=
  {| changeInfo_ID := Change_ID chg;
     changeInfo_Kind := Change_Kind chg;
     changeInfo_Summary := Change_Summary chg;
     changeInfo_Tasks :=
       (λ t, {| taskInfo_ID := Task_ID t; taskInfo_Kind := Task_Kind t;
                taskInfo_Status := Task_Status t |}) <$> Change_Tasks chg;
     changeInfo_Ready := Change_Ready chg |}.

Definition abortChange (c : Command) (r : Request) (user : option UserState)
  : M Response :=
  let chID := Vars_at (Vars r) "id" in
  locked
    (st ← getState;
     match State_Change st chID with
     | None =>
         mret (NotFound ("cannot find change with id " +:+ strconv_Quote chID))
     | Some chg =>
         match decodeAction (Body r) with
         | Err err =>
             mret (BadRequest
                     ("cannot decode data from request body: " +:+ err))
         | OK action =>
             if bool_decide (action ≠ "abort") then
               mret (BadRequest
                       ("change action " +:+ strconv_Quote action
                        +:+ " is unsupported"))
             else if Change_Ready chg then
               mret (BadRequest
                       ("cannot abort change " +:+ chID
                        +:+ " with nothing pending"))
             else
               call (CChangeAbort chID);;
               Change_update chID Change_Abort;;
               ensureStateSoon;;
               mret (SyncResponse
                       (SyncOfPayload
                          (RChangeInfo (change2changeInfo (Change_Abort chg))))
                       None)
         end
     end).

End handlers.
End daemon.

(** A reference [Backend] to run the handlers on.  A request body is the
    JSON document it holds, read into a [value]; a struct is decoded from an
    object field by field, an absent field giving the zero value.  The store
    accepts every login, ubuntu-core is installed, every operation of
    snapstate and ifacestate builds a task-set of one task, and no snap has
    any configuration. *)
Module refdaemon.
Import state daemon.

Definition quote (s : string) : string :=
  String "034"%char s +:+ String "034"%char "".

Definition rbind {A B} (r : result string A) (k : A → result string B)
  : result string B :=
  match r with
  | OK a => k a
  | Err err => Err err
  end.

Definition field_string (m : list (string * value)) (k : string)
  : result string string :=
  match index_string_map m k with
  | VNil => OK ""
  | VString s => OK s
  | _ => Err ("json: cannot unmarshal field " +:+ k)
  end.

Definition field_bool (m : list (string * value)) (k : string)
  : result string bool :=
  match index_string_map m k with
  | VNil => OK false
  | VBool b => OK b
  | _ => Err ("json: cannot unmarshal field " +:+ k)
  end.

Definition field_int (m : list (string * value)) (k : string)
  : result string Z :=
  match index_string_map m k with
  | VNil => OK 0%Z
  | VInt n => OK n
  | _ => Err ("json: cannot unmarshal field " +:+ k)
  end.

Fixpoint strings_of (l : list value) : result string (list string) :=
  match l with
  | [] => OK []
  | VString s :: l' => rbind (strings_of l') (λ r, OK (s :: r))
  | _ => Err "json: cannot unmarshal into a string"
  end.

Definition field_strings (m : list (string * value)) (k : string)
  : result string (list string) :=
  match index_string_map m k with
  | VNil => OK []
  | VList l => strings_of l
  | _ => Err ("json: cannot unmarshal field " +:+ k)
  end.

Definition object (body : value) : result string (list (string * value)) :=
  match body with
  | VMapS m => OK m
  | _ => Err "json: cannot unmarshal into a struct"
  end.

Definition decodeLoginData (body : value) : result string loginData :=
  rbind (object body) (λ m,
  rbind (field_string m "username") (λ username,
  rbind (field_string m "password") (λ password,
  rbind (field_string m "otp") (λ otp,
  OK {| loginData_Username := username; loginData_Password := password;
        loginData_Otp := otp |})))).

Definition decodeSnapInstruction (body : value)
  : result string (snapInstruction Z) :=
  rbind (object body) (λ m,
  rbind (field_string m "action") (λ action,
  rbind (field_string m "channel") (λ channel,
  rbind (field_int m "revision") (λ revision,
  rbind (field_bool m "devmode") (λ devmode,
  rbind (field_bool m "jailmode") (λ jailmode,
  rbind (field_bool m "temp-dropped-leave-old") (λ leaveOld,
  rbind (field_strings m "snaps") (λ snaps,
  OK {| Action := action; Channel := channel; Revision_ := revision;
        DevMode := devmode; JailMode := jailmode; LeaveOld := leaveOld;
        License := None; Snaps := snaps; userID := 0 |})))))))).

Definition decodeAction (body : value) : result string string :=
  rbind (object body) (λ m, field_string m "action").

Definition decodePlug (v : value) : result string plugJSON :=
  rbind (object v) (λ m,
  rbind (field_string m "snap") (λ snap,
  rbind (field_string m "plug") (λ name,
  rbind (field_string m "interface") (λ iface,
  rbind (field_string m "label") (λ label,
  OK {| plugJSON_Snap := snap; plugJSON_Name := name;
        plugJSON_Interface := iface; plugJSON_Attrs := [];
        plugJSON_Apps := []; plugJSON_Label := label |}))))).

Definition decodeSlot (v : value) : result string slotJSON :=
  rbind (object v) (λ m,
  rbind (field_string m "snap") (λ snap,
  rbind (field_string m "slot") (λ name,
  rbind (field_string m "interface") (λ iface,
  rbind (field_string m "label") (λ label,
  OK {| slotJSON_Snap := snap; slotJSON_Name := name;
        slotJSON_Interface := iface; slotJSON_Attrs := [];
        slotJSON_Apps := []; slotJSON_Label := label |}))))).

Fixpoint decodeAll {A} (f : value → result string A) (l : list value)
  : result string (list A) :=
  match l with
  | [] => OK []
  | v :: l' => rbind (f v) (λ a, rbind (decodeAll f l') (λ r, OK (a :: r)))
  end.

Definition field_list (m : list (string * value)) (k : string)
  : result string (list value) :=
  match index_string_map m k with
  | VNil => OK []
  | VList l => OK l
  | _ => Err ("json: cannot unmarshal field " +:+ k)
  end.

Definition decodeInterfaceAction (body : value) : result string interfaceAction :=
  rbind (object body) (λ m,
  rbind (field_string m "action") (λ action,
  rbind (field_list m "plugs") (λ plugs,
  rbind (decodeAll decodePlug plugs) (λ plugs,
  rbind (field_list m "slots") (λ slots,
  rbind (decodeAll decodeSlot slots) (λ slots,
  OK {| interfaceAction_Action := action; Plugs := plugs; Slots := slots |})))))).

Definition one_task (kind name : string) : TaskSet :=
  [ {| Task_ID := kind +:+ ":" +:+ name; Task_Kind := kind;
       Task_Status := DoStatus; Task_WaitTasks := [] |} ].

Definition backend (forceDevMode : bool) : Backend := {|
  RequestBody := value;
  Revision := Z;
  Revision_Unset := λ r, bool_decide (r = 0%Z);
  snap_R0 := 0%Z;
  snapstate_DevMode := 1;
  snapstate_JailMode := 4;
  strconv_Quote := quote;
  ForceDevMode := forceDevMode;
  daemon.decodeLoginData := decodeLoginData;
  daemon.decodeSnapInstruction := decodeSnapInstruction;
  daemon.decodeAction := decodeAction;
  daemon.decodeInterfaceAction := decodeInterfaceAction;
  store_LoginUser := λ username _ _, OK ("macaroon:" +:+ username, "discharge");
  auth_NewUser_err := λ _ _, None;
  snapstateGet := λ _ _, GetNil;
  snapstateInstall := λ _ name _ _ _ _, OK (one_task "install" name);
  snapstateUpdate := λ _ name _ _ _ _, OK (one_task "refresh" name);
  snapstateUpdateMany := λ _ names _, OK (names, one_task "refresh" <$> names);
  snapstateInstallMany := λ _ names _, OK (names, one_task "install" <$> names);
  snapstateRemoveMany := λ _ names, OK (names, one_task "remove" <$> names);
  snapstate_Remove := λ _ name _, OK (one_task "remove" name);
  snapstate_Revert := λ _ name _, OK (one_task "revert" name);
  snapstate_RevertToRevision := λ _ name _ _, OK (one_task "revert" name);
  snapstate_Enable := λ _ name, OK (one_task "enable" name);
  snapstate_Disable := λ _ name, OK (one_task "disable" name);
  assertstateRefreshSnapDeclarations := λ _ _, None;
  transaction_Get := λ _ snapName key,
    Err ("snap " +:+ quote snapName +:+ " has no " +:+ quote key
         +:+ " configuration option");
  ifacestate_Connect := λ _ plugSnap _ _ _, OK (one_task "connect" plugSnap);
  ifacestate_Disconnect := λ _ plugSnap _ _ _, OK (one_task "disconnect" plugSnap);
|}.

(** The state of a daemon that has done nothing yet. *)
Definition empty_state : State :=
  {| State_changes := ∅; State_lastID := 0; State_users := [] |}.

(** A state that holds the change ["1"], of one task in the given status. *)
Definition state_with_task (status : Status) : State :=
  {| State_changes :=
       {[ "1" := {| Change_ID := "1"; Change_Kind := "install-snap";
                    Change_Summary := "Install foo snap";
                    Change_status := DoStatus;
                    Change_Tasks :=
                      [ {| Task_ID := "1"; Task_Kind := "download-snap";
                           Task_Status := status; Task_WaitTasks := [] |} ];
                    Change_Data := [] |} ]};
     State_lastID := 1;
     State_users := [] |}.

(** A command of the daemon that [addRoutes] sets up. *)
Definition command (path : string) (enable : bool) : Command :=
  {| Path := path; d := addRoutes enable |}.

(** A request with the body [body] and the route variables [vars]. *)
Definition request (forceDevMode : bool) (body : value)
    (vars : list (string * string)) (query : list (string * list string))
  : Request (B := backend forceDevMode) :=
  @Build_Request (backend forceDevMode) body query vars.

(** What [isEmailish_pattern] compiles to on the reference engine. *)
Definition isEmailish_rx : refregexp.re := Eval vm_compute in
    match refregexp.parse (refregexp.tokenize isEmailish_pattern) with
    | OK rx => rx
    | Err _ => refregexp.Void
    end.

(** Request bodies of the scenarios. *)
Definition login_noat : value :=
  VMapS [("username", VString "noat.example"); ("password", VString "x")].

Definition action_both_flags (action : string) : value :=
  VMapS [("action", VString action); ("devmode", VBool true);
         ("jailmode", VBool true)].

Definition action_jailmode (action : string) : value :=
  VMapS [("action", VString action); ("jailmode", VBool true)].

Definition install_many_channel : value :=
  VMapS [("action", VString "install");
         ("snaps", VList [VString "foo"; VString "bar"]);
         ("channel", VString "beta")].

Definition abort_body : value := VMapS [("action", VString "abort")].

Definition two_plugs (action : string) : value :=
  VMapS [("action", VString action);
         ("plugs", VList [VMapS [("snap", VString "a"); ("plug", VString "p")];
                          VMapS [("snap", VString "a"); ("plug", VString "q")]]);
         ("slots", VList [VMapS [("snap", VString "b"); ("slot", VString "s")]])].

End refdaemon.

(** ** What the matcher is to decide

    The verdict of the matcher stated on its own, without paths, errors or
    an order of visit: a map node wants every one of its keys set and
    matched, a regexp leaf wants the string form matched, a list of
    alternatives wants one alternative that matches; map nodes and regexp
    leaves take a list element by element. *)
Module attr_semantics.
Section semantics.
Context {L : regexp.Lib}.
Import asserts regexp.

Inductive accepts : attrMatcher → value → Prop :=
| accepts_string rx x :
    MatchString rx x = true →
    accepts (regexpAttrMatcher rx) (VString x)
| accepts_bool rx b :
    MatchString rx (strconv.FormatBool b) = true →
    accepts (regexpAttrMatcher rx) (VBool b)
| accepts_int rx n :
    MatchString rx (strconv.Itoa n) = true →
    accepts (regexpAttrMatcher rx) (VInt n)
| accepts_regexp_list rx l :
    Forall (accepts (regexpAttrMatcher rx)) l →
    accepts (regexpAttrMatcher rx) (VList l)
| accepts_string_map m x :
    Forall (λ e, index_string_map x e.1 ≠ VNil
                 ∧ accepts e.2 (index_string_map x e.1)) m →
    accepts (mapAttrMatcher m) (VMapS x)
| accepts_iface_map m x :
    Forall (λ e, index_iface_map x e.1 ≠ VNil
                 ∧ accepts e.2 (index_iface_map x e.1)) m →
    accepts (mapAttrMatcher m) (VMapI x)
| accepts_map_list m l :
    Forall (accepts (mapAttrMatcher m)) l →
    accepts (mapAttrMatcher m) (VList l)
| accepts_alternative alts a v :
    a ∈ alts → accepts a v →
    accepts (altAttrMatcher alts) v.

(** The constraint trees that can be compiled at a place that is under a
    map iff [hadMap] and directly in a list of alternatives iff [wasAlt]. *)
Inductive compilable : bool → bool → value → Prop :=
| compilable_map hadMap wasAlt m :
    Forall (λ kv, compilable true false kv.2) m →
    compilable hadMap wasAlt (VMapS m)
| compilable_alternatives hadMap l :
    Forall (compilable hadMap true) l →
    compilable hadMap false (VList l)
| compilable_regexp wasAlt s rx :
    Compile ("^" +:+ s +:+ "$") = OK rx →
    compilable true wasAlt (VString s).

End semantics.
End attr_semantics.

(** ** Package [asserts]: the other device assertions

    The assembler of a model of [device_asserts.go], which returns the
    model or the error, and accessors of a model and of a serial;
    [checkStringList] is one more header check of the package, taken as the
    others are. *)
Module device_asserts.
Section assemblers.
Context {B : asserts.Base}.
Context (checkStringList : gmap string value → string → result string (list string)).
Import asserts.

Definition modelMandatory : list string := ["architecture"; "gadget"; "kernel"].

Record Model : Type := {
  Model_assertionBase : assertionBase;
  Model_requiredSnaps : list string;
  Model_timestamp : time_Time;
}.

(** [x, err := f(); if err != nil { return nil, err }], for any type of
    assertion. *)
Definition try_ {A R} (r : result string A) (k : A → result assembleError R)
  : result assembleError R :=
  match r with
  | Err err => Err (ErrHeader err)
  | OK a => k a
  end.

(** The loop of [assembleModel] over the mandatory headers. *)
Fixpoint checkMandatory {R} (hs : gmap string value) (mandatory : list string)
    (k : result assembleError R) : result assembleError R :=
  match mandatory with
  | [] => k
  | name :: mandatory' =>
      try_ (checkNotEmptyString hs name) (λ _, checkMandatory hs mandatory' k)
  end.

Definition assembleModel (assert : assertionBase) : result assembleError Model :=
  match checkAuthorityMatchesBrand assert with
  | Some err => Err err
  | None =>
      checkMandatory (headers assert) modelMandatory
        (try_ (checkOptionalString (headers assert) "store") (λ _,
         try_ (checkStringList (headers assert) "required-snaps") (λ reqSnaps,
         try_ (checkRFC3339Date (headers assert) "timestamp") (λ timestamp,
         OK {| Model_assertionBase := assert;
               Model_requiredSnaps := reqSnaps;
               Model_timestamp := timestamp |}))))
  end.

(** The accessors of a model and of a serial. *)
Definition Model_BrandID (mdl : Model) : string :=
  HeaderString (Model_assertionBase mdl) "brand-id".
Definition Model_RequiredSnaps (mdl : Model) : list string :=
  Model_requiredSnaps mdl.
Definition Serial_BrandID (ser : Serial) : string :=
  HeaderString (Serial_assertionBase ser) "brand-id".
Definition Serial_DeviceKey (ser : Serial) : PublicKey := Serial_pubKey ser.

End assemblers.

(** A model assertion on the small instance of [Base]. *)
Definition model_pc : gmap string value :=
  list_to_map
    [ ("type", VString "model"); ("authority-id", VString "canonical");
      ("brand-id", VString "canonical"); ("model", VString "pc");
      ("series", VString "16"); ("architecture", VString "amd64");
      ("gadget", VString "pc"); ("kernel", VString "pc-kernel");
      ("timestamp", VString "2016-08-24T21:55:00Z") ].

(** The header check of a list of strings on the small instance: an absent
    header is the empty list. *)
Definition ref_checkStringList (h : gmap string value) (name : string)
  : result string (list string) :=
  match h !! name with
  | None => OK []
  | Some (VList l) =>
      (fix strings (l : list value) : result string (list string) :=
         match l with
         | [] => OK []
         | VString s :: l' =>
             match strings l' with
             | OK r => OK (s :: r)
             | Err err => Err err
             end
         | _ => Err (name +:+ " header must be a list of strings")
         end) l
  | Some _ => Err (name +:+ " header must be a list of strings")
  end.

End device_asserts.

(** ** What the handlers leave behind

    The states that the handlers are to leave, stated on their own, and a
    second backend to run them on. *)
Module daemon_semantics.
Import state daemon.
#[local] Open Scope Z_scope.

(** The id that the next change of a state gets. *)
Definition next_id (st : State) : string := strconv.Itoa (State_lastID st + 1).

(** The state [st] with one more change, [chg], under the next id. *)
Definition with_new_change (st : State) (chg : Change) : State :=
  {| State_changes := <[next_id st := chg]> (State_changes st);
     State_lastID := State_lastID st + 1;
     State_users := State_users st |}.

(** A fresh change of the next id of [st]. *)
Definition fresh_change (st : State) (kind summary : string)
    (status : Status) (tasks : list Task) (data : list (string * value))
  : Change :=
  {| Change_ID := next_id st; Change_Kind := kind; Change_Summary := summary;
     Change_status := status; Change_Tasks := tasks; Change_Data := data |}.

(** The instruction [inst] with the mode flags [devMode] and [jailMode] in
    place of its own. *)
Definition with_mode_flags {B : Backend} (inst : snapInstruction Revision)
    (devMode jailMode : bool) : snapInstruction Revision :=
  {| Action := Action inst; Channel := Channel inst;
     Revision_ := Revision_ inst; DevMode := devMode; JailMode := jailMode;
     LeaveOld := LeaveOld inst; License := License inst;
     Snaps := Snaps inst; userID := userID inst |}.

(** The state [st] with the change of id [id] replaced by [chg]. *)
Definition with_change (st : State) (id : string) (chg : Change) : State :=
  {| State_changes := <[id := chg]> (State_changes st);
     State_lastID := State_lastID st;
     State_users := State_users st |}.

(** The reference backend on a system where ubuntu-core is not installed
    yet and where the snap ["foo"] has the configuration ["port"]. *)
Definition backend_no_core : Backend := {|
  RequestBody := value;
  Revision := Z;
  Revision_Unset := λ r, bool_decide (r = 0%Z);
  snap_R0 := 0%Z;
  snapstate_DevMode := 1;
  snapstate_JailMode := 4;
  strconv_Quote := refdaemon.quote;
  ForceDevMode := false;
  daemon.decodeLoginData := refdaemon.decodeLoginData;
  daemon.decodeSnapInstruction := refdaemon.decodeSnapInstruction;
  daemon.decodeAction := refdaemon.decodeAction;
  daemon.decodeInterfaceAction := refdaemon.decodeInterfaceAction;
  store_LoginUser := λ username _ _, OK ("macaroon:" +:+ username, "discharge");
  auth_NewUser_err := λ _ _, None;
  snapstateGet := λ _ _, GetErrNoState;
  snapstateInstall := λ _ name _ _ _ _, OK (refdaemon.one_task "install" name);
  snapstateUpdate := λ _ name _ _ _ _, OK (refdaemon.one_task "refresh" name);
  snapstateUpdateMany := λ _ names _, OK ([], []);
  snapstateInstallMany := λ _ names _,
    OK (names, refdaemon.one_task "install" <$> names);
  snapstateRemoveMany := λ _ names,
    OK (names, refdaemon.one_task "remove" <$> names);
  snapstate_Remove := λ _ name _, OK (refdaemon.one_task "remove" name);
  snapstate_Revert := λ _ name _, OK (refdaemon.one_task "revert" name);
  snapstate_RevertToRevision := λ _ name _ _,
    OK (refdaemon.one_task "revert" name);
  snapstate_Enable := λ _ name, OK (refdaemon.one_task "enable" name);
  snapstate_Disable := λ _ name, OK (refdaemon.one_task "disable" name);
  assertstateRefreshSnapDeclarations := λ _ _, None;
  transaction_Get := λ _ snapName key,
    if bool_decide (snapName = "foo") && bool_decide (key = "port")
    then OK (VInt 8080)
    else Err ("snap " +:+ refdaemon.quote snapName +:+ " has no "
              +:+ refdaemon.quote key +:+ " configuration option");
  ifacestate_Connect := λ _ _ _ _ _, Err "no such plug";
  ifacestate_Disconnect := λ _ plugSnap _ _ _,
    OK (refdaemon.one_task "disconnect" plugSnap);
|}.

Definition request_no_core (body : value) (vars : list (string * string))
    (query : list (string * list string)) : Request (B := backend_no_core) :=
  @Build_Request backend_no_core body query vars.

(** The instruction to install the snap ["foo"], as [postSnap] hands it to
    [snapInstall]. *)
Definition install_foo : snapInstruction Z :=
  {| Action := "install"; Channel := ""; Revision_ := 0; DevMode := false;
     JailMode := false; LeaveOld := false; License := None;
     Snaps := ["foo"]; userID := 0 |}.

(** Request bodies. *)
Definition install_body : value := VMapS [("action", VString "install")].

Definition install_two : value :=
  VMapS [("action", VString "install");
         ("snaps", VList [VString "foo"; VString "bar"])].

Definition connect_one : value :=
  VMapS [("action", VString "connect");
         ("plugs", VList [VMapS [("snap", VString "a"); ("plug", VString "p")]]);
         ("slots", VList [VMapS [("snap", VString "b"); ("slot", VString "s")]])].

Definition login_email : value :=
  VMapS [("username", VString "user@example.com"); ("password", VString "x")].

End daemon_semantics.

(** ** [UserFromRequest] ([api.go])

    The user behind a request is found from its [Authorization] header.
    [strings.TrimSpace] and [auth.CheckMacaroon] are taken as they come;
    the other operations of [strings] are written out for the arguments
    the function gives them. *)
Module daemon_auth.
Import state.

(** The byte of a double quote, and the two prefixes the fields are told
    by. *)
Definition dquote : ascii := "034"%char.
Definition root_prefix : string := "root=" +:+ String dquote "".
Definition discharge_prefix : string := "discharge=" +:+ String dquote "".

(** [strings.SplitN(s, sep, 2)] for a separator of one byte: [cur] is the
    piece read so far. *)
Fixpoint SplitN_2 (sep : ascii) (cur s : string) : list string :=
  match s with
  | EmptyString => [cur]
  | String a s' =>
      if bool_decide (a = sep) then [cur; s']
      else SplitN_2 sep (cur +:+ String a "") s'
  end.

(** [strings.TrimSuffix(s, suffix)] for a suffix of one byte. *)
Fixpoint TrimSuffix (s : string) (suffix : ascii) : string :=
  match s with
  | EmptyString => EmptyString
  | String a EmptyString =>
      if bool_decide (a = suffix) then EmptyString else s
  | String a s' => String a (TrimSuffix s' suffix)
  end.

(** [s[n:]]. *)
Fixpoint slice_from (n : nat) (s : string) : string :=
  match n, s with
  | O, _ => s
  | S n', String _ s' => slice_from n' s'
  | S _, EmptyString => EmptyString
  end.

(** Whether the byte occurs in the string. *)
Fixpoint has_byte (c : ascii) (s : string) : bool :=
  match s with
  | EmptyString => false
  | String a s' => bool_decide (a = c) || has_byte c s'
  end.

(** The errors of [UserFromRequest]: [auth.ErrInvalidAuth], and the ones
    made by [fmt.Errorf]. *)
Inductive authError : Type :=
| ErrInvalidAuth
| authErrorf (msg : string).

Section user_from_request.
Context (TrimSpace : string → string).
Context (CheckMacaroon :
           State → string → list string → result authError UserState).

(** The loop over the fields of the header. *)
Fixpoint parseFields (fields : list string) (macaroon : string)
    (discharges : list string) : string * list string :=
  match fields with
  | [] => (macaroon, discharges)
  | field :: fields' =>
      let field := TrimSpace field in
      let macaroon :=
        if String.prefix root_prefix field
        then TrimSuffix (slice_from 6 field) dquote
        else macaroon in
      let discharges :=
        if String.prefix discharge_prefix field
        then discharges ++ [TrimSuffix (slice_from 11 field) dquote]
        else discharges in
      parseFields fields' macaroon discharges
  end.

(** [header] is [req.Header.Get("Authorization")]. *)
Definition UserFromRequest (st : State) (header : string)
  : result authError UserState :=
  if bool_decide (header = "") then Err ErrInvalidAuth
  else
    match SplitN_2 " " "" header with
    | [authorizationData_0; authorizationData_1] =>
        if bool_decide (authorizationData_0 ≠ "Macaroon") then
          Err (authErrorf "authorization header misses Macaroon prefix")
        else
          let '(macaroon, discharges) :=
            parseFields (gostrings.Split authorizationData_1 ",") "" [] in
          if bool_decide (macaroon = "")
             || bool_decide (List.length discharges = 0%nat)
          then Err (authErrorf "invalid authorization header")
          else CheckMacaroon st macaroon discharges
    | _ => Err (authErrorf "authorization header misses Macaroon prefix")
    end.

End user_from_request.

(** The header that carries a root macaroon and discharges. *)
Definition root_field (macaroon : string) : string :=
  root_prefix +:+ macaroon +:+ String dquote "".
Definition discharge_field (discharge : string) : string :=
  discharge_prefix +:+ discharge +:+ String dquote "".
Fixpoint discharge_fields (discharges : list string) : string :=
  match discharges with
  | [] => ""
  | d :: discharges' =>
      ", " +:+ discharge_field d +:+ discharge_fields discharges'
  end.
Definition macaroon_header (macaroon : string) (discharges : list string)
  : string :=
  "Macaroon " +:+ root_field macaroon +:+ discharge_fields discharges.

(** A [TrimSpace] for strings whose white space is spaces only, and a
    macaroon check that knows of no user. *)
Fixpoint ref_TrimLeft (s : string) : string :=
  match s with
  | String a s' => if bool_decide (a = " "%char) then ref_TrimLeft s' else s
  | EmptyString => EmptyString
  end.
Fixpoint ref_TrimRight (s : string) : string :=
  match s with
  | EmptyString => EmptyString
  | String a s' =>
      let t := ref_TrimRight s' in
      if bool_decide (a = " "%char) && bool_decide (t = "") then ""
      else String a t
  end.
Definition ref_TrimSpace (s : string) : string :=
  ref_TrimRight (ref_TrimLeft s).
Definition ref_CheckMacaroon (st : State) (macaroon : string)
    (discharges : list string) : result authError UserState :=
  match List.find (λ u, bool_decide (Macaroon u = macaroon)
                        && bool_decide (Discharges u = discharges))
          (State_users st) with
  | Some u => OK u
  | None => Err ErrInvalidAuth
  end.

End daemon_auth.

(** ** [getChange] and [getChanges] ([api.go])

    The two handlers that read the changes.  [state.Changes()] and
    [chg.Get("snap-names", ...)] belong to the state package and are taken
    as they come; what the handlers answer with is a description of one
    change, or of a list of changes. *)
Module daemon_changes.
Import state daemon.

(** What [getChange] and [getChanges] return: an error response, or
    [SyncResponse(result, nil)] on a result of type [A]. *)
Inductive answer (A : Type) : Type :=
| Refused (rsp : Response)
| Sync (result : A).
Arguments Refused {_} _.
Arguments Sync {_} _.

Section changes.
Context {B : Backend}.
Context (Changes : State → list Change).
Context (Get_snap_names : Change → result string (list string)).

Definition getChange (c : Command) (r : Request) (user : option UserState)
  : M (answer changeInfo) :=
  let chID := Vars_at (Vars r) "id" in
  locked
    (st ← getState;
     match State_Change st chID with
     | None =>
         mret (Refused (NotFound ("cannot find change with id "
                                  +:+ strconv_Quote chID)))
     | Some chg => mret (Sync (change2changeInfo chg))
     end).

(** The three filters of [getChanges] by status. *)
Definition filter_all : Change → bool := λ _, true.
Definition filter_in_progress : Change → bool := λ chg, negb (Change_Ready chg).
Definition filter_ready : Change → bool := λ chg, Change_Ready chg.

(** The filter by snap name around [outerFilter]. *)
Definition filter_for (wantedName : string) (outerFilter : Change → bool)
  : Change → bool :=
  λ chg,
    if negb (outerFilter chg) then false
    else
      match Get_snap_names chg with
      | Err _ => false
      | OK snapNames =>
          (fix loop (snapNames : list string) : bool :=
             match snapNames with
             | [] => false
             | snapName :: snapNames' =>
                 if bool_decide (snapName = wantedName) then true
                 else loop snapNames'
             end) snapNames
      end.

(** The loop of [getChanges] over the changes. *)
Fixpoint getChanges_loop (filter : Change → bool) (chgs : list Change)
    (chgInfos : list changeInfo) : list changeInfo :=
  match chgs with
  | [] => chgInfos
  | chg :: chgs' =>
      if negb (filter chg) then getChanges_loop filter chgs' chgInfos
      else getChanges_loop filter chgs' (chgInfos ++ [change2changeInfo chg])
  end.

Definition getChanges (c : Command) (r : Request) (user : option UserState)
  : M (answer (list changeInfo)) :=
  let query := URL_Query r in
  let qselect := Values_Get query "select" in
  let qselect := if bool_decide (qselect = "") then "in-progress" else qselect in
  let filter :=
    if bool_decide (qselect = "all") then Some filter_all
    else if bool_decide (qselect = "in-progress") then Some filter_in_progress
    else if bool_decide (qselect = "ready") then Some filter_ready
    else None in
  match filter with
  | None =>
      mret (Refused (BadRequest "select should be one of: all,in-progress,ready"))
  | Some filter =>
      let wantedName := Values_Get query "for" in
      let filter :=
        if bool_decide (wantedName ≠ "") then filter_for wantedName filter
        else filter in
      locked
        (st ← getState;
         let chgs := Changes st in
         mret (Sync (getChanges_loop filter chgs [])))
  end.

End changes.

(** The changes of a state in the order of their ids, and the snap names
    of a change read from its data. *)
Definition ref_Changes (st : State) : list Change :=
  (map_to_list (State_changes st)).*2.

Definition ref_Get_snap_names (chg : Change) : result string (list string) :=
  match index_string_map (Change_Data chg) "snap-names" with
  | VList l => refdaemon.strings_of l
  | _ => Err "no state entry for key"
  end.

(** A state with a change that is in progress for the snap ["foo"] and a
    change that is ready for the snap ["bar"]. *)
Definition two_changes : State :=
  {| State_changes :=
       {[ "1" := {| Change_ID := "1"; Change_Kind := "install-snap";
                    Change_Summary := "Install foo snap";
                    Change_status := DoStatus;
                    Change_Tasks :=
                      [ {| Task_ID := "1"; Task_Kind := "download-snap";
                           Task_Status := DoingStatus; Task_WaitTasks := [] |} ];
                    Change_Data :=
                      [("snap-names", VList [VString "foo"])] |};
          "2" := {| Change_ID := "2"; Change_Kind := "remove-snap";
                    Change_Summary := "Remove bar snap";
                    Change_status := DoStatus;
                    Change_Tasks :=
                      [ {| Task_ID := "2"; Task_Kind := "unlink-snap";
                           Task_Status := DoneStatus; Task_WaitTasks := [] |} ];
                    Change_Data :=
                      [("snap-names", VList [VString "bar"])] |} ]};
     State_lastID := 2;
     State_users := [] |}.

End daemon_changes.

(** ** [postCreateUser] ([api.go])

    The handler that creates a system user, with the two ways it has of
    finding the details of the user.  The store, the assertion database,
    the device state and [osutil.AddUser] are collaborators, taken as they
    come; what is recorded of a run is the calls made on them. *)
Module daemon_users.
Import state daemon daemon_changes.

(** What [store.UserInfo] answers with. *)
Record UserInfo : Type := {
  UserInfo_Username : string;
  UserInfo_SSHKeys : list string;
  UserInfo_OpenIDIdentifier : string;
}.

(** What the handler reads of a system-user assertion; [ValidAt_now] is
    [su.ValidAt(time.Now())]. *)
Record SystemUser : Type := {
  SystemUser_Series : list string;
  SystemUser_Models : list string;
  SystemUser_ValidAt_now : bool;
  SystemUser_Name : string;
  SystemUser_SSHKeys : list string;
  SystemUser_Password : string;
  SystemUser_Username : string;
}.

(** What the handler reads of the model assertion of the device. *)
Record ModelAs : Type := {
  ModelAs_BrandID : string;
  ModelAs_Series : string;
  ModelAs_Model : string;
}.

(** The fields of [osutil.AddUserOptions] that the handler sets. *)
Record AddUserOptions : Type := {
  AddUserOptions_Sudoer : bool;
  AddUserOptions_ExtraUsers : bool;
  AddUserOptions_SSHKeys : list string;
  AddUserOptions_Gecos : string;
  AddUserOptions_Password : string;
}.

Record createData : Type := {
  createData_Email : string;
  createData_Sudoer : bool;
  createData_Known : bool;
}.

Record createResponseData : Type := {
  createResponseData_Username : string;
  createResponseData_SSHKeys : list string;
  createResponseData_SSHKeyCount : nat;
}.

(** The errors of [getUserDetailsFromStore] and
    [getUserDetailsFromAssertion], by the place they are made at. *)
Inductive detailsError : Type :=
| ErrStoreUserInfo (email err : string)
| ErrNoSSHKeys (email : string)
| ErrModelAssertion (email err : string)
| ErrFind (email err : string)
| ErrNotInSeries (email series : string) (suSeries : list string)
| ErrNotInModels (email model : string) (suModels : list string)
| ErrNotValidAnymore (email : string).

Class UsersBackend {B : Backend} : Type := {
  postCreateUserUcrednetGetUID : string → result string Z;
  decodeCreateData : RequestBody → result string createData;
  storeUserInfo : string → result string UserInfo;
  devicestate_Model : State → result string ModelAs;
  db_Find : State → string → string → result string SystemUser;
      (* db.Find(asserts.SystemUserType, {brand-id, email}) *)
  osutilAddUser : string → AddUserOptions → option string;
  release_OnClassic : bool;
  Error : detailsError → string;              (* err.Error() *)
}.

(** The calls made on the collaborators. *)
Inductive Event : Type :=
| ELock
| EUnlock
| EStoreUserInfo (email : string)
| EDevicestateModel
| EFind (brandID email : string)
| EAddUser (username : string) (opts : AddUserOptions).

(** The handler monad: the record of the calls. *)
Definition T (A : Type) : Type := list Event → A * list Event.

#[global] Instance T_ret : MRet T := λ A a w, (a, w).
#[global] Instance T_bind : MBind T :=
  λ A B f m w, let '(a, w') := m w in f a w'.

Definition event (e : Event) : T unit := λ w, (tt, w ++ [e]).

Section users.
Context {B : Backend} {U : UsersBackend}.

Definition getUserDetailsFromStore (email : string)
  : T (result detailsError (string * AddUserOptions)) :=
  event (EStoreUserInfo email);;
  match storeUserInfo email with
  | Err err => mret (Err (ErrStoreUserInfo email err))
  | OK v =>
      if bool_decide (List.length (UserInfo_SSHKeys v) = 0%nat) then
        mret (Err (ErrNoSSHKeys email))
      else
        let gecos := email +:+ "," +:+ UserInfo_OpenIDIdentifier v in
        let opts := {| AddUserOptions_SSHKeys := UserInfo_SSHKeys v;
                       AddUserOptions_Gecos := gecos;
                       AddUserOptions_Sudoer := false;
                       AddUserOptions_ExtraUsers := false;
                       AddUserOptions_Password := "" |} in
        mret (OK (UserInfo_Username v, opts))
  end.

(** The closure [contains] of [getUserDetailsFromAssertion]. *)
Fixpoint contains_ (needle : string) (haystack : list string) : bool :=
  match haystack with
  | [] => false
  | s :: haystack' =>
      if bool_decide (needle = s) then true else contains_ needle haystack'
  end.

Definition getUserDetailsFromAssertion (st : State) (email : string)
  : T (result detailsError (string * AddUserOptions)) :=
  event ELock;;
  event EDevicestateModel;;
  event EUnlock;;
  match devicestate_Model st with
  | Err err => mret (Err (ErrModelAssertion email err))
  | OK modelAs =>
      let brandID := ModelAs_BrandID modelAs in
      let series := ModelAs_Series modelAs in
      let model := ModelAs_Model modelAs in
      event (EFind brandID email);;
      match db_Find st brandID email with
      | Err err => mret (Err (ErrFind email err))
      | OK su =>
          if bool_decide (0 < List.length (SystemUser_Series su))%nat
             && negb (contains_ series (SystemUser_Series su)) then
            mret (Err (ErrNotInSeries email series (SystemUser_Series su)))
          else if bool_decide (0 < List.length (SystemUser_Models su))%nat
                  && negb (contains_ model (SystemUser_Models su)) then
            mret (Err (ErrNotInModels email model (SystemUser_Models su)))
          else if negb (SystemUser_ValidAt_now su) then
            mret (Err (ErrNotValidAnymore email))
          else
            let gecos := email +:+ "," +:+ SystemUser_Name su in
            let opts := {| AddUserOptions_SSHKeys := SystemUser_SSHKeys su;
                           AddUserOptions_Gecos := gecos;
                           AddUserOptions_Password := SystemUser_Password su;
                           AddUserOptions_Sudoer := false;
                           AddUserOptions_ExtraUsers := false |} in
            mret (OK (SystemUser_Username su, opts))
      end
  end.

(** [remoteAddr] is [r.RemoteAddr] and [st] the state of the overlord. *)
Definition postCreateUser (c : Command) (r : Request) (remoteAddr : string)
    (user : option UserState) (st : State) : T (answer createResponseData) :=
  match postCreateUserUcrednetGetUID remoteAddr with
  | Err err => mret (Refused (BadRequest ("cannot get ucrednet uid: " +:+ err)))
  | OK uid =>
      if bool_decide (uid ≠ 0%Z) then
        mret (Refused (BadRequest "cannot use create-user as non-root"))
      else
        match decodeCreateData (Body r) with
        | Err err =>
            mret (Refused
                    (BadRequest
                       ("cannot decode create-user data from request body: "
                        +:+ err)))
        | OK createData =>
            if bool_decide (createData_Email createData = "") then
              mret (Refused
                      (BadRequest "cannot create user: 'email' field is empty"))
            else
              details ← (if createData_Known createData
                         then getUserDetailsFromAssertion st
                                (createData_Email createData)
                         else getUserDetailsFromStore
                                (createData_Email createData));
              match details with
              | Err err => mret (Refused (BadRequest (Error err)))
              | OK (username, opts) =>
                  let opts :=
                    {| AddUserOptions_Sudoer := createData_Sudoer createData;
                       AddUserOptions_ExtraUsers := negb release_OnClassic;
                       AddUserOptions_SSHKeys := AddUserOptions_SSHKeys opts;
                       AddUserOptions_Gecos := AddUserOptions_Gecos opts;
                       AddUserOptions_Password := AddUserOptions_Password opts
                    |} in
                  event (EAddUser username opts);;
                  match osutilAddUser username opts with
                  | Some err =>
                      mret (Refused
                              (BadRequest
                                 ("cannot create user " +:+ username +:+ ": "
                                  +:+ err)))
                  | None =>
                      mret (Sync
                              {| createResponseData_Username := username;
                                 createResponseData_SSHKeys :=
                                   AddUserOptions_SSHKeys opts;
                                 createResponseData_SSHKeyCount :=
                                   List.length (AddUserOptions_SSHKeys opts) |})
                  end
              end
        end
  end.

End users.

(** A backend to run the handler on: the peer is root, the store knows
    one user with one key, and the device has no model assertion. *)
Definition ref_decodeCreateData (body : value) : result string createData :=
  refdaemon.rbind (refdaemon.object body) (λ m,
  refdaemon.rbind (refdaemon.field_string m "email") (λ email,
  refdaemon.rbind (refdaemon.field_bool m "sudoer") (λ sudoer,
  refdaemon.rbind (refdaemon.field_bool m "known") (λ known,
  OK {| createData_Email := email; createData_Sudoer := sudoer;
        createData_Known := known |})))).

Definition ref_users : UsersBackend (B := refdaemon.backend false) :=
  @Build_UsersBackend (refdaemon.backend false)
    (λ _, OK 0%Z)
    ref_decodeCreateData
    (λ email,
       OK {| UserInfo_Username := "user"; UserInfo_SSHKeys := ["ssh-rsa AAAA"];
             UserInfo_OpenIDIdentifier := "xxyyzz" |})
    (λ _, Err "no state entry for key")
    (λ _ _ _, Err "assertion not found")
    (λ _ _, None)
    false
    (λ _, "cannot create user").

Definition create_body : value :=
  VMapS [("email", VString "user@example.com"); ("sudoer", VBool true)].

End daemon_users.

(** ** [postSnaps], [trySnap] and [isTrue] ([api.go])

    The handler of a POST on the snaps: a JSON body is a multi-snap
    operation, a multipart form is a snap file to install, or a directory
    to try.  The parsing of the form, the temporary file, the assertions
    and the snap file are collaborators, taken as they come; what is
    recorded of a run, besides the calls on the state, is the calls that
    read the form and remove its files, that make and fill the temporary
    file, that derive the side info and that read a snap without checking
    it. *)
Module daemon_sideload.
Import state daemon.

(** [strconv.ParseBool]. *)
Definition ParseBool (str : string) : option bool :=
  if bool_decide (str ∈ ["1"; "t"; "T"; "TRUE"; "true"; "True"]) then Some true
  else if bool_decide (str ∈ ["0"; "f"; "F"; "FALSE"; "false"; "False"])
  then Some false
  else None.

(** What the handler reads of a [multipart.FileHeader]: its file name, and
    the error of [Open] when it fails. *)
Record FileHeader : Type := {
  Filename : string;
  Open_err : option string;
}.

(** A [multipart.Form]. *)
Record Form : Type := {
  Form_Value : gmap string (list string);
  Form_File : gmap string (list FileHeader);
}.

(** [form.Value[key]], the [nil] slice when there is none. *)
Definition Value_at (form : Form) (key : string) : list string :=
  default [] (Form_Value form !! key).

Definition isTrue (form : Form) (key : string) : bool :=
  let value := Value_at form key in
  match value with
  | [] => false
  | value_0 :: _ =>
      match ParseBool value_0 with
      | None => false
      | Some b => b
      end
  end.

(** The three outcomes of [snapasserts.DeriveSideInfo] that the handler
    tells apart. *)
Inductive deriveResult (SideInfo : Type) : Type :=
| DeriveOK (si : SideInfo)
| DeriveErrNotFound
| DeriveErrOther (err : string).
Arguments DeriveOK {_} _.
Arguments DeriveErrNotFound {_}.
Arguments DeriveErrOther {_} _.

Class SideloadBackend {B : Backend} : Type := {
  SideInfo : Type;                                        (* snap.SideInfo *)
  RealName : SideInfo → string;
  SideInfo_of_RealName : string → SideInfo; (* &snap.SideInfo{RealName: ..} *)
  mime_ParseMediaType : string → result string (list (string * string));
  (* what multipart.NewReader(body, boundary).ReadForm(maxReadBuflen)
     returns; the call itself is recorded as [EReadForm] *)
  ReadForm : RequestBody → string → result string Form;
  ioutil_TempFile : result string string;      (* the name of the file *)
  io_Copy : string → FileHeader → option string;
  snapasserts_DeriveSideInfo : string → State → deriveResult SideInfo;
  unsafeReadSnapInfo : string → result string string;     (* info.Name() *)
  snapstateInstallPath :
    State → SideInfo → string → string → Z → result string TaskSet;
  snapstateTryPath : State → string → string → Z → result string TaskSet;
  filepath_IsAbs : string → bool;
  osutil_IsDirectory : string → bool;
}.

(** The calls made on the collaborators.  [EReadForm] is the call of
    [ReadForm] on the multipart reader, which keeps up to [maxReadBuflen]
    bytes of the file parts in memory and writes the rest of them to
    temporary files of its own; [EFormRemoveAll] is [form.RemoveAll()],
    which removes those files. *)
Inductive Event : Type :=
| EReadForm
| EFormRemoveAll
| ETempFile
| ECopy (tempPath : string)
| ERemove (tempPath : string)
| EDeriveSideInfo (tempPath : string)
| EUnsafeReadSnapInfo (snapPath : string).

(** The world of a run: that of the handlers on the state, and the calls on
    the collaborators. *)
Record World2 : Type := {
  World2_world : World;
  World2_events : list Event;
}.

Definition H (A : Type) : Type := World2 → A * World2.

#[global] Instance H_ret : MRet H := λ A a w, (a, w).
#[global] Instance H_bind : MBind H :=
  λ A B f m w, let '(a, w') := m w in f a w'.

(** A step of a handler on the state. *)
Definition lift {A} (m : M A) : H A :=
  λ w, let '(a, w') := m (World2_world w) in
       (a, {| World2_world := w'; World2_events := World2_events w |}).

Definition event (e : Event) : H unit :=
  λ w, (tt, {| World2_world := World2_world w;
               World2_events := World2_events w ++ [e] |}).

(** [st.Lock(); defer st.Unlock()] around the rest of a handler. *)
Definition locked2 {A} (body : H A) : H A :=
  lift (call CLock);; a ← body; lift (call CUnlock);; mret a.

(** [defer form.RemoveAll()] before the rest of a handler: the files of
    the form are removed when the handler returns. *)
Definition defer_RemoveAll {A} (body : H A) : H A :=
  a ← body; event EFormRemoveAll;; mret a.

(** Run a handler from a state, with nothing recorded yet. *)
Definition run2 {A} (m : H A) (st : State) : A * World2 :=
  m {| World2_world := untouched st; World2_events := [] |}.

(** The world a handler leaves when it has touched nothing. *)
Definition untouched2 (st : State) : World2 :=
  {| World2_world := untouched st; World2_events := [] |}.

(** The word [snap] between double quotes. *)
Definition quoted_snap : string :=
  String "034"%char ("snap" +:+ String "034"%char "").

Section sideload.
Context {B : Backend} {S : SideloadBackend}.

(** [chg.Set("api-data", map[string]string{"snap-name": name})]. *)
Definition set_api_data (chg : string) (snapName : string) : M unit :=
  Change_update chg
    (λ c, Change_Set c "api-data" (VMapS [("snap-name", VString snapName)])).

Definition trySnap (c : Command) (r : Request) (user : option UserState)
    (trydir : string) (flags : Z) : H Response :=
  locked2
    (if negb (filepath_IsAbs trydir) then
       mret (BadRequest ("cannot try " +:+ strconv_Quote trydir
                         +:+ ": need an absolute path"))
     else if negb (osutil_IsDirectory trydir) then
       mret (BadRequest ("cannot try " +:+ strconv_Quote trydir
                         +:+ ": not a snap directory"))
     else
       event (EUnsafeReadSnapInfo trydir);;
       match unsafeReadSnapInfo trydir with
       | Err err =>
           mret (BadRequest ("cannot read snap info for " +:+ trydir +:+ ": "
                             +:+ err))
       | OK name =>
           st ← lift getState;
           lift (call (CBuildTaskSet "TryPath" [name]));;
           match snapstateTryPath st name trydir flags with
           | Err err =>
               mret (BadRequest ("cannot try " +:+ trydir +:+ ": " +:+ err))
           | OK tsets =>
               let msg := "Try " +:+ strconv_Quote name +:+ " snap from "
                          +:+ strconv_Quote trydir in
               chg ← lift (newChange "try-snap" msg [tsets] [name]);
               lift (set_api_data chg name);;
               lift ensureStateSoon;;
               mret (AsyncResponse RNil (Some {| Meta_Change := chg |}))
           end
       end).

(** The first half of the choice of the side info in [postSnaps]: the
    side info from the assertions, [nil] when those are not looked at or
    need not be there; or the response to return. *)
Definition deriveSideInfo (st : State) (dangerousOK devmode : bool)
    (tempPath origPath : string) : H (result Response (option SideInfo)) :=
  if negb dangerousOK then
    event (EDeriveSideInfo tempPath);;
    match snapasserts_DeriveSideInfo tempPath st with
    | DeriveOK si => mret (OK (Some si))
    | DeriveErrNotFound =>
        if negb devmode then
          let msg := "cannot find signatures with metadata for snap" in
          let msg := if bool_decide (origPath ≠ "")
                     then msg +:+ " " +:+ strconv_Quote origPath
                     else msg in
          mret (Err (BadRequest msg))
        else mret (OK None)
    | DeriveErrOther err => mret (Err (BadRequest err))
    end
  else mret (OK None).

(** The second half: where the name of the snap is still empty, the name
    is read from the snap file itself, and the side info is that name. *)
Definition nameSideInfo (sideInfo : option SideInfo) (tempPath : string)
  : H (result Response (string * SideInfo)) :=
  let snapName := match sideInfo with
                  | Some si => RealName si
                  | None => ""
                  end in
  match bool_decide (snapName = ""), sideInfo with
  | false, Some si => mret (OK (snapName, si))
  | _, _ =>
      event (EUnsafeReadSnapInfo tempPath);;
      match unsafeReadSnapInfo tempPath with
      | Err err => mret (Err (InternalError ("cannot read snap file: " +:+ err)))
      | OK name => mret (OK (name, SideInfo_of_RealName name))
      end
  end.

(** The end of [postSnaps], from the state lock on: [tempPath] holds the
    uploaded snap. *)
Definition installFile (user : option UserState) (dangerousOK devmode : bool)
    (flags : Z) (tempPath origPath : string) : H Response :=
  locked2
    (st ← lift getState;
     derived ← deriveSideInfo st dangerousOK devmode tempPath origPath;
     match derived with
     | Err rsp => mret rsp
     | OK sideInfo =>
         named ← nameSideInfo sideInfo tempPath;
         match named with
         | Err rsp => mret rsp
         | OK (snapName, sideInfo) =>
             let msg :=
               if bool_decide (origPath ≠ "")
               then "Install " +:+ strconv_Quote snapName
                    +:+ " snap from file " +:+ strconv_Quote origPath
               else "Install " +:+ strconv_Quote snapName
                    +:+ " snap from file" in
             let userID := match user with
                           | Some user => ID user
                           | None => 0%Z
                           end in
             tsets ← lift (withEnsureUbuntuCore snapName userID
                             (st ← getState;
                              call (CBuildTaskSet "InstallPath" [snapName]);;
                              mret (snapstateInstallPath st sideInfo tempPath ""
                                      flags)));
             match tsets with
             | Err err =>
                 mret (InternalError ("cannot install snap file: " +:+ err))
             | OK tsets =>
                 chg ← lift (newChange "install-snap" msg tsets [snapName]);
                 lift (set_api_data chg snapName);;
                 lift ensureStateSoon;;
                 mret (AsyncResponse RNil (Some {| Meta_Change := chg |}))
             end
         end
     end).

(** [contentType] is [r.Header.Get("Content-Type")]. *)
Definition postSnaps (c : Command) (r : Request) (contentType : string)
    (user : option UserState) : H Response :=
  if bool_decide (contentType = "application/json") then
    lift (snapsOp c r user)
  else if negb (String.prefix "multipart/" contentType) then
    mret (BadRequest ("unknown content type: " +:+ contentType))
  else if negb (router_Get (d c) stateChangeCmd_Path) then
    mret (InternalError "cannot find route for change")
  else
    match mime_ParseMediaType contentType with
    | Err err => mret (BadRequest ("cannot parse POST body: " +:+ err))
    | OK params =>
        event EReadForm;;
        match ReadForm (Body r) (Vars_at params "boundary") with
        | Err err => mret (BadRequest ("cannot read POST form: " +:+ err))
        | OK form =>
            let dangerousOK := isTrue form "dangerous" in
            let devmode := isTrue form "devmode" in
            match modeFlags devmode (isTrue form "jailmode") with
            | Err err => mret (BadRequest err)
            | OK flags =>
                if match Value_at form "action" with
                   | action_0 :: _ => bool_decide (action_0 = "try")
                   | [] => false
                   end
                then
                  match Value_at form "snap-path" with
                  | [] => mret (BadRequest "need 'snap-path' value in form")
                  | snap_path_0 :: _ => trySnap c r user snap_path_0 flags
                  end
                else
                  (* the entry of [form.File] for "snap", and the first of
                     its headers; the removal of the files of the form is
                     deferred once the loop is left without an error *)
                  match Form_File form !! "snap" with
                  | Some (fheader :: _) =>
                      match Open_err fheader with
                      | Some err =>
                          mret (BadRequest
                                  ("cannot open uploaded " +:+ quoted_snap
                                   +:+ " file: " +:+ err))
                      | None =>
                          let origPath := Filename fheader in
                          defer_RemoveAll
                            (event ETempFile;;
                             match ioutil_TempFile with
                             | Err err =>
                                 mret (InternalError
                                         ("cannot create temporary file: "
                                          +:+ err))
                             | OK tempPath =>
                                 event (ECopy tempPath);;
                                 match io_Copy tempPath fheader with
                                 | Some err =>
                                     event (ERemove tempPath);;
                                     mret (InternalError
                                             ("cannot copy request into temporary file: "
                                              +:+ err))
                                 | None =>
                                     let origPath :=
                                       match Value_at form "snap-path" with
                                       | snap_path_0 :: _ => snap_path_0
                                       | [] => origPath
                                       end in
                                     installFile user dangerousOK devmode flags
                                       tempPath origPath
                                 end
                             end)
                      end
                  | _ =>
                      defer_RemoveAll
                        (mret (BadRequest
                                 ("cannot find " +:+ quoted_snap
                                  +:+ " file field in provided multipart/form-data payload")))
                  end
            end
        end
    end.

End sideload.

(** A backend to run the handler on: the body of the request is the form
    it holds; the uploaded snap is named ["foo"] by the assertions when a
    file of its name was uploaded with assertions, which the file name
    says, and by the snap file itself in any case. *)
Definition ref_ReadForm (body : value) (boundary : string) : result string Form :=
  match body with
  | VMapS fields =>
      OK {| Form_Value :=
              list_to_map
                (omap (λ kv, match kv.2 with
                             | VString v => Some (kv.1, [v])
                             | _ => None
                             end) fields);
            Form_File :=
              list_to_map
                (omap (λ kv, match kv.2 with
                             | VList [VString name] =>
                                 Some (kv.1, [{| Filename := name;
                                                 Open_err := None |}])
                             | _ => None
                             end) fields) |}
  | _ => Err "multipart: NextPart: EOF"
  end.

Definition ref_sideload (asserted : bool)
  : SideloadBackend (B := refdaemon.backend false) :=
  @Build_SideloadBackend (refdaemon.backend false)
    string
    (λ si, si)
    (λ name, name)
    (λ contentType, OK [("boundary", "xyz")])
    ref_ReadForm
    (OK "/tmp/snapd-sideload-pkg-1")
    (λ _ _, None)
    (λ _ _, if asserted then DeriveOK "foo" else DeriveErrNotFound)
    (λ _, OK "foo")
    (λ _ si _ _ _, OK (refdaemon.one_task "install" si))
    (λ _ name _ _, OK (refdaemon.one_task "try" name))
    (λ trydir, String.prefix "/" trydir)
    (λ _, true).

(** The form that a body holds, the empty form when it holds none. *)
Definition form_of (body : value) : Form :=
  match ref_ReadForm body "" with
  | OK form => form
  | Err _ => {| Form_Value := ∅; Form_File := ∅ |}
  end.

(** Forms: a snap file alone; with [dangerous]; with [devmode] and
    [jailmode]. *)
Definition form_snap : value := VMapS [("snap", VList [VString "foo.snap"])].
Definition form_dangerous : value :=
  VMapS [("snap", VList [VString "foo.snap"]); ("dangerous", VString "true")].
Definition form_both_modes : value :=
  VMapS [("snap", VList [VString "foo.snap"]); ("devmode", VString "true");
         ("jailmode", VString "true")].

End daemon_sideload.

(** * Properties *)

(** The induction principle of [value] with the hypotheses for the nested
    lists. *)
Lemma value_ind' (P : value → Prop)
    (Hnil : P VNil)
    (Hstr : ∀ s, P (VString s))
    (Hbool : ∀ b, P (VBool b))
    (Hint : ∀ n, P (VInt n))
    (Hlist : ∀ l, Forall P l → P (VList l))
    (Hmaps : ∀ m, Forall (λ kv, P kv.2) m → P (VMapS m))
    (Hmapi : ∀ m, Forall (λ kv, P kv.1 ∧ P kv.2) m → P (VMapI m))
    (Hother : ∀ d, P (VOther d)) :
  ∀ v, P v.
Proof.
  fix IH 1. intros [| s | b | n | l | m | m | d].
  - exact Hnil.
  - apply Hstr.
  - apply Hbool.
  - apply Hint.
  - apply Hlist. induction l as [| x l IHl]; constructor; [apply IH | exact IHl].
  - apply Hmaps. induction m as [| [k x] m IHm]; constructor;
      [apply IH | exact IHm].
  - apply Hmapi. induction m as [| [k x] m IHm]; constructor;
      [split; apply IH | exact IHm].
  - apply Hother.
Qed.

Module asserts_facts.
Import asserts regexp.

Section attr_matcher_facts.
Context {L : regexp.Lib}.

Lemma matchList_from_None context f l : ∀ i,
  matchList_from context f i l = None ↔
  ∀ j elem, l !! j = Some elem →
    f (chain context (strconv.Itoa (Z.of_nat (i + j)))) elem = None.
Proof.
  induction l as [| x l IHl]; intros i; simpl.
  - split; [intros _ j elem Hj; discriminate | done].
  - destruct (f (chain context (strconv.Itoa (Z.of_nat i))) x) eqn:Hx.
    + split; [done |]. intros Hall.
      specialize (Hall 0%nat x eq_refl). rewrite Nat.add_0_r in Hall. congruence.
    + rewrite IHl. split.
      * intros Hall [| j] elem Hj; simpl in Hj.
        -- injection Hj as <-. by rewrite Nat.add_0_r.
        -- replace (i + S j)%nat with (S i + j)%nat by lia. by apply Hall.
      * intros Hall j elem Hj.
        replace (S i + j)%nat with (i + S j)%nat by lia. by apply Hall.
Qed.

Lemma regexp_scalar_None rx context s :
  (if negb (MatchString rx s) then Some (ErrNoMatch context s rx) else None)
    = None ↔ MatchString rx s = true.
Proof. destruct (MatchString rx s); simpl; split; congruence. Qed.

(** Whether a regexp leaf takes a value does not depend on the path the
    value is found at. *)
Lemma regexpAttrMatcher_match_context rx v : ∀ context context',
  regexpAttrMatcher_match rx context v = None →
  regexpAttrMatcher_match rx context' v = None.
Proof.
  induction v as [| s | b | n | l IHl | m _ | m _ | d] using value_ind';
    intros context context'; simpl; try done.
  - rewrite !regexp_scalar_None. done.
  - rewrite !regexp_scalar_None. done.
  - rewrite !regexp_scalar_None. done.
  - unfold matchList. rewrite !matchList_from_None. intros Hall j elem Hj.
    rewrite Forall_forall in IHl.
    eapply IHl; [by eapply list_elem_of_lookup_2 | by eapply Hall].
Qed.

(** C3. The leaf compiled from the constraint string [s] holds the regular
    expression compiled from [^s$]; it accepts a string, a boolean or an
    integer iff that expression matches the string itself, ["true"] or
    ["false"], or the decimal rendering; it accepts a list iff it accepts
    every element; on any other kind of value it reports that the attribute
    must be a scalar or list. *)
Theorem regexp_leaf_matches_anchored (cc : compileContext) (s : string)
    (m : attrMatcher) :
  compileRegexpAttrMatcher cc s = OK m →
  ∃ rx, Compile ("^" +:+ s +:+ "$") = OK rx ∧
    ∀ context,
      (∀ x, attrMatcher_match m context (VString x) = None
            ↔ MatchString rx x = true) ∧
      (∀ b, attrMatcher_match m context (VBool b) = None
            ↔ MatchString rx (if b then "true" else "false") = true) ∧
      (∀ n, attrMatcher_match m context (VInt n) = None
            ↔ MatchString rx (strconv.Itoa n) = true) ∧
      (∀ l, attrMatcher_match m context (VList l) = None
            ↔ Forall (λ elem, ∀ context',
                        attrMatcher_match m context' elem = None) l) ∧
      (∀ v, scalar_or_list v = false →
            attrMatcher_match m context v = Some (ErrNotScalar context)).
Proof.
  unfold compileRegexpAttrMatcher.
  destruct (Compile ("^" +:+ s +:+ "$")) as [rx | err] eqn:Hrx; [| done].
  intros [= <-]. exists rx. split; [done |].
  intros context. simpl. repeat split.
  - by apply regexp_scalar_None.
  - by apply regexp_scalar_None.
  - by destruct b; apply regexp_scalar_None.
  - by destruct b; apply regexp_scalar_None.
  - by apply regexp_scalar_None.
  - by apply regexp_scalar_None.
  - unfold matchList. rewrite matchList_from_None, Forall_forall.
    intros Hall elem [j Hj]%list_elem_of_lookup_1 context'.
    eapply regexpAttrMatcher_match_context, Hall, Hj.
  - unfold matchList. rewrite matchList_from_None, Forall_forall.
    intros Hall j elem Hj. by eapply Hall, list_elem_of_lookup_2.
  - by intros [] Hv.
Qed.

Lemma compileAltAttrMatcher_loop_Err compile cc l v :
  v ∈ l → (∀ j, is_OK (compile (alt cc j) v) = false) →
  ∀ i alts, is_OK (compileAltAttrMatcher_loop compile cc i l alts) = false.
Proof.
  intros Hv Hfail. induction Hv as [v l | v x l Hv IH]; intros i alts; simpl.
  - specialize (Hfail i). by destruct (compile (alt cc i) v).
  - destruct (compile (alt cc i) x); [by apply IH | done].
Qed.

Lemma compileMapAttrMatcher_loop_Err compile cc m k v :
  (k, v) ∈ m → is_OK (compile (keyEntry cc k) v) = false →
  ∀ matcher, is_OK (compileMapAttrMatcher_loop compile cc m matcher) = false.
Proof.
  intros Hv Hfail.
  remember (k, v) as kv eqn:Hkv.
  induction Hv as [kv m | kv [k' x] m Hv IH]; intros matcher; simpl; subst kv.
  - by destruct (compile (keyEntry cc k) v).
  - destruct (compile (keyEntry cc k') x); [by apply IH | done].
Qed.

Lemma compileAltAttrMatcher_loop_OK compile cc l : ∀ ms i alts,
  List.length ms = List.length l →
  (∀ j c m, l !! j = Some c → ms !! j = Some m →
     compile (alt cc (i + j)) c = OK m) →
  compileAltAttrMatcher_loop compile cc i l alts = OK (altAttrMatcher (alts ++ ms)).
Proof.
  induction l as [| c l IHl]; intros [| m ms] i alts Hlen Hall; simplify_eq/=.
  - by rewrite app_nil_r.
  - pose proof (Hall 0%nat c m eq_refl eq_refl) as Hc0.
    rewrite Nat.add_0_r in Hc0. rewrite Hc0.
    rewrite (IHl ms (S i) (alts ++ [m])); [by rewrite <-app_assoc | done |].
    intros j c' m' Hc Hm.
    replace (S i + j)%nat with (i + S j)%nat by lia. by apply Hall.
Qed.

Lemma nested_alternatives_not_compiled constraints :
  nested_alternatives constraints →
  ∀ cc, is_OK (compileAttrMatcher cc constraints) = false.
Proof.
  induction 1 as [l l' Hin | l v Hin _ IH | m k v Hin _ IH | m k v Hin _];
    intros cc; simpl; try done.
  - destruct (wasAlt cc); [done |].
    by apply (compileAltAttrMatcher_loop_Err _ _ _ (VList l')).
  - destruct (wasAlt cc); [done |].
    by apply (compileAltAttrMatcher_loop_Err _ _ _ v).
  - by apply (compileMapAttrMatcher_loop_Err _ _ _ k v).
Qed.

Lemma first_level_regexp_not_compiled constraints :
  first_level_regexp constraints →
  ∀ cc, hadMap cc = false → is_OK (compileAttrMatcher cc constraints) = false.
Proof.
  induction 1 as [s | l v Hin _ IH]; intros cc Hcc; simpl.
  - by rewrite Hcc.
  - destruct (wasAlt cc); [done |].
    apply (compileAltAttrMatcher_loop_Err _ _ _ v); [done |].
    intros j. by apply IH.
Qed.

Lemma compileAttributeConstraints_Err constraints :
  is_OK (compileAttrMatcher compileContext_zero constraints) = false →
  ∃ err, compileAttributeConstraints constraints = Err err.
Proof.
  unfold compileAttributeConstraints.
  destruct (compileAttrMatcher _ _) as [m | err]; [done | by exists err].
Qed.

(** C2. Compiling a constraint tree returns an error, and so no matcher,
    when a list of alternatives appears directly inside a list of
    alternatives, and when the first level that is not a list of
    alternatives is a bare regexp string; a list of alternatives at the very
    top is taken: when each alternative compiles in its place, the result is
    the matcher of the alternatives. *)
Theorem compile_rejects_nesting_and_bare_regexp (constraints : value) :
  (nested_alternatives constraints →
     ∃ err, compileAttributeConstraints constraints = Err err) ∧
  (first_level_regexp constraints →
     ∃ err, compileAttributeConstraints constraints = Err err) ∧
  (∀ l alts, constraints = VList l →
     List.length alts = List.length l →
     (∀ i c m, l !! i = Some c → alts !! i = Some m →
        compileAttrMatcher (alt compileContext_zero i) c = OK m) →
     compileAttributeConstraints constraints
       = OK {| matcher := altAttrMatcher alts |}).
Proof.
  split; [| split].
  - intros Hnested.
    by apply compileAttributeConstraints_Err, nested_alternatives_not_compiled.
  - intros Hfirst.
    by apply compileAttributeConstraints_Err, first_level_regexp_not_compiled.
  - intros l alts -> Hlen Hall. unfold compileAttributeConstraints. simpl.
    by rewrite (compileAltAttrMatcher_loop_OK _ _ l alts 0 []).
Qed.

Lemma Permutation_pair {A} (a b : A) (l : list A) :
  l ≡ₚ [a; b] → l = [a; b] ∨ l = [b; a].
Proof.
  intros Hl. symmetry in Hl. by apply Permutation_length_2_inv in Hl.
Qed.

(** C1. With a regexp engine in which [^usb$] matches ["usb"] and not
    ["pci"] and [^full$] matches ["full"], the constraints
    [{"bus":"usb","speed":["high","full"]}] compile, in whichever order the
    two entries are visited, and whichever order the compiled map is
    iterated in, [Check] returns no error on [{"bus":"usb","speed":"full"}]
    and on [{"bus":"pci","speed":"full"}] returns the error that attribute
    ["bus"] with value ["pci"] does not match. *)
Theorem check_usb_speed_scenario (rx_usb rx_high rx_full : Regexp) :
  Compile "^usb$" = OK rx_usb →
  Compile "^high$" = OK rx_high →
  Compile "^full$" = OK rx_full →
  MatchString rx_usb "usb" = true →
  MatchString rx_usb "pci" = false →
  MatchString rx_full "full" = true →
  ∀ constraints, constraints ≡ₚ refasserts.usb_constraints →
  ∃ m,
    compileAttributeConstraints (VMapS constraints)
      = OK {| matcher := mapAttrMatcher m |} ∧
    ∀ m', m' ≡ₚ m →
      asserts.Check {| matcher := mapAttrMatcher m' |} refasserts.usb_full = None ∧
      asserts.Check {| matcher := mapAttrMatcher m' |} refasserts.pci_full
        = Some (ErrNoMatch "bus" "pci" rx_usb) ∧
      matchError_context (ErrNoMatch "bus" "pci" rx_usb) = "bus".
Proof.
  intros Husb Hhigh Hfull Musb Mpci Mfull constraints Hperm.
  change "^usb$" with ("^" +:+ "usb" +:+ "$") in Husb.
  change "^high$" with ("^" +:+ "high" +:+ "$") in Hhigh.
  change "^full$" with ("^" +:+ "full" +:+ "$") in Hfull.
  assert (∀ m', m' ≡ₚ [("bus", regexpAttrMatcher rx_usb);
                        ("speed", altAttrMatcher [regexpAttrMatcher rx_high;
                                                  regexpAttrMatcher rx_full])] →
            asserts.Check {| matcher := mapAttrMatcher m' |} refasserts.usb_full = None ∧
            asserts.Check {| matcher := mapAttrMatcher m' |} refasserts.pci_full
              = Some (ErrNoMatch "bus" "pci" rx_usb) ∧
            matchError_context (ErrNoMatch "bus" "pci" rx_usb) = "bus") as Hcheck.
  { intros m' [-> | ->]%Permutation_pair; unfold Check; simpl;
      rewrite ?Musb, ?Mpci, ?Mfull; simpl;
      destruct (MatchString rx_high "full"); simpl;
      rewrite ?Musb, ?Mpci, ?Mfull; done. }
  apply Permutation_pair in Hperm as [-> | ->].
  - eexists. split; [| apply Hcheck].
    unfold compileAttributeConstraints. simpl.
    unfold compileRegexpAttrMatcher. simpl.
    rewrite Husb, Hhigh, Hfull. reflexivity.
  - eexists. split.
    + unfold compileAttributeConstraints. simpl.
      unfold compileRegexpAttrMatcher. simpl.
      rewrite Husb, Hhigh, Hfull. reflexivity.
    + intros m' Hm'. apply Hcheck. rewrite Hm'. apply perm_swap.
Qed.

End attr_matcher_facts.

(** The three properties on the reference engine. *)
#[local] Existing Instance refregexp.lib.

Lemma regexp_leaf_matches_anchored_witness :
  ∃ m,
    compileRegexpAttrMatcher (keyEntry compileContext_zero "bus") "usb" = OK m ∧
    attrMatcher_match m "bus" (VString "usb") = None ∧
    attrMatcher_match m "bus" (VList [VString "usb"; VString "usb"]) = None.
Proof.
  eexists. split; [reflexivity |].
  edestruct (regexp_leaf_matches_anchored
               (keyEntry compileContext_zero "bus") "usb")
    as (rx & Hrx & Hmatch); [reflexivity |].
  injection Hrx as <-.
  split.
  - apply (Hmatch "bus"). reflexivity.
  - apply (Hmatch "bus").
    repeat constructor; intros context'; apply (Hmatch context'); reflexivity.
Defined.

Lemma compile_rejects_nesting_and_bare_regexp_witness :
  (∃ err, compileAttributeConstraints (VList [VList []]) = Err err) ∧
  (∃ err, compileAttributeConstraints (VList [VString "usb"]) = Err err) ∧
  (∃ m, compileAttributeConstraints (VList [VMapS [("bus", VString "usb")]])
        = OK {| matcher := altAttrMatcher [m] |}).
Proof.
  split; [| split].
  - apply (proj1 (compile_rejects_nesting_and_bare_regexp _)).
    apply (nested_here _ []). left.
  - apply (proj1 (proj2 (compile_rejects_nesting_and_bare_regexp _))).
    apply (first_level_alternative _ (VString "usb")); [left | constructor].
  - eexists.
    apply (proj2 (proj2 (compile_rejects_nesting_and_bare_regexp _))
             [VMapS [("bus", VString "usb")]]); [reflexivity | reflexivity |].
    intros [| i] c m Hc Hm; simplify_eq/=. reflexivity.
Defined.

Lemma check_usb_speed_scenario_witness :
  ∃ m,
    compileAttributeConstraints (VMapS refasserts.usb_constraints)
      = OK {| matcher := mapAttrMatcher m |} ∧
    ∀ m', m' ≡ₚ m →
      asserts.Check {| matcher := mapAttrMatcher m' |} refasserts.usb_full = None ∧
      ∃ rx, Check {| matcher := mapAttrMatcher m' |} refasserts.pci_full
              = Some (ErrNoMatch "bus" "pci" rx).
Proof.
  edestruct check_usb_speed_scenario as (m & Hm & Hcheck);
    [reflexivity | reflexivity | reflexivity | reflexivity | reflexivity
    | reflexivity | apply (Permutation_refl refasserts.usb_constraints) |].
  exists m. split; [exact Hm |].
  intros m' Hm'. destruct (Hcheck m' Hm') as (Hok & Hbad & _).
  split; [exact Hok | eexists; exact Hbad].
Defined.

Section device_asserts_facts.
Context {B : Base}.

(** C7. When the device key of the assertion decodes to [pubKey]:
    assembling a serial fails if the [device-key-sha3-384] header does not
    read as the key's own id, and assembling a serial-request fails if the
    key's own id is not the signing key id of the assertion.  A failure is
    an [Err]: no assertion is returned. *)
Theorem key_agreement_enforced (assert : assertionBase)
    (encodedKey : string) (pubKey : PublicKey) :
  checkNotEmptyString (headers assert) "device-key" = OK encodedKey →
  DecodePublicKey encodedKey = OK pubKey →
  (checkNotEmptyString (headers assert) "device-key-sha3-384"
     ≠ OK (PublicKey_ID pubKey) →
   ∃ err, assembleSerial assert = Err err) ∧
  (PublicKey_ID pubKey ≠ SignKeyID assert →
   ∃ err, assembleSerialRequest assert = Err err).
Proof.
  intros Hkey Hdecode. split.
  - intros Hid. unfold assembleSerial.
    destruct (checkAuthorityMatchesBrand assert) as [err |]; [by eexists |].
    rewrite Hkey. simpl. rewrite Hdecode. simpl.
    destruct (checkNotEmptyString (headers assert) "device-key-sha3-384")
      as [keyID | err]; simpl; [| by eexists].
    destruct (decide (keyID = PublicKey_ID pubKey)) as [-> | Hne];
      [by destruct Hid | rewrite bool_decide_true by done; by eexists].
  - intros Hid. unfold assembleSerialRequest.
    repeat match goal with
           | |- context [try ?r _] =>
               lazymatch r with
               | DecodePublicKey _ => fail
               | _ => destruct r as [? | ?] eqn:?; simpl; [| by eexists]
               end
           end.
    simplify_eq. rewrite Hdecode. simpl.
    rewrite bool_decide_true by done. by eexists.
Qed.

End device_asserts_facts.

Lemma key_agreement_enforced_witness :
  (∃ err, assembleSerial (B := refasserts.base)
            refasserts.serial_wrong_key_id = Err err) ∧
  (∃ err, assembleSerialRequest (B := refasserts.base)
            refasserts.serial_request_wrong_sign_key = Err err).
Proof.
  split.
  - apply (key_agreement_enforced (B := refasserts.base)
             refasserts.serial_wrong_key_id "KEY" "KEY");
      [reflexivity | reflexivity |].
    vm_compute. discriminate.
  - apply (key_agreement_enforced (B := refasserts.base)
             refasserts.serial_request_wrong_sign_key "KEY" "KEY");
      [reflexivity | reflexivity |].
    vm_compute. discriminate.
Defined.

End asserts_facts.

Module daemon_facts.
Import state daemon regexp.
#[local] Open Scope Z_scope.

Lemma append_assoc (s1 s2 s3 : string) : (s1 +:+ s2) +:+ s3 = s1 +:+ s2 +:+ s3.
Proof.
  induction s1 as [| a s1 IH]; [done |].
  change (String a ((s1 +:+ s2) +:+ s3) = String a (s1 +:+ s2 +:+ s3)).
  by rewrite IH.
Qed.

Lemma contains_append_l (p s sub : string) :
  contains s sub → contains (p +:+ s) sub.
Proof.
  intros (pre & post & ->). exists (p +:+ pre), post. by rewrite append_assoc.
Qed.

Lemma contains_append_r (s p sub : string) :
  contains s sub → contains (s +:+ p) sub.
Proof.
  intros (pre & post & ->). exists pre, (post +:+ p).
  by rewrite !append_assoc.
Qed.

(** The router that [addRoutes] sets up has the route of a change. *)
Lemma addRoutes_change_route enable :
  router_Get (addRoutes enable) stateChangeCmd_Path = true.
Proof. reflexivity. Qed.

(** Unfold the plumbing of the handler monad. *)
Ltac run_steps :=
  unfold run, locked, call, getState, putState, ensureStateSoon,
    mbind, M_bind, mret, M_ret, fmap, M_fmap;
  simpl.

Section handlers_facts.
Context {B : Backend} {L : regexp.Lib}.

(** C6. When the username of the decoded login data does not match the
    expression that [isEmailish_pattern] compiled to, [loginUser] answers
    with the error envelope of status 400 and kind ["invalid-auth-data"]; it
    has then made no call at all, so none to the store, and the state, with
    its user records, is as it was. *)
Theorem loginUser_rejects_non_email (rx : Regexp) (c : Command) (r : Request)
    (user : option UserState) (st : State) (data : loginData) :
  Compile isEmailish_pattern = OK rx →
  decodeLoginData (Body r) = OK data →
  isEmailish rx (loginData_Username data) = false →
  ∃ rsp e,
    run (loginUser rx c r user) st = (rsp, untouched st) ∧
    Type_ rsp = ResponseTypeError ∧
    Status_ rsp = 400 ∧
    Result rsp = RError e ∧
    Kind e = "invalid-auth-data".
Proof.
  intros _ Hdecode Hemail. unfold run, loginUser. rewrite Hdecode, Hemail.
  simpl. by eexists _, _.
Qed.

(** C5. When the decoded instruction of a multi-snap operation sets a
    channel, a revision, devmode or jailmode, [snapsOp] answers 400 with
    "unsupported option provided for multi-snap operation"; it has then
    made no call at all: the state was not locked and no task-set was
    built. *)
Theorem snapsOp_rejects_per_snap_options (c : Command) (r : Request)
    (user : option UserState) (st : State) (inst : snapInstruction Revision) :
  router_Get (d c) stateChangeCmd_Path = true →
  decodeSnapInstruction (Body r) = OK inst →
  Channel inst ≠ "" ∨ Revision_Unset (Revision_ inst) = false
    ∨ DevMode inst = true ∨ JailMode inst = true →
  run (snapsOp c r user) st
    = (BadRequest "unsupported option provided for multi-snap operation",
       untouched st) ∧
  Status_ (BadRequest "unsupported option provided for multi-snap operation")
    = 400.
Proof.
  intros Hroute Hdecode Hopt. split; [| done].
  unfold run, snapsOp. rewrite Hroute, Hdecode. simpl.
  assert (bool_decide (Channel inst ≠ "")
          || negb (Revision_Unset (Revision_ inst))
          || DevMode inst || JailMode inst = true) as ->; [| done].
  destruct Hopt as [Hc | [Hr | [Hd | Hj]]].
  - by rewrite bool_decide_true.
  - rewrite Hr. simpl. by rewrite orb_true_r.
  - rewrite Hd. by rewrite orb_true_r.
  - rewrite Hj. by rewrite orb_true_r.
Qed.

Lemma modeFlags_jailMode (devMode : bool) :
  ForceDevMode = true ∨ devMode = true →
  modeFlags devMode true
    = Err (if ForceDevMode then errNoJailMode else errModeConflict).
Proof.
  unfold modeFlags. intros [-> | ->]; [done |]. by destruct ForceDevMode.
Qed.

(** C4, as the code has it.  For the actions that take the mode flags
    (install, refresh, revert), a request with jailmode set, on a platform
    that forces devmode or with devmode set as well, is answered 400 by
    [postSnap] having only taken and released the state lock: no task-set
    was built, no change was created and the state is as it was.  Where the
    platform does not force devmode the message contains "devmode and
    jailmode"; where it does, the message says that the system cannot
    honour the jailmode flag.  The other actions (remove, enable, disable)
    do not look at the mode flags: a request that differs from [r] by its
    devmode and jailmode flags only gets the answer of [r] and has the
    effect of [r], whatever the flags. *)
Theorem postSnap_mode_flags_refused (c : Command) (r : Request)
    (user : option UserState) (st : State) (inst : snapInstruction Revision) :
  router_Get (d c) stateChangeCmd_Path = true →
  decodeSnapInstruction (Body r) = OK inst →
  (Action inst = "install" ∨ Action inst = "refresh" ∨ Action inst = "revert" →
   JailMode inst = true →
   ForceDevMode = true ∨ DevMode inst = true →
   ∃ msg,
     run (postSnap c r user) st = (BadRequest msg, only_locked st) ∧
     Status_ (BadRequest msg) = 400 ∧
     (ForceDevMode = false → contains msg "devmode and jailmode") ∧
     (ForceDevMode = true → contains msg "cannot honour the jailmode flag")) ∧
  (Action inst = "remove" ∨ Action inst = "enable" ∨ Action inst = "disable" →
   ∀ (r' : Request) (devMode jailMode : bool),
     Vars r' = Vars r →
     decodeSnapInstruction (Body r')
       = OK (daemon_semantics.with_mode_flags inst devMode jailMode) →
     run (postSnap c r' user) st = run (postSnap c r user) st).
Proof.
  intros Hroute Hdecode. split.
  - intros Haction Hjail Hmode.
    exists ("cannot " +:+ Action inst +:+ " "
            +:+ strconv_Quote (Vars_at (Vars r) "name") +:+ ": "
            +:+ (if ForceDevMode then errNoJailMode else errModeConflict)).
    split; [| split; [done | split]].
    + unfold run, postSnap. rewrite Hroute, Hdecode.
      pose proof (modeFlags_jailMode (DevMode inst) Hmode) as Hflags.
      destruct user as [user |];
        destruct Haction as [Ha | [Ha | Ha]];
        unfold dispatch; simpl; rewrite Ha; simpl;
        unfold snapInstall, snapUpdate, snapRevert; simpl;
        rewrite Hjail, Hflags; run_steps; reflexivity.
    + intros ->. do 5 apply contains_append_l.
      by exists "cannot use ", " flags together".
    + intros ->. do 5 apply contains_append_l.
      by exists "this system ", "".
  - intros Haction r' devMode jailMode Hvars Hdecode'.
    unfold run, postSnap. rewrite Hroute, Hdecode, Hdecode', Hvars.
    destruct user as [user |];
      destruct Haction as [Ha | [Ha | Ha]];
      unfold dispatch; simpl; rewrite Ha; reflexivity.
Qed.

(** C8. [abortChange] on a change that is Ready, with the action "abort",
    answers 400 with a message that contains "nothing pending", having only
    taken and released the state lock: the state, and the change in it, are
    as they were.  Whatever the request, [Abort] is called on a change only
    if the state holds that change and it is not Ready. *)
Theorem abortChange_ready_rejected (c : Command) (r : Request)
    (user : option UserState) (st : State) :
  (∀ chg,
     State_Change st (Vars_at (Vars r) "id") = Some chg →
     decodeAction (Body r) = OK "abort" →
     Change_Ready chg = true →
     ∃ msg,
       run (abortChange c r user) st = (BadRequest msg, only_locked st) ∧
       Status_ (BadRequest msg) = 400 ∧
       contains msg "nothing pending") ∧
  (∀ id,
     CChangeAbort id ∈ World_calls (run (abortChange c r user) st).2 →
     ∃ chg, State_Change st id = Some chg ∧ Change_Ready chg = false).
Proof.
  split.
  - intros chg Hchg Hdecode Hready.
    exists ("cannot abort change " +:+ Vars_at (Vars r) "id"
            +:+ " with nothing pending").
    split; [| split; [done |]].
    + unfold abortChange. run_steps.
      rewrite Hchg, Hdecode. simpl. by rewrite Hready.
    + do 2 apply contains_append_l. by exists " with ", "".
  - intros id. unfold abortChange. run_steps.
    destruct (State_Change st (Vars_at (Vars r) "id")) as [chg |] eqn:Hchg;
      simpl; [| by rewrite !elem_of_cons, elem_of_nil; intros [|[|[]]]].
    destruct (decodeAction (Body r)) as [action | err]; simpl;
      [| by rewrite !elem_of_cons, elem_of_nil; intros [|[|[]]]].
    case_bool_decide; simpl;
      [by rewrite !elem_of_cons, elem_of_nil; intros [|[|[]]] |].
    destruct (Change_Ready chg) eqn:Hready; simpl;
      [by rewrite !elem_of_cons, elem_of_nil; intros [|[|[]]] |].
    rewrite !elem_of_cons, elem_of_nil.
    intros [? | [[= ->] | [? | [? | []]]]]; try done.
    by exists chg.
Qed.

Lemma Split_from_not_nil sep s : ∀ skip cur,
  gostrings.Split_from sep skip cur s ≠ [].
Proof.
  induction s as [| a s IH]; intros skip cur; simpl; [done |].
  destruct skip; [| apply IH].
  case_match; [done | apply IH].
Qed.

(** The calls [getSnapConf_loop] makes come after those already made. *)
Lemma getSnapConf_loop_calls (transaction : State) (snapName : string)
    (keys : list string) :
  ∀ currentConfValues w,
    ∃ rest,
      World_calls (getSnapConf_loop transaction snapName keys
                     currentConfValues w).2 = World_calls w ++ rest.
Proof.
  induction keys as [| key keys IH]; intros currentConfValues w; simpl.
  - exists []. by rewrite app_nil_r.
  - run_steps.
    destruct (transaction_Get transaction snapName key) as [value | err].
    + edestruct (IH (map_assign currentConfValues key value)) as [rest Hrest].
      rewrite Hrest. simpl. exists (CTransactionGet snapName key :: rest).
      by rewrite <- app_assoc.
    + simpl. by exists [CTransactionGet snapName key].
Qed.

(** C9. Splitting on a comma never yields the empty list, so the test
    [len(keys) == 0] of [getSnapConf] is false on every request and its
    "no keys supplied" answer is never given from that branch; when the
    [keys] parameter is absent or empty, the handler opens a transaction
    and looks up the key [""] of the snap, and answers by what the lookup
    returned.  On every request, whatever its [keys] parameter, the run of
    the handler is the run of the code after the test: it takes the state
    lock, opens a transaction, releases the lock and runs the loop over the
    keys, so that it has looked up the first of the keys in the
    transaction, which the "no keys supplied" branch never does. *)
Theorem getSnapConf_no_keys_unreachable :
  (∀ s, List.length (gostrings.Split s ",") ≠ 0%nat) ∧
  (∀ (c : Command) (r : Request) (user : option UserState) (st : State),
     Values_Get (URL_Query r) "keys" = "" →
     run (getSnapConf c r user) st
       = (match transaction_Get st (Vars_at (Vars r) "name") "" with
          | Err err => BadRequest err
          | OK value => SyncResponse (SyncOfPayload (RConf [("", value)])) None
          end,
          {| World_state := st;
             World_calls := [CLock; CNewTransaction; CUnlock;
                             CTransactionGet (Vars_at (Vars r) "name") ""] |})) ∧
  (∀ (c : Command) (r : Request) (user : option UserState) (st : State),
     run (getSnapConf c r user) st
       = getSnapConf_loop st (Vars_at (Vars r) "name")
           (gostrings.Split (Values_Get (URL_Query r) "keys") ",") []
           {| World_state := st;
              World_calls := [CLock; CNewTransaction; CUnlock] |} ∧
     ∃ key keys rest,
       gostrings.Split (Values_Get (URL_Query r) "keys") "," = key :: keys ∧
       World_calls (run (getSnapConf c r user) st).2
         = [CLock; CNewTransaction; CUnlock;
            CTransactionGet (Vars_at (Vars r) "name") key] ++ rest).
Proof.
  assert (Hsplit : ∀ s, List.length (gostrings.Split s ",") ≠ 0%nat).
  { intros s Hlen. apply (Split_from_not_nil "," s 0 "").
    by apply nil_length_inv. }
  split; [exact Hsplit | split].
  - intros c r user st Hkeys. unfold getSnapConf. rewrite Hkeys. run_steps.
    by destruct (transaction_Get st (Vars_at (Vars r) "name") "").
  - intros c r user st.
    assert (Hrun : run (getSnapConf c r user) st
              = getSnapConf_loop st (Vars_at (Vars r) "name")
                  (gostrings.Split (Values_Get (URL_Query r) "keys") ",") []
                  {| World_state := st;
                     World_calls := [CLock; CNewTransaction; CUnlock] |}).
    { unfold getSnapConf. rewrite bool_decide_false by apply Hsplit.
      by run_steps. }
    split; [exact Hrun |]. rewrite Hrun.
    pose proof (Hsplit (Values_Get (URL_Query r) "keys")) as Hlen.
    destruct (gostrings.Split (Values_Get (URL_Query r) "keys") ",")
      as [| key keys]; [done |].
    exists key, keys. cbn [getSnapConf_loop]. run_steps.
    destruct (transaction_Get st (Vars_at (Vars r) "name") key)
      as [value | err].
    + edestruct (getSnapConf_loop_calls st (Vars_at (Vars r) "name") keys
                   (map_assign [] key value)) as [rest Hrest].
      exists rest. split; [done |]. rewrite Hrest. reflexivity.
    + by exists [].
Qed.

(** C10, as the code has it.  A request with an action, and with more than
    one plug or more than one slot, is answered 501 "many-to-many operations
    are not implemented" when the internal interface actions are enabled or
    the action is connect or disconnect, before the checks of the action
    and of the presence of a plug and a slot; when the internal interface
    actions are disabled and the action is another one, it is answered 400
    "internal interface actions are disabled" instead.  In both cases no
    call has been made and the state is as it was. *)
Theorem changeInterfaces_many_to_many (c : Command) (r : Request)
    (user : option UserState) (st : State) (a : interfaceAction) :
  decodeInterfaceAction (Body r) = OK a →
  interfaceAction_Action a ≠ "" →
  (1 < List.length (Plugs a) ∨ 1 < List.length (Slots a))%nat →
  (enableInternalInterfaceActions (d c) = true
   ∨ interfaceAction_Action a = "connect"
   ∨ interfaceAction_Action a = "disconnect" →
   run (changeInterfaces c r user) st
     = (NotImplemented "many-to-many operations are not implemented",
        untouched st) ∧
   Status_ (NotImplemented "many-to-many operations are not implemented")
     = 501) ∧
  (enableInternalInterfaceActions (d c) = false →
   interfaceAction_Action a ≠ "connect" →
   interfaceAction_Action a ≠ "disconnect" →
   run (changeInterfaces c r user) st
     = (BadRequest "internal interface actions are disabled", untouched st) ∧
   Status_ (BadRequest "internal interface actions are disabled") = 400).
Proof.
  intros Hdecode Haction Hmany.
  assert (bool_decide (1 < List.length (Plugs a))%nat
          || bool_decide (1 < List.length (Slots a))%nat = true) as Hmany'.
  { destruct Hmany; [by rewrite bool_decide_true
                    | rewrite (bool_decide_true (1 < List.length (Slots a))%nat) by done;
                      apply orb_true_r]. }
  split.
  - intros Hguard. split; [| done].
    unfold run, changeInterfaces. rewrite Hdecode. simpl.
    rewrite (bool_decide_false (interfaceAction_Action a = "")) by done.
    rewrite Hmany'.
    destruct Hguard as [-> | [-> | ->]]; simpl;
      rewrite ?andb_false_r; reflexivity.
  - intros Henable Hc Hd. split; [| done].
    unfold run, changeInterfaces. rewrite Hdecode. simpl.
    rewrite (bool_decide_false (interfaceAction_Action a = "")) by done.
    rewrite Henable. simpl. rewrite !bool_decide_true by done. reflexivity.
Qed.

End handlers_facts.

(** The properties on the reference backend and the reference engine. *)
Import refdaemon.

Lemma loginUser_rejects_non_email_witness :
  ∃ rsp e,
    Compile (Lib := refregexp.lib) isEmailish_pattern = OK isEmailish_rx ∧
    run (loginUser (B := backend false) (L := refregexp.lib) isEmailish_rx
           (command loginCmd_Path false) (request false login_noat [] []) None)
      empty_state = (rsp, untouched empty_state) ∧
    Status_ rsp = 400 ∧
    Result rsp = RError e ∧
    Kind e = "invalid-auth-data".
Proof.
  edestruct (loginUser_rejects_non_email (B := backend false)
               (L := refregexp.lib) isEmailish_rx (command loginCmd_Path false)
               (request false login_noat [] []) None empty_state)
    as (rsp & e & Hrun & _ & Hstatus & Hresult & Hkind);
    [reflexivity | reflexivity | reflexivity |].
  exists rsp, e.
  split; [reflexivity | split; [exact Hrun | ]].
  split; [exact Hstatus | split; [exact Hresult | exact Hkind]].
Defined.

Lemma snapsOp_rejects_per_snap_options_witness :
  run (snapsOp (B := backend false) (command snapsCmd_Path false)
         (request false install_many_channel [] []) None) empty_state
    = (BadRequest "unsupported option provided for multi-snap operation",
       untouched empty_state).
Proof.
  eapply (snapsOp_rejects_per_snap_options (B := backend false));
    [reflexivity | reflexivity | left; discriminate].
Defined.

Lemma postSnap_mode_flags_refused_witness :
  (∃ msg,
     run (postSnap (B := backend false) (command snapCmd_Path false)
            (request false (action_both_flags "install") [("name", "foo")] [])
            None) empty_state
       = (BadRequest msg, only_locked empty_state) ∧
     contains msg "devmode and jailmode") ∧
  (∃ msg,
     run (postSnap (B := backend true) (command snapCmd_Path false)
            (request true (action_jailmode "refresh") [("name", "foo")] [])
            None) empty_state
       = (BadRequest msg, only_locked empty_state) ∧
     contains msg "cannot honour the jailmode flag") ∧
  run (postSnap (B := backend false) (command snapCmd_Path false)
         (request false (action_both_flags "remove") [("name", "foo")] [])
         None) empty_state
    = run (postSnap (B := backend false) (command snapCmd_Path false)
             (request false (VMapS [("action", VString "remove")])
                [("name", "foo")] [])
             None) empty_state.
Proof.
  split; [| split].
  - edestruct (proj1 (postSnap_mode_flags_refused (B := backend false)
                        (command snapCmd_Path false)
                        (request false (action_both_flags "install")
                           [("name", "foo")] []) None empty_state _
                        eq_refl eq_refl))
      as (msg & Hrun & _ & Hmsg & _);
      [left; reflexivity | reflexivity | right; reflexivity |].
    exists msg. split; [exact Hrun | apply Hmsg; reflexivity].
  - edestruct (proj1 (postSnap_mode_flags_refused (B := backend true)
                        (command snapCmd_Path false)
                        (request true (action_jailmode "refresh")
                           [("name", "foo")] []) None empty_state _
                        eq_refl eq_refl))
      as (msg & Hrun & _ & _ & Hmsg);
      [right; left; reflexivity | reflexivity | left; reflexivity |].
    exists msg. split; [exact Hrun | apply Hmsg; reflexivity].
  - apply (proj2 (postSnap_mode_flags_refused (B := backend false)
                    (command snapCmd_Path false)
                    (request false (VMapS [("action", VString "remove")])
                       [("name", "foo")] []) None empty_state _
                    eq_refl eq_refl)
             ltac:(left; reflexivity)
             (request false (action_both_flags "remove") [("name", "foo")] [])
             true true eq_refl eq_refl).
Defined.

(** C4 fails as stated: a request to remove a snap with both devmode and
    jailmode set is accepted with status 202, and the change ["1"], which
    the state did not hold, has been created. *)
Lemma postSnap_remove_both_flags_counterexample :
  let r := request false (action_both_flags "remove") [("name", "foo")] [] in
  let out := run (postSnap (B := backend false) (command snapCmd_Path false)
                    r None) empty_state in
  (∃ inst, decodeSnapInstruction (Body r) = OK inst
           ∧ DevMode inst = true ∧ JailMode inst = true) ∧
  Type_ out.1 = ResponseTypeAsync ∧
  Status_ out.1 = 202 ∧
  Meta_ out.1 = Some {| Meta_Change := "1" |} ∧
  State_Change empty_state "1" = None ∧
  Change_Kind <$> State_Change (World_state out.2) "1" = Some "remove-snap".
Proof.
  split; [by eexists | by vm_compute].
Qed.

(** C4 fails as stated on a platform that forces devmode as well: the
    removal with jailmode set is not refused. *)
Lemma postSnap_remove_jailmode_forced_devmode :
  let r := request true (action_jailmode "remove") [("name", "foo")] [] in
  Status_ (run (postSnap (B := backend true) (command snapCmd_Path false)
                  r None) empty_state).1 = 202.
Proof. by vm_compute. Qed.

Lemma abortChange_ready_rejected_witness :
  ∃ msg,
    run (abortChange (B := backend false) (command stateChangeCmd_Path false)
           (request false abort_body [("id", "1")] []) None)
      (state_with_task DoneStatus)
      = (BadRequest msg, only_locked (state_with_task DoneStatus)) ∧
    contains msg "nothing pending".
Proof.
  edestruct (proj1 (abortChange_ready_rejected (B := backend false)
                      (command stateChangeCmd_Path false)
                      (request false abort_body [("id", "1")] []) None
                      (state_with_task DoneStatus)))
    as (msg & Hrun & _ & Hmsg); [reflexivity | reflexivity | reflexivity |].
  exists msg. split; [exact Hrun | exact Hmsg].
Defined.

Lemma getSnapConf_no_keys_unreachable_witness :
  List.length (gostrings.Split "" ",") ≠ 0%nat ∧
  (∃ rsp,
     run (getSnapConf (B := backend false) (command snapConfCmd_Path false)
            (request false VNil [("name", "foo")] []) None) empty_state
       = (rsp, {| World_state := empty_state;
                  World_calls := [CLock; CNewTransaction; CUnlock;
                                  CTransactionGet "foo" ""] |})) ∧
  (∃ rest,
     World_calls
       (run (getSnapConf (B := backend false) (command snapConfCmd_Path false)
               (request false VNil [("name", "foo")] [("keys", ["a,b"])])
               None) empty_state).2
       = [CLock; CNewTransaction; CUnlock; CTransactionGet "foo" "a"] ++ rest).
Proof.
  split; [| split].
  - apply (proj1 (getSnapConf_no_keys_unreachable (B := backend false))).
  - eexists.
    apply (proj1 (proj2 (getSnapConf_no_keys_unreachable (B := backend false)))
             (command snapConfCmd_Path false)
             (request false VNil [("name", "foo")] []) None empty_state).
    reflexivity.
  - destruct (proj2 (proj2 (getSnapConf_no_keys_unreachable
                              (B := backend false)))
                (command snapConfCmd_Path false)
                (request false VNil [("name", "foo")] [("keys", ["a,b"])])
                None empty_state)
      as (_ & key & keys & rest & Hkeys & Hcalls).
    exists rest. rewrite Hcalls.
    vm_compute in Hkeys. injection Hkeys as <- _. reflexivity.
Defined.

Lemma changeInterfaces_many_to_many_witness :
  run (changeInterfaces (B := backend false)
         (command interfacesCmd_Path false)
         (request false (two_plugs "connect") [] []) None) empty_state
    = (NotImplemented "many-to-many operations are not implemented",
       untouched empty_state) ∧
  run (changeInterfaces (B := backend false)
         (command interfacesCmd_Path true)
         (request false (two_plugs "add") [] []) None) empty_state
    = (NotImplemented "many-to-many operations are not implemented",
       untouched empty_state).
Proof.
  split.
  - eapply (changeInterfaces_many_to_many (B := backend false)
              (command interfacesCmd_Path false)
              (request false (two_plugs "connect") [] []));
      [reflexivity | discriminate | left; simpl; lia | right; left; reflexivity].
  - eapply (changeInterfaces_many_to_many (B := backend false)
              (command interfacesCmd_Path true)
              (request false (two_plugs "add") [] []));
      [reflexivity | discriminate | left; simpl; lia | left; reflexivity].
Defined.

(** C10 fails as stated: with the internal interface actions disabled, a
    request with the action "add" and two plugs is answered 400, not 501. *)
Lemma changeInterfaces_add_two_plugs_counterexample :
  let r := request false (two_plugs "add") [] [] in
  let out := run (changeInterfaces (B := backend false)
                    (command interfacesCmd_Path false) r None) empty_state in
  (∃ a, decodeInterfaceAction (Body r) = OK a
        ∧ interfaceAction_Action a ≠ ""
        ∧ (1 < List.length (Plugs a))%nat) ∧
  Status_ out.1 = 400 ∧
  out.1 = BadRequest "internal interface actions are disabled" ∧
  out.1 ≠ NotImplemented "many-to-many operations are not implemented".
Proof.
  split; [| by vm_compute].
  eexists. split; [reflexivity | split; [discriminate | simpl; lia]].
Qed.

(** The definitions on small inputs. *)

Example Split_examples :
  gostrings.Split "" "," = [""] ∧
  gostrings.Split "a,b,,c" "," = ["a"; "b"; ""; "c"] ∧
  gostrings.Split "," "," = [""; ""] ∧
  gostrings.Split "abc" "," = ["abc"].
Proof. by vm_compute. Qed.

Example isEmailish_examples :
  isEmailish (L := refregexp.lib) isEmailish_rx "noat.example" = false ∧
  isEmailish (L := refregexp.lib) isEmailish_rx "user@example.com" = true ∧
  isEmailish (L := refregexp.lib) isEmailish_rx "@example.com" = false ∧
  isEmailish (L := refregexp.lib) isEmailish_rx "user@example" = false.
Proof. by vm_compute. Qed.

(** A login with a username that looks like an email address does go to
    the store, and the user record is created. *)
Example loginUser_email_example :
  let out :=
    run (loginUser (B := backend false) (L := refregexp.lib) isEmailish_rx
           (command loginCmd_Path false)
           (request false
              (VMapS [("username", VString "user@example.com");
                      ("password", VString "x")]) [] []) None) empty_state in
  Status_ out.1 = 200 ∧
  World_calls out.2
    = [CStoreLoginUser "user@example.com" "x" ""; CLock;
       CAuthNewUser "user@example.com"; CUnlock] ∧
  Username <$> State_users (World_state out.2) = ["user@example.com"].
Proof. by vm_compute. Qed.

(** Scenario S1: an install from the stable channel is accepted with status
    202 and the id of the change that was created. *)
Example postSnap_install_example :
  let out :=
    run (postSnap (B := backend false) (command snapCmd_Path false)
           (request false
              (VMapS [("action", VString "install");
                      ("channel", VString "stable")])
              [("name", "foo")] []) None) empty_state in
  out.1 = AsyncResponse RNil (Some {| Meta_Change := "1" |}) ∧
  Status_ out.1 = 202 ∧
  Change_Kind <$> State_Change (World_state out.2) "1" = Some "install-snap".
Proof. by vm_compute. Qed.

(** Scenario S3: connecting one plug to one slot. *)
Example changeInterfaces_connect_example :
  let out :=
    run (changeInterfaces (B := backend false)
           (command interfacesCmd_Path false)
           (request false
              (VMapS [("action", VString "connect");
                      ("plugs", VList [VMapS [("snap", VString "a");
                                              ("plug", VString "p")]]);
                      ("slots", VList [VMapS [("snap", VString "b");
                                              ("slot", VString "s")]])])
              [] []) None) empty_state in
  Status_ out.1 = 202 ∧
  Change_Kind <$> State_Change (World_state out.2) "1" = Some "connect-snap" ∧
  Change_Summary <$> State_Change (World_state out.2) "1"
    = Some "Connect a:p to b:s" ∧
  (Change_Data <$> State_Change (World_state out.2) "1")
    = Some [("snap-names", VList [VString "a"; VString "b"])].
Proof. by vm_compute. Qed.

(** Aborting a change that is not Ready marks its pending task. *)
Example abortChange_pending_example :
  let out :=
    run (abortChange (B := backend false) (command stateChangeCmd_Path false)
           (request false abort_body [("id", "1")] []) None)
      (state_with_task DoingStatus) in
  Status_ out.1 = 200 ∧
  World_calls out.2 = [CLock; CChangeAbort "1"; CEnsureBefore 0; CUnlock] ∧
  World_state out.2 = state_with_task AbortStatus.
Proof. by vm_compute. Qed.

End daemon_facts.

(** * Further properties of the attribute matcher *)
Module attr_matcher_more.
Import asserts regexp attr_semantics.
#[local] Set Warnings "-clear-no-such-hyp".

Section more.
Context {L : regexp.Lib}.

(** The induction principle of [attrMatcher] with the hypotheses for the
    nested lists. *)
Lemma attrMatcher_ind' (P : attrMatcher → Prop)
    (Hmap : ∀ m, Forall (λ e, P e.2) m → P (mapAttrMatcher m))
    (Hregexp : ∀ rx, P (regexpAttrMatcher rx))
    (Halt : ∀ alts, Forall P alts → P (altAttrMatcher alts)) :
  ∀ m, P m.
Proof.
  fix IH 1. intros [m | rx | alts].
  - apply Hmap. induction m as [| [k m1] m IHm]; constructor;
      [apply IH | exact IHm].
  - apply Hregexp.
  - apply Halt. induction alts as [| a alts IHalts]; constructor;
      [apply IH | exact IHalts].
Qed.

Lemma matchEntry_None context k f v :
  matchEntry context k f v = None ↔ v ≠ VNil ∧ f (chain context k) v = None.
Proof. unfold matchEntry. destruct v; naive_solver. Qed.

Lemma mapAttrMatcher_loop_None match_ context index m :
  mapAttrMatcher_loop match_ context index m = None ↔
  Forall (λ e, matchEntry context e.1 (match_ e.2) (index e.1) = None) m.
Proof.
  induction m as [| [k m1] m IHm]; simpl.
  - split; [constructor | done].
  - rewrite Forall_cons. simpl.
    destruct (matchEntry context k (match_ m1) (index k)); naive_solver.
Qed.

Lemma altAttrMatcher_loop_None match_ context v alts : ∀ firstErr,
  altAttrMatcher_loop match_ context v alts firstErr = None ↔
  Exists (λ a, match_ a context v = None) alts.
Proof.
  induction alts as [| a alts IH]; intros firstErr; simpl.
  - rewrite Exists_nil. naive_solver.
  - rewrite Exists_cons. destruct (match_ a context v) eqn:Ha.
    + rewrite IH. naive_solver.
    + naive_solver.
Qed.

Lemma matchList_None context f l :
  matchList context f l = None ↔
  ∀ j elem, l !! j = Some elem →
    f (chain context (strconv.Itoa (Z.of_nat j))) elem = None.
Proof. unfold matchList. by rewrite asserts_facts.matchList_from_None. Qed.

Lemma mapAttrMatcher_match_list m context l :
  attrMatcher_match (mapAttrMatcher m) context (VList l)
  = matchList context (attrMatcher_match (mapAttrMatcher m)) l.
Proof. reflexivity. Qed.

Lemma matchList_None_accepts (m : attrMatcher) context l :
  Forall (λ elem, ∀ context',
            attrMatcher_match m context' elem = None ↔ accepts m elem) l →
  matchList context (attrMatcher_match m) l = None ↔ Forall (accepts m) l.
Proof.
  intros IH. rewrite matchList_None, !Forall_forall in *. split.
  - intros Hall elem Hin.
    destruct (proj1 (list_elem_of_lookup _ _) Hin) as [j Hj].
    eapply (proj1 (IH elem Hin _)), (Hall j elem Hj).
  - intros Hall j elem Hj.
    assert (elem ∈ l) as Hin by (by eapply list_elem_of_lookup_2).
    by apply (proj2 (IH elem Hin _)), Hall.
Qed.

Lemma mapAttrMatcher_loop_accepts m context index :
  Forall (λ e, ∀ context' v,
            attrMatcher_match e.2 context' v = None ↔ accepts e.2 v) m →
  mapAttrMatcher_loop attrMatcher_match context index m = None ↔
  Forall (λ e, index e.1 ≠ VNil ∧ accepts e.2 (index e.1)) m.
Proof.
  intros IH. rewrite mapAttrMatcher_loop_None, !Forall_forall in *.
  split; intros Hall e He; specialize (Hall e He);
    rewrite matchEntry_None in *; specialize (IH e He); naive_solver.
Qed.

(** X1. The matcher decides the constraints: [match] returns no error, at
    whatever path, exactly on the values that the constraints accept. *)
Theorem match_None_iff_accepts (m : attrMatcher) :
  ∀ context v, attrMatcher_match m context v = None ↔ accepts m v.
Proof.
  induction m as [m IHm | rx | alts IHalts] using attrMatcher_ind'.
  - intros context v. revert context.
    induction v as [| s | b | n | l IHl | x _ | x _ | d] using value_ind';
      intros context;
      try (split; [done | by inversion 1]).
    + rewrite mapAttrMatcher_match_list, (matchList_None_accepts _ _ _ IHl).
      split; [by constructor | by inversion 1].
    + change (attrMatcher_match (mapAttrMatcher m) context (VMapS x))
        with (mapAttrMatcher_loop attrMatcher_match context
                (index_string_map x) m).
      rewrite (mapAttrMatcher_loop_accepts _ _ _ IHm).
      split; [by constructor | by inversion 1].
    + change (attrMatcher_match (mapAttrMatcher m) context (VMapI x))
        with (mapAttrMatcher_loop attrMatcher_match context
                (index_iface_map x) m).
      rewrite (mapAttrMatcher_loop_accepts _ _ _ IHm).
      split; [by constructor | by inversion 1].
  - intros context v. revert context.
    induction v as [| s | b | n | l IHl | x _ | x _ | d] using value_ind';
      intros context; simpl;
      try (split; [done | by inversion 1]).
    + rewrite asserts_facts.regexp_scalar_None.
      split; [by constructor | by inversion 1].
    + rewrite asserts_facts.regexp_scalar_None.
      split; [by constructor | by inversion 1].
    + rewrite asserts_facts.regexp_scalar_None.
      split; [by constructor | by inversion 1].
    + change (regexpAttrMatcher_match rx)
        with (attrMatcher_match (regexpAttrMatcher rx)).
      rewrite (matchList_None_accepts _ _ _ IHl).
      split; [by constructor | by inversion 1].
  - intros context v. simpl. rewrite altAttrMatcher_loop_None, Exists_exists.
    rewrite Forall_forall in IHalts. split.
    + intros (a & Ha & Hmatch). econstructor; [done |]. by apply (IHalts a Ha context).
    + inversion 1 as [| | | | | | | alts' a v' Ha Hacc]; subst.
      exists a. split; [done |]. by apply IHalts.
Qed.

Lemma map_match_Permutation m m' :
  m ≡ₚ m' →
  ∀ v context,
    attrMatcher_match (mapAttrMatcher m) context v = None →
    attrMatcher_match (mapAttrMatcher m') context v = None.
Proof.
  intros Hperm.
  induction v as [| s | b | n | l IHl | x _ | x _ | d] using value_ind';
    intros context; try done.
  - rewrite !mapAttrMatcher_match_list, !matchList_None.
    intros Hall j elem Hj. rewrite Forall_forall in IHl.
    apply IHl; [by eapply list_elem_of_lookup_2 | by apply Hall].
  - change (attrMatcher_match (mapAttrMatcher ?m) context (VMapS x))
      with (mapAttrMatcher_loop attrMatcher_match context
              (index_string_map x) m).
    rewrite !mapAttrMatcher_loop_None. by rewrite Hperm.
  - change (attrMatcher_match (mapAttrMatcher ?m) context (VMapI x))
      with (mapAttrMatcher_loop attrMatcher_match context
              (index_iface_map x) m).
    rewrite !mapAttrMatcher_loop_None. by rewrite Hperm.
Qed.

(** X2. The verdict of a map node does not depend on the order in which
    its entries are visited: two nodes with the same entries in different
    orders return no error on the same values. *)
Theorem map_verdict_order_independent (m m' : list (string * attrMatcher)) :
  m ≡ₚ m' →
  ∀ context v,
    attrMatcher_match (mapAttrMatcher m) context v = None
    ↔ attrMatcher_match (mapAttrMatcher m') context v = None.
Proof.
  intros Hperm context v.
  split; by apply map_match_Permutation.
Qed.

(** X3. An attribute that has constraints but is not set in the attribute
    map makes [Check] fail, whatever the other entries are. *)
Theorem Check_unset_attribute (m : list (string * attrMatcher))
    (attrs : list (string * value)) (k : string) (matcher1 : attrMatcher) :
  (k, matcher1) ∈ m →
  index_string_map attrs k = VNil →
  ∃ err, Check {| matcher := mapAttrMatcher m |} attrs = Some err.
Proof.
  intros Hin Hunset. unfold Check. simpl matcher.
  destruct (attrMatcher_match (mapAttrMatcher m) "" (VMapS attrs))
    as [err |] eqn:Hmatch; [by exists err |].
  change (mapAttrMatcher_loop attrMatcher_match ""
            (index_string_map attrs) m = None) in Hmatch.
  rewrite mapAttrMatcher_loop_None, Forall_forall in Hmatch.
  apply Hmatch, matchEntry_None in Hin. by destruct Hin.
Qed.

(** The first entry of a map node whose attribute is unset is reported as
    such, under its dotted path. *)
Lemma match_unset_first_entry k matcher1 m context x :
  index_string_map x k = VNil →
  attrMatcher_match (mapAttrMatcher ((k, matcher1) :: m)) context (VMapS x)
  = Some (ErrUnset (chain context k)).
Proof. intros Hunset. simpl. unfold matchEntry. by rewrite Hunset. Qed.

Lemma chain_extends context k : ∃ rest, chain context k = context +:+ rest.
Proof.
  unfold chain. case_bool_decide as Hc; [subst; by exists k | by eexists].
Qed.

Lemma extends_trans (a b c : string) :
  (∃ r, b = a +:+ r) → (∃ r, c = b +:+ r) → ∃ r, c = a +:+ r.
Proof.
  intros [r1 ->] [r2 ->]. exists (r1 +:+ r2).
  by rewrite daemon_facts.append_assoc.
Qed.

Lemma extends_refl (a : string) : ∃ r, a = a +:+ r.
Proof.
  exists "". induction a as [| c a IH]; [done |].
  change (String c a = String c (a +:+ "")). by rewrite <-IH.
Qed.

Lemma matchList_from_Some context f l err : ∀ i,
  matchList_from context f i l = Some err →
  ∃ j elem, l !! j = Some elem
    ∧ f (chain context (strconv.Itoa (Z.of_nat (i + j)))) elem = Some err.
Proof.
  induction l as [| x l IHl]; intros i; simpl; [done |].
  destruct (f (chain context (strconv.Itoa (Z.of_nat i))) x) as [e |] eqn:Hx.
  - intros [= <-]. exists 0%nat, x. by rewrite Nat.add_0_r.
  - intros (j & elem & Hj & Hf)%IHl. exists (S j), elem. split; [done |].
    by replace (i + S j)%nat with (S i + j)%nat by lia.
Qed.

Lemma mapAttrMatcher_loop_Some match_ context index m err :
  mapAttrMatcher_loop match_ context index m = Some err →
  ∃ e, e ∈ m ∧ matchEntry context e.1 (match_ e.2) (index e.1) = Some err.
Proof.
  induction m as [| [k m1] m IHm]; simpl; [done |].
  destruct (matchEntry context k (match_ m1) (index k)) as [e |] eqn:He.
  - intros [= <-]. exists (k, m1). split; [left | done].
  - intros (e & Hin & Hm)%IHm. exists e. split; [by right | done].
Qed.

Lemma altAttrMatcher_loop_Some match_ context v alts : ∀ firstErr err,
  altAttrMatcher_loop match_ context v alts firstErr = Some err →
  ∃ first, err = ErrNoAlternative context first.
Proof.
  induction alts as [| a alts IH]; intros firstErr err; simpl.
  - intros [= <-]. by eexists.
  - destruct (match_ a context v); [apply IH | done].
Qed.

(** X4. Every error of the matcher names a path under the path it was
    asked to match at: the diagnostic of [match] at [context] has [context]
    as a prefix. *)
Theorem match_error_under_context (m : attrMatcher) :
  ∀ context v err,
    attrMatcher_match m context v = Some err →
    ∃ rest, matchError_context err = context +:+ rest.
Proof.
  induction m as [m IHm | rx | alts IHalts] using attrMatcher_ind'.
  - intros context v. revert context.
    assert (∀ context index err,
              mapAttrMatcher_loop attrMatcher_match context index m = Some err →
              ∃ rest, matchError_context err = context +:+ rest) as Hloop.
    { intros context index err
        ([k m1] & Hin & Hentry)%mapAttrMatcher_loop_Some.
      rewrite Forall_forall in IHm. simpl in Hentry. unfold matchEntry in Hentry.
      destruct (index k) eqn:Hk;
        try (by eapply extends_trans;
               [apply chain_extends | eapply (IHm _ Hin), Hentry]).
      injection Hentry as <-. apply chain_extends. }
    induction v as [| s | b | n | l IHl | x _ | x _ | d] using value_ind';
      intros context err;
      try (intros [= <-]; apply extends_refl).
    + rewrite mapAttrMatcher_match_list. unfold matchList.
      intros (j & elem & Hj & Hf)%matchList_from_Some.
      rewrite Forall_forall in IHl.
      eapply extends_trans; [apply chain_extends |].
      eapply IHl; [by eapply list_elem_of_lookup_2 | exact Hf].
    + apply Hloop.
    + apply Hloop.
  - intros context v. revert context.
    induction v as [| s | b | n | l IHl | x _ | x _ | d] using value_ind';
      intros context err; simpl;
      try (intros [= <-]; apply extends_refl).
    + destruct (MatchString rx s); simpl; [done |].
      intros [= <-]. apply extends_refl.
    + destruct (MatchString rx _); simpl; [done |].
      intros [= <-]. apply extends_refl.
    + destruct (MatchString rx _); simpl; [done |].
      intros [= <-]. apply extends_refl.
    + unfold matchList. intros (j & elem & Hj & Hf)%matchList_from_Some.
      rewrite Forall_forall in IHl.
      eapply extends_trans; [apply chain_extends |].
      eapply IHl; [by eapply list_elem_of_lookup_2 | exact Hf].
  - intros context v err. simpl.
    intros [first ->]%altAttrMatcher_loop_Some. apply extends_refl.
Qed.

(** X5. When every alternative returns an error, a list of alternatives
    reports that no alternative matches, together with the error of its
    first alternative, not of a later one; a list of no alternative
    reports it on every value, with no error inside. *)
Theorem no_alternative_reports_first (alts : list attrMatcher)
    (context : string) (v : value) :
  Forall (λ a, attrMatcher_match a context v ≠ None) alts →
  attrMatcher_match (altAttrMatcher alts) context v
  = Some (ErrNoAlternative context
            (match alts with
             | [] => None
             | a :: _ => attrMatcher_match a context v
             end)).
Proof.
  intros Hall. simpl.
  assert (∀ firstErr,
            altAttrMatcher_loop attrMatcher_match context v alts firstErr
            = Some (ErrNoAlternative context
                      (match firstErr with
                       | Some _ => firstErr
                       | None => match alts with
                                 | [] => None
                                 | a :: _ => attrMatcher_match a context v
                                 end
                       end))) as Hloop; [| apply Hloop].
  induction Hall as [| a alts Ha Hall IH]; intros firstErr; simpl.
  - by destruct firstErr.
  - destruct (attrMatcher_match a context v) as [err |] eqn:Herr; [| done].
    rewrite IH. by destruct firstErr.
Qed.

Lemma compileMapAttrMatcher_loop_is_OK compile cc m : ∀ matcher,
  is_OK (compileMapAttrMatcher_loop compile cc m matcher) = true ↔
  Forall (λ kv, is_OK (compile (keyEntry cc kv.1) kv.2) = true) m.
Proof.
  induction m as [| [k v] m IHm]; intros matcher; simpl.
  - split; [constructor | done].
  - rewrite Forall_cons. simpl.
    destruct (compile (keyEntry cc k) v); simpl; [rewrite IHm |]; naive_solver.
Qed.

Lemma compileAltAttrMatcher_loop_is_OK compile cc l : ∀ i alts,
  is_OK (compileAltAttrMatcher_loop compile cc i l alts) = true ↔
  ∀ j c, l !! j = Some c → is_OK (compile (alt cc (i + j)) c) = true.
Proof.
  induction l as [| c l IHl]; intros i alts; simpl.
  - split; [intros _ j c; done | done].
  - destruct (compile (alt cc i) c) as [m |] eqn:Hc; simpl.
    + rewrite IHl. split.
      * intros Hall [| j] c' Hj; simplify_eq/=.
        -- by rewrite Nat.add_0_r, Hc.
        -- replace (i + S j)%nat with (S i + j)%nat by lia. by apply Hall.
      * intros Hall j c' Hj.
        replace (S i + j)%nat with (i + S j)%nat by lia. by apply Hall.
    + split; [done |]. intros Hall.
      specialize (Hall 0%nat c eq_refl). by rewrite Nat.add_0_r, Hc in Hall.
Qed.

Lemma compileAttrMatcher_is_OK constraints : ∀ cc,
  is_OK (compileAttrMatcher cc constraints) = true
  ↔ compilable (hadMap cc) (wasAlt cc) constraints.
Proof.
  induction constraints as [| s | b | n | l IHl | m IHm | m _ | d]
    using value_ind'; intros cc; simpl;
    try (split; [done | by inversion 1]).
  - destruct (hadMap cc) eqn:Hhad; simpl.
    + unfold compileRegexpAttrMatcher.
      destruct (Compile ("^" +:+ s +:+ "$")) as [rx | err] eqn:Hrx; simpl.
      * split; [intros _; by econstructor | done].
      * split; [done |]. inversion 1; congruence.
    + split; [done | by inversion 1].
  - destruct (wasAlt cc) eqn:Hwas; simpl.
    + split; [done | by inversion 1].
    + rewrite compileAltAttrMatcher_loop_is_OK, Forall_forall in *. split.
      * intros Hall. constructor. rewrite Forall_forall. intros c Hin.
        destruct (proj1 (list_elem_of_lookup _ _) Hin) as [j Hj].
        by apply (IHl c Hin (alt cc (0 + j))), Hall.
      * inversion 1 as [| hm l0 Hall |]; subst. intros j c Hj.
        rewrite Forall_forall in Hall.
        assert (c ∈ l) as Hin by (by eapply list_elem_of_lookup_2).
        by apply (IHl c Hin (alt cc (0 + j))), Hall.
  - rewrite compileMapAttrMatcher_loop_is_OK, !Forall_forall in *. split.
    + intros Hall. constructor. rewrite Forall_forall. intros kv Hin.
      by apply (IHm kv Hin (keyEntry cc kv.1)), Hall.
    + inversion 1 as [hm wa m0 Hall | |]; subst. intros kv Hin.
      rewrite Forall_forall in Hall.
      by apply (IHm kv Hin (keyEntry cc kv.1)), Hall.
Qed.

(** X6. Which constraints compile: a map of constraints that compile under
    a map; a list, not itself directly in a list, of alternatives that
    compile; under a map, a string that is a regular expression once
    anchored.  Nothing else compiles. *)
Theorem compileAttributeConstraints_OK_iff (constraints : value) :
  (∃ c, compileAttributeConstraints constraints = OK c)
  ↔ compilable false false constraints.
Proof.
  rewrite <-(compileAttrMatcher_is_OK constraints compileContext_zero).
  unfold compileAttributeConstraints.
  destruct (compileAttrMatcher compileContext_zero constraints); simpl;
    naive_solver.
Qed.

End more.

(** The properties with a hypothesis, on the reference engine. *)
#[local] Existing Instance refregexp.lib.

Lemma map_verdict_order_independent_witness :
  attrMatcher_match
    (mapAttrMatcher [("speed", mapAttrMatcher []); ("bus", mapAttrMatcher [])])
    "" (VMapS [("bus", VMapS []); ("speed", VMapS [])])
  = None.
Proof.
  apply (map_verdict_order_independent
           [("bus", mapAttrMatcher []); ("speed", mapAttrMatcher [])]
           [("speed", mapAttrMatcher []); ("bus", mapAttrMatcher [])]
           (perm_swap _ _ _)).
  reflexivity.
Defined.

Lemma Check_unset_attribute_witness :
  ∃ err, Check {| matcher := mapAttrMatcher
                               [("bus", altAttrMatcher []);
                                ("speed", altAttrMatcher [])] |}
           [("bus", VString "usb")] = Some err.
Proof.
  apply (Check_unset_attribute _ _ "speed" (altAttrMatcher []));
    [right; left | reflexivity].
Defined.

Lemma match_error_under_context_witness :
  ∃ rest,
    matchError_context (ErrUnset "plug.speed") = "plug" +:+ rest.
Proof.
  apply (match_error_under_context
           (mapAttrMatcher [("speed", altAttrMatcher [])]) "plug"
           (VMapS [("bus", VString "usb")])).
  reflexivity.
Defined.

Lemma no_alternative_reports_first_witness :
  attrMatcher_match
    (altAttrMatcher [mapAttrMatcher []; mapAttrMatcher [("bus", mapAttrMatcher [])]])
    "speed" (VString "full")
  = Some (ErrNoAlternative "speed" (Some (ErrNotMap "speed"))).
Proof.
  apply (no_alternative_reports_first
           [mapAttrMatcher []; mapAttrMatcher [("bus", mapAttrMatcher [])]]
           "speed" (VString "full")).
  repeat constructor; discriminate.
Defined.

End attr_matcher_more.

(** * Further properties of the device assertions *)
Module device_asserts_more.
Import asserts device_asserts.
#[local] Set Warnings "-clear-no-such-hyp".

Section more.
Context {B : Base}.
Context (checkStringList : gmap string value → string → result string (list string)).

Ltac refuted :=
  split; [discriminate |];
  let H := fresh in intros H; decompose [ex and] H; congruence.

Ltac accepted :=
  split;
  [ intros [= <-]; repeat esplit; eauto
  | let H := fresh in intros H; decompose [ex and] H; congruence ].

Lemma checkAuthorityMatchesBrand_None a :
  checkAuthorityMatchesBrand a = None ↔ HeaderString a "brand-id" = AuthorityID a.
Proof. unfold checkAuthorityMatchesBrand. case_bool_decide; naive_solver. Qed.

(** X7. Authority binding: a model and a serial whose [brand-id] is not
    their [authority-id] are refused with the error that says so, whatever
    their other headers hold. *)
Theorem authority_must_be_brand (assert : assertionBase) :
  HeaderString assert "brand-id" ≠ AuthorityID assert →
  assembleModel checkStringList assert
    = Err (ErrAuthorityBrand (TypeName assert) (AuthorityID assert)
             (HeaderString assert "brand-id")) ∧
  assembleSerial assert
    = Err (ErrAuthorityBrand (TypeName assert) (AuthorityID assert)
             (HeaderString assert "brand-id")).
Proof.
  intros Hne. unfold assembleModel, assembleSerial, checkAuthorityMatchesBrand.
  by rewrite bool_decide_true.
Qed.

(** X8. A serial is assembled exactly when the brand is the authority, the
    device key is there and decodes, the [device-key-sha3-384] header reads
    as the id of that key and the timestamp is a date; the serial then
    holds the decoded key and the date. *)
Theorem assembleSerial_OK_iff (assert : assertionBase) (a : Assertion) :
  assembleSerial assert = OK a ↔
  ∃ encodedKey pubKey timestamp,
    HeaderString assert "brand-id" = AuthorityID assert ∧
    checkNotEmptyString (headers assert) "device-key" = OK encodedKey ∧
    DecodePublicKey encodedKey = OK pubKey ∧
    checkNotEmptyString (headers assert) "device-key-sha3-384"
      = OK (PublicKey_ID pubKey) ∧
    checkRFC3339Date (headers assert) "timestamp" = OK timestamp ∧
    a = ASerial {| Serial_assertionBase := assert;
                   Serial_timestamp := timestamp;
                   Serial_pubKey := pubKey |}.
Proof.
  unfold assembleSerial.
  destruct (checkAuthorityMatchesBrand assert) as [err |] eqn:Hauth.
  - split; [done |]. intros (? & ? & ? & Hb & _).
    apply checkAuthorityMatchesBrand_None in Hb. congruence.
  - apply checkAuthorityMatchesBrand_None in Hauth.
    destruct (checkNotEmptyString (headers assert) "device-key")
      as [encodedKey | err]; simpl; [| refuted].
    destruct (DecodePublicKey encodedKey) as [pubKey | err] eqn:Hdecode;
      simpl; [| refuted].
    destruct (checkNotEmptyString (headers assert) "device-key-sha3-384")
      as [keyID | err]; simpl; [| refuted].
    case_bool_decide as Hid; [refuted |].
    subst keyID.
    destruct (checkRFC3339Date (headers assert) "timestamp")
      as [timestamp | err]; simpl; [| refuted]; accepted.
Qed.

(** X9. A serial-request is assembled exactly when brand, model and
    request id are there, the optional serial is a string, and the device
    key is there, decodes and has the signing key id of the assertion as
    its id; the authority is not looked at. *)
Theorem assembleSerialRequest_OK_iff (assert : assertionBase) (a : Assertion) :
  assembleSerialRequest assert = OK a ↔
  ∃ brand model requestID serial encodedKey pubKey,
    checkNotEmptyString (headers assert) "brand-id" = OK brand ∧
    checkNotEmptyString (headers assert) "model" = OK model ∧
    checkNotEmptyString (headers assert) "request-id" = OK requestID ∧
    checkOptionalString (headers assert) "serial" = OK serial ∧
    checkNotEmptyString (headers assert) "device-key" = OK encodedKey ∧
    DecodePublicKey encodedKey = OK pubKey ∧
    PublicKey_ID pubKey = SignKeyID assert ∧
    a = ASerialRequest {| SerialRequest_assertionBase := assert;
                          SerialRequest_pubKey := pubKey |}.
Proof.
  unfold assembleSerialRequest.
  destruct (checkNotEmptyString (headers assert) "brand-id"); simpl;
    [| refuted].
  destruct (checkNotEmptyString (headers assert) "model"); simpl;
    [| refuted].
  destruct (checkNotEmptyString (headers assert) "request-id"); simpl;
    [| refuted].
  destruct (checkOptionalString (headers assert) "serial"); simpl;
    [| refuted].
  destruct (checkNotEmptyString (headers assert) "device-key")
    as [encodedKey | err]; simpl; [| refuted].
  destruct (DecodePublicKey encodedKey) as [pubKey | err] eqn:Hdecode;
    simpl; [| refuted].
  case_bool_decide as Hid; [refuted |].
  accepted.
Qed.

(** X10. A model is assembled exactly when the brand is the authority, the
    architecture, the gadget and the kernel are there, the optional store
    is a string, the required snaps are a list of strings and the timestamp
    is a date; the model then holds those required snaps and that date. *)
Theorem assembleModel_OK_iff (assert : assertionBase) (mdl : Model) :
  assembleModel checkStringList assert = OK mdl ↔
  ∃ architecture gadget kernel store reqSnaps timestamp,
    HeaderString assert "brand-id" = AuthorityID assert ∧
    checkNotEmptyString (headers assert) "architecture" = OK architecture ∧
    checkNotEmptyString (headers assert) "gadget" = OK gadget ∧
    checkNotEmptyString (headers assert) "kernel" = OK kernel ∧
    checkOptionalString (headers assert) "store" = OK store ∧
    checkStringList (headers assert) "required-snaps" = OK reqSnaps ∧
    checkRFC3339Date (headers assert) "timestamp" = OK timestamp ∧
    mdl = {| Model_assertionBase := assert;
             Model_requiredSnaps := reqSnaps;
             Model_timestamp := timestamp |}.
Proof.
  unfold assembleModel.
  destruct (checkAuthorityMatchesBrand assert) as [err |] eqn:Hauth.
  - split; [done |]. intros (? & ? & ? & ? & ? & ? & Hb & _).
    apply checkAuthorityMatchesBrand_None in Hb. congruence.
  - apply checkAuthorityMatchesBrand_None in Hauth. simpl.
    destruct (checkNotEmptyString (headers assert) "architecture"); simpl;
      [| refuted].
    destruct (checkNotEmptyString (headers assert) "gadget"); simpl;
      [| refuted].
    destruct (checkNotEmptyString (headers assert) "kernel"); simpl;
      [| refuted].
    destruct (checkOptionalString (headers assert) "store"); simpl;
      [| refuted].
    destruct (checkStringList (headers assert) "required-snaps"); simpl;
      [| refuted].
    destruct (checkRFC3339Date (headers assert) "timestamp"); simpl;
      naive_solver.
Qed.

(** X11. What the accessors of an assembled assertion give: the brand of
    a model and of a serial is the authority that signed it, as the comment
    on [BrandID] says, the required snaps of a model are the checked list
    of the header, and the id of the device key of a serial is what its
    [device-key-sha3-384] header reads. *)
Theorem assembled_accessors (assert : assertionBase) :
  (∀ mdl, assembleModel checkStringList assert = OK mdl →
     Model_BrandID mdl = AuthorityID assert ∧
     checkStringList (headers assert) "required-snaps"
       = OK (Model_RequiredSnaps mdl)) ∧
  (∀ ser, assembleSerial assert = OK (ASerial ser) →
     Serial_BrandID ser = AuthorityID assert ∧
     checkNotEmptyString (headers assert) "device-key-sha3-384"
       = OK (PublicKey_ID (Serial_DeviceKey ser))).
Proof.
  split.
  - intros mdl. unfold assembleModel.
    destruct (checkAuthorityMatchesBrand assert) as [err |] eqn:Hauth;
      [done |].
    apply checkAuthorityMatchesBrand_None in Hauth. simpl.
    repeat (match goal with
            | |- context [try_ ?r _] => destruct r; simpl; [| done]
            end).
    by intros [= <-].
  - intros ser. unfold assembleSerial.
    destruct (checkAuthorityMatchesBrand assert) as [err |] eqn:Hauth;
      [done |].
    apply checkAuthorityMatchesBrand_None in Hauth.
    repeat (match goal with
            | |- context [try ?r _] => destruct r; simpl; [| done]
            end).
    case_bool_decide as Hid; [done |].
    repeat (match goal with
            | |- context [try ?r _] => destruct r; simpl; [| done]
            end).
    intros [= <-]. by subst.
Qed.

End more.

Lemma assembled_accessors_witness :
  ∃ mdl, assembleModel (B := refasserts.base) ref_checkStringList model_pc
           = OK mdl ∧
         Model_BrandID (B := refasserts.base) mdl = "canonical".
Proof.
  eexists. split; [reflexivity |].
  apply (proj1 (assembled_accessors (B := refasserts.base)
                  ref_checkStringList model_pc) _ eq_refl).
Defined.

Lemma authority_must_be_brand_witness :
  let assert := <["authority-id" := VString "someone-else"]> model_pc in
  is_OK (assembleModel (B := refasserts.base) ref_checkStringList model_pc)
    = true ∧
  assembleModel (B := refasserts.base) ref_checkStringList assert
    = Err (ErrAuthorityBrand "model" "someone-else" "canonical").
Proof.
  split; [reflexivity |].
  destruct (authority_must_be_brand (B := refasserts.base)
              ref_checkStringList
              (<["authority-id" := VString "someone-else"]> model_pc))
    as [Hmodel _].
  - vm_compute. intros [=].
  - rewrite Hmodel. reflexivity.
Defined.

End device_asserts_more.

(** * Further properties of the handlers *)
Module daemon_more.
Import state daemon regexp daemon_semantics.
#[local] Open Scope Z_scope.
#[local] Set Warnings "-clear-no-such-hyp".

Ltac run_steps := daemon_facts.run_steps.

(** The handler answered with an error and left the state as it was. *)
Ltac refused :=
  left; split; [done | split; [by destruct_all State |]];
  simpl; rewrite ?elem_of_cons, elem_of_nil; naive_solver.

(** The runs of [postSnap], one goal for each way through the handler and
    the action it dispatches to. *)
Ltac postSnap_cases :=
  unfold postSnap;
  destruct (router_Get _ stateChangeCmd_Path); simpl;
  [ destruct (decodeSnapInstruction _) as [? | ?]; simpl;
    [ unfold dispatch, snapInstructionDispTable; simpl;
      repeat (case_bool_decide; simpl);
      unfold snapInstall, snapUpdate, snapRemove, snapRevert, snapEnable,
        snapDisable, withEnsureUbuntuCore, ensureUbuntuCore, newChange,
        NewChange, Change_update;
      run_steps;
      repeat (case_match; simpl in *; simplify_eq)
    | ]
  | ];
  intros [= <- <-].

Section more.
Context {B : Backend} {L : regexp.Lib}.

(** X12. [modeFlags] gives flags exactly in three cases: jailmode alone,
    where the platform does not force devmode, gives the jailmode flag;
    without jailmode, devmode asked for or forced gives the devmode flag,
    and neither gives no flag.  So the flags never hold devmode and
    jailmode together. *)
Theorem modeFlags_OK_iff (devMode jailMode : bool) (flags : Z) :
  modeFlags devMode jailMode = OK flags ↔
    (jailMode = true ∧ devMode = false ∧ ForceDevMode = false
     ∧ flags = snapstate_JailMode)
    ∨ (jailMode = false ∧ (devMode = true ∨ ForceDevMode = true)
       ∧ flags = snapstate_DevMode)
    ∨ (jailMode = false ∧ devMode = false ∧ ForceDevMode = false
       ∧ flags = 0).
Proof.
  unfold modeFlags.
  destruct jailMode, devMode, ForceDevMode; simpl; naive_solver.
Qed.

(** X13. Installing a snap on a system that has no ubuntu-core yet:
    [snapInstall] asks for ubuntu-core from the stable channel first, and
    answers with two task-sets, that of ubuntu-core and then that of the
    snap, in which every task waits for every task of ubuntu-core. *)
Theorem snapInstall_core_first (inst : snapInstruction Revision) (st : State)
    (flags : Z) (coreTs ts : TaskSet) :
  Snaps_0 inst ≠ "ubuntu-core" →
  modeFlags (DevMode inst) (JailMode inst) = OK flags →
  snapstateGet st "ubuntu-core" = GetErrNoState →
  snapstateInstall st "ubuntu-core" "stable" snap_R0 (userID inst) 0
    = OK coreTs →
  snapstateInstall st (Snaps_0 inst) (Channel inst) (Revision_ inst)
    (userID inst) flags = OK ts →
  ∃ msg ts',
    run (snapInstall inst) st
      = (OK (msg, [coreTs; ts']),
         {| World_state := st;
            World_calls := [CNoticef; CSnapstateGet "ubuntu-core";
                            CBuildTaskSet "Install" ["ubuntu-core"];
                            CBuildTaskSet "Install" [Snaps_0 inst]] |}) ∧
    Task_ID <$> ts' = Task_ID <$> ts ∧
    ∀ t u, t ∈ ts' → u ∈ coreTs → Task_ID u ∈ Task_WaitTasks t.
Proof.
  intros Hname Hflags Hget Hcore Hinstall.
  eexists _, (TaskSet_WaitAll ts coreTs). split; [| split].
  - unfold snapInstall. rewrite Hflags.
    unfold withEnsureUbuntuCore, ensureUbuntuCore.
    rewrite bool_decide_false by done. run_steps.
    rewrite Hget. simpl. rewrite Hcore. simpl. rewrite Hinstall. reflexivity.
  - unfold TaskSet_WaitAll. rewrite <- list_fmap_compose.
    by apply list_fmap_ext.
  - intros t u Ht Hu. unfold TaskSet_WaitAll in Ht.
    apply list_elem_of_fmap in Ht as (t0 & -> & _). simpl.
    apply elem_of_app. right. by apply list_elem_of_fmap_2.
Qed.

(** X14. Where ubuntu-core is the snap asked for, or is installed
    already, [snapInstall] answers with the one task-set of the snap; where
    the state of ubuntu-core cannot be read, it fails with that error and
    has not asked for any installation. *)
Theorem snapInstall_core_present (inst : snapInstruction Revision) (st : State)
    (flags : Z) :
  modeFlags (DevMode inst) (JailMode inst) = OK flags →
  (Snaps_0 inst = "ubuntu-core" ∨ snapstateGet st "ubuntu-core" = GetNil →
   ∀ ts,
     snapstateInstall st (Snaps_0 inst) (Channel inst) (Revision_ inst)
       (userID inst) flags = OK ts →
     ∃ msg w, run (snapInstall inst) st = (OK (msg, [ts]), w)) ∧
  (Snaps_0 inst ≠ "ubuntu-core" →
   ∀ err,
     snapstateGet st "ubuntu-core" = GetErrOther err →
     run (snapInstall inst) st
       = (Err err,
          {| World_state := st;
             World_calls := [CNoticef; CSnapstateGet "ubuntu-core"] |})).
Proof.
  intros Hflags. split.
  - intros Hcore ts Hinstall. unfold snapInstall. rewrite Hflags.
    unfold withEnsureUbuntuCore, ensureUbuntuCore.
    case_bool_decide as Hname.
    + run_steps. rewrite Hinstall. by eexists _, _.
    + destruct Hcore as [? | Hget]; [done |]. run_steps. rewrite Hget.
      simpl. rewrite Hinstall. by eexists _, _.
  - intros Hname err Hget. unfold snapInstall. rewrite Hflags.
    unfold withEnsureUbuntuCore, ensureUbuntuCore.
    rewrite bool_decide_false by done. run_steps. by rewrite Hget.
Qed.

(** X15. What [postSnap] leaves behind.  Either it answers with an error
    and the state is as it was, with no wake-up of the state engine asked
    for; or it answers 202 with the id of a new change, which is the next
    id of the state, and the state is the former one with that one change
    more: of kind [<action>-snap], in the status of a new change, with the
    name of the snap under ["snap-names"] as its only data; the state
    engine has then been asked to run. *)
Theorem postSnap_effect (c : Command) (r : Request) (user : option UserState)
    (st : State) (rsp : Response) (w : World) :
  run (postSnap c r user) st = (rsp, w) →
  (Type_ rsp = ResponseTypeError ∧ World_state w = st
   ∧ CEnsureBefore 0 ∉ World_calls w)
  ∨ (∃ inst summary tasks,
       decodeSnapInstruction (Body r) = OK inst ∧
       rsp = AsyncResponse RNil (Some {| Meta_Change := next_id st |}) ∧
       World_state w
         = with_new_change st
             (fresh_change st (Action inst +:+ "-snap") summary DoStatus
                tasks
                [("snap-names", VList [VString (Vars_at (Vars r) "name")])]) ∧
       CEnsureBefore 0 ∈ World_calls w).
Proof.
  postSnap_cases.
  all: try refused.
  all: right; destruct user; simpl in *.
  all: eexists _, _, _; split; [done |]; split; [done |].
  all: split; [| rewrite !elem_of_cons; naive_solver].
  all: rewrite !alter_insert_eq; reflexivity.
Qed.

(** [newChange] adds one change to the state, with the tasks of the
    task-sets in their order, and the names when there are some. *)
Lemma newChange_loop (id : string) (tsets : list TaskSet) :
  ∀ (st : State) (calls : list Call) (chg : Change),
    (fix loop (tsets : list TaskSet) : M unit :=
       match tsets with
       | [] => mret tt
       | ts :: tsets' =>
           Change_update id (λ c, Change_AddAll c ts);; loop tsets'
       end) tsets
      {| World_state := with_change st id chg; World_calls := calls |}
    = (tt, {| World_state :=
                with_change st id
                  {| Change_ID := Change_ID chg; Change_Kind := Change_Kind chg;
                     Change_Summary := Change_Summary chg;
                     Change_status := Change_status chg;
                     Change_Tasks := Change_Tasks chg ++ List.concat tsets;
                     Change_Data := Change_Data chg |};
              World_calls := calls |}).
Proof.
  induction tsets as [| ts tsets IH]; intros st calls chg.
  - simpl. rewrite app_nil_r. by destruct chg.
  - simpl List.concat. rewrite app_assoc.
    etransitivity; [| exact (IH st calls (Change_AddAll chg ts))].
    unfold Change_update, with_change. run_steps.
    by rewrite alter_insert_eq.
Qed.

Lemma newChange_run (kind summary : string) (tsets : list TaskSet)
    (snapNames : list string) (st : State) (calls : list Call) :
  newChange kind summary tsets snapNames
    {| World_state := st; World_calls := calls |}
  = (next_id st,
     {| World_state :=
          with_new_change st
            (fresh_change st kind summary DoStatus (List.concat tsets)
               match snapNames with
               | [] => []
               | _ => [("snap-names", VList (VString <$> snapNames))]
               end);
        World_calls := calls ++ [CNewChange kind summary] |}).
Proof.
  unfold newChange, NewChange. run_steps.
  pose proof (newChange_loop (strconv.Itoa (State_lastID st + 1)) tsets
                {| State_changes := State_changes st;
                   State_lastID := State_lastID st + 1;
                   State_users := State_users st |}
                (calls ++ [CNewChange kind summary])
                {| Change_ID := strconv.Itoa (State_lastID st + 1);
                   Change_Kind := kind; Change_Summary := summary;
                   Change_status := DoStatus; Change_Tasks := [];
                   Change_Data := [] |}) as Hloop.
  unfold with_change in Hloop.
  unfold run, locked, call, getState, putState, ensureStateSoon,
    mbind, M_bind, mret, M_ret, fmap, M_fmap in Hloop.
  simpl in Hloop. rewrite Hloop.
  destruct snapNames; simpl.
  - reflexivity.
  - unfold Change_update. run_steps. by rewrite alter_insert_eq.
Qed.

#[local] Arguments newChange : simpl never.

(** X16. What [snapsOp] leaves behind.  Either it answers with an error
    and the state is as it was; or the action is one of refresh, install
    and remove, [snapstate.UpdateMany] (after the snap declarations were
    refreshed), [snapstate.InstallMany] or [snapstate.RemoveMany]
    respectively returned the names [affected] and the task-sets [tsets]
    for the snaps and the user of the instruction, and the handler answers
    202 with the id of a new change, and the state is the former one with
    that one change more, which holds the tasks of the task-sets returned,
    in their order, has the summary the handler made from the names of the
    request, and the names returned under ["api-data"].  Where no task-set
    was returned the change is marked done, holds no other data and the
    state engine is left alone; where there is one, the state engine has
    been asked to run and, where names were returned, the change holds them
    under ["snap-names"] too. *)
Theorem snapsOp_effect (c : Command) (r : Request) (user : option UserState)
    (st : State) (rsp : Response) (w : World) :
  run (snapsOp c r user) st = (rsp, w) →
  (Type_ rsp = ResponseTypeError ∧ World_state w = st
   ∧ CEnsureBefore 0 ∉ World_calls w)
  ∨ (∃ inst summary affected tsets data,
       decodeSnapInstruction (Body r) = OK inst ∧
       Action inst ∈ ["refresh"; "install"; "remove"] ∧
       (let inst' := with_user inst user in
        (Action inst = "refresh" ∧
         assertstateRefreshSnapDeclarations st (userID inst') = None ∧
         snapstateUpdateMany st (Snaps inst') (userID inst')
           = OK (affected, tsets) ∧
         summary = match Snaps inst' with
                   | [] => "Refresh all snaps in the system"
                   | [name] => "Refresh snap " +:+ strconv_Quote name
                   | _ => manyMsg "Refresh" (Snaps inst')
                   end)
        ∨ (Action inst = "install" ∧
           snapstateInstallMany st (Snaps inst') (userID inst')
             = OK (affected, tsets) ∧
           Snaps inst' ≠ [] ∧
           summary = match Snaps inst' with
                     | [name] => "Install snap " +:+ strconv_Quote name
                     | _ => manyMsg "Install" (Snaps inst')
                     end)
        ∨ (Action inst = "remove" ∧
           snapstateRemoveMany st (Snaps inst') = OK (affected, tsets) ∧
           Snaps inst' ≠ [] ∧
           summary = match Snaps inst' with
                     | [name] => "Remove snap " +:+ strconv_Quote name
                     | _ => manyMsg "Remove" (Snaps inst')
                     end)) ∧
       rsp = AsyncResponse RNil (Some {| Meta_Change := next_id st |}) ∧
       World_state w
         = with_new_change st
             (fresh_change st (Action inst +:+ "-snap") summary
                (match tsets with [] => DoneStatus | _ => DoStatus end)
                (List.concat tsets) data) ∧
       index_string_map data "api-data"
         = VMapS [("snap-names", VList (VString <$> affected))] ∧
       (tsets ≠ [] → affected ≠ [] →
        index_string_map data "snap-names" = VList (VString <$> affected)) ∧
       (∀ k, k ∈ data.*1 → k = "api-data" ∨ k = "snap-names" ∧ tsets ≠ []) ∧
       (CEnsureBefore 0 ∈ World_calls w ↔ tsets ≠ [])).
Proof.
  unfold snapsOp.
  destruct (router_Get (d c) stateChangeCmd_Path); simpl;
    [| intros [= <- <-]; refused].
  destruct (decodeSnapInstruction (Body r)) as [inst | err]; simpl;
    [| intros [= <- <-]; refused].
  case_match; [intros [= <- <-]; refused |].
  assert (Action (with_user inst user) = Action inst) as Haction
    by by destruct user.
  rewrite Haction.
  unfold snapUpdateMany, snapInstallMany, snapRemoveMany.
  repeat case_bool_decide; run_steps.
  all: repeat (case_match; simpl in *; simplify_eq).
  all: try (intros [= <- <-]; refused).
  all: try match goal with
           | H : newChange _ _ _ _ _ = _ |- _ =>
               rewrite newChange_run in H; simplify_eq
           end.
  all: simpl; intros [= <- <-]; right.
  all: match goal with
       | H : _ = OK (?affected, ?tsets) |- _ =>
           eexists inst, _, affected, tsets, _
       end.
  all: split; [done |].
  all: split; [rewrite !elem_of_cons; by auto |].
  all: (split;
         [match goal with H : Snaps _ = _ |- _ => rewrite !H end;
          first [ left; repeat (split; [done |]); reflexivity
                | right; left; repeat (split; [done |]); reflexivity
                | right; right; repeat (split; [done |]); reflexivity ] |]).
  all: split; [reflexivity |].
  all: unfold with_new_change, fresh_change, next_id; simpl.
  all: rewrite !alter_insert_eq.
  all: split; [reflexivity |].
  all: split; [reflexivity |].
  all: (split;
         [intros ? Haffected;
          first
            [ done
            | match goal with
              | |- context [VString <$> ?l] => destruct l; [done | reflexivity]
              end ]
         |]).
  all: (split;
         [intros k Hk;
          apply list_elem_of_fmap in Hk as [[k' v] [-> Hk]];
          apply elem_of_cons in Hk as [[= -> ->] | Hk]; [by left |];
          apply list_elem_of_filter in Hk as [_ Hk]; simpl in Hk;
          first
            [ by apply elem_of_nil in Hk
            | match type of Hk with
              | context [VString <$> ?l] => destruct l
              end;
              [by apply elem_of_nil in Hk
              | apply list_elem_of_singleton in Hk as [= -> ->]; by right] ]
         |]).
  all: rewrite !elem_of_cons, elem_of_nil.
  all: intuition (try done; try discriminate).
Qed.

(** [m[k] = a] on a map without duplicate keys. *)
Lemma map_assign_fst {A} (m : list (string * A)) k a k' :
  k' ∈ (map_assign m k a).*1 ↔ k' = k ∨ k' ∈ m.*1.
Proof.
  induction m as [| [k0 a0] m IH]; simpl.
  - rewrite list_elem_of_singleton, elem_of_nil. naive_solver.
  - case_bool_decide; simpl; rewrite !elem_of_cons; [naive_solver |].
    rewrite IH. naive_solver.
Qed.

Lemma map_assign_NoDup {A} (m : list (string * A)) k a :
  NoDup m.*1 → NoDup (map_assign m k a).*1.
Proof.
  induction m as [| [k0 a0] m IH]; simpl.
  - intros _. apply NoDup_singleton.
  - rewrite NoDup_cons. intros [Hk0 Hm]. case_bool_decide; simpl.
    + subst. by apply NoDup_cons.
    + apply NoDup_cons. split; [| by apply IH].
      rewrite map_assign_fst. naive_solver.
Qed.

Lemma map_assign_elem {A} (m : list (string * A)) k a k' a' :
  NoDup m.*1 →
  (k', a') ∈ map_assign m k a ↔ (k' = k ∧ a' = a) ∨ (k' ≠ k ∧ (k', a') ∈ m).
Proof.
  induction m as [| [k0 a0] m IH]; simpl.
  - intros _. rewrite list_elem_of_singleton, elem_of_nil. naive_solver.
  - rewrite NoDup_cons. intros [Hk0 Hm]. case_bool_decide; simpl.
    + subst. rewrite !elem_of_cons. split; [| naive_solver].
      intros [? | Hin]; [naive_solver |]. right. split; [| by right].
      intros ->. apply Hk0. by apply (list_elem_of_fmap_2 fst) in Hin.
    + rewrite !elem_of_cons, IH by done. naive_solver.
Qed.

Lemma getSnapConf_loop_OK (st : State) (snapName : string) (keys : list string) :
  Forall (λ k, is_OK (transaction_Get st snapName k) = true) keys →
  ∀ acc w,
    NoDup acc.*1 →
    (∀ k v, (k, v) ∈ acc → transaction_Get st snapName k = OK v) →
    ∃ conf,
      getSnapConf_loop st snapName keys acc w
        = (SyncResponse (SyncOfPayload (RConf conf)) None,
           {| World_state := World_state w;
              World_calls :=
                World_calls w ++ (CTransactionGet snapName <$> keys) |}) ∧
      NoDup conf.*1 ∧
      ∀ k v, (k, v) ∈ conf ↔
             (k, v) ∈ acc ∨ (k ∈ keys ∧ transaction_Get st snapName k = OK v).
Proof.
  induction 1 as [| key keys Hkey _ IH]; intros acc w Hacc Hget.
  - exists acc. simpl. rewrite app_nil_r. split; [by destruct w |].
    split; [done |]. intros k v. rewrite elem_of_nil. naive_solver.
  - simpl. run_steps.
    destruct (transaction_Get st snapName key) as [value | err] eqn:Hvalue;
      [| done].
    edestruct (IH (map_assign acc key value)
                 {| World_state := World_state w;
                    World_calls :=
                      World_calls w ++ [CTransactionGet snapName key] |})
      as (conf & -> & Hconf & Hin).
    { by apply map_assign_NoDup. }
    { intros k v. rewrite map_assign_elem by done. naive_solver. }
    exists conf. simpl. rewrite <- app_assoc. split; [done |].
    split; [done |]. intros k v. rewrite Hin, map_assign_elem by done.
    rewrite elem_of_cons. split; [naive_solver |].
    intros [Hk | [[-> | Hk] Hv]];
      [| left; left; split; [done | congruence] | by right].
    destruct (decide (k = key)) as [-> | ?]; [| by left; right].
    apply Hget in Hk. left. left. split; [done | congruence].
Qed.

Lemma getSnapConf_loop_Err (st : State) (snapName : string)
    (pre : list string) (key : string) (post : list string) (err : string) :
  Forall (λ k, is_OK (transaction_Get st snapName k) = true) pre →
  transaction_Get st snapName key = Err err →
  ∀ acc w,
    getSnapConf_loop st snapName (pre ++ key :: post) acc w
      = (BadRequest err,
         {| World_state := World_state w;
            World_calls :=
              World_calls w ++ (CTransactionGet snapName <$> pre ++ [key]) |}).
Proof.
  intros Hpre Hkey. induction Hpre as [| k pre Hk _ IH]; intros acc w.
  - simpl. run_steps. by rewrite Hkey.
  - simpl. run_steps.
    destruct (transaction_Get st snapName k) as [value | ?]; [| done].
    rewrite IH. simpl. by rewrite <- app_assoc.
Qed.

(** X17. [getSnapConf] answers all or nothing, and leaves the state as it
    was.  Where every key asked for has a value, the answer is the
    configuration that holds exactly those keys, each once, with their
    values.  Where a key has none, the answer is 400 with the error of the
    first such key, and the keys behind it have not been looked up. *)
Theorem getSnapConf_all_or_nothing (c : Command) (r : Request)
    (user : option UserState) (st : State) :
  (Forall (λ k, is_OK (transaction_Get st (Vars_at (Vars r) "name") k) = true)
     (gostrings.Split (Values_Get (URL_Query r) "keys") ",") →
   ∃ conf,
     run (getSnapConf c r user) st
       = (SyncResponse (SyncOfPayload (RConf conf)) None,
          {| World_state := st;
             World_calls :=
               [CLock; CNewTransaction; CUnlock]
               ++ (CTransactionGet (Vars_at (Vars r) "name")
                     <$> gostrings.Split (Values_Get (URL_Query r) "keys") ",")
          |}) ∧
     NoDup conf.*1 ∧
     ∀ k v, (k, v) ∈ conf ↔
            k ∈ gostrings.Split (Values_Get (URL_Query r) "keys") "," ∧
            transaction_Get st (Vars_at (Vars r) "name") k = OK v) ∧
  (∀ pre key post err,
     gostrings.Split (Values_Get (URL_Query r) "keys") ","
       = pre ++ key :: post →
     Forall (λ k, is_OK (transaction_Get st (Vars_at (Vars r) "name") k) = true)
       pre →
     transaction_Get st (Vars_at (Vars r) "name") key = Err err →
     run (getSnapConf c r user) st
       = (BadRequest err,
          {| World_state := st;
             World_calls :=
               [CLock; CNewTransaction; CUnlock]
               ++ (CTransactionGet (Vars_at (Vars r) "name")
                     <$> pre ++ [key]) |})).
Proof.
  assert (∀ s, bool_decide (List.length (gostrings.Split s ",") = 0%nat)
               = false) as Hlen.
  { intros s. apply bool_decide_false. intros Hnil.
    apply nil_length_inv in Hnil.
    by apply (daemon_facts.Split_from_not_nil "," s 0 "") in Hnil. }
  split.
  - intros Hkeys. unfold getSnapConf. rewrite Hlen. run_steps.
    edestruct (getSnapConf_loop_OK st _ _ Hkeys []
                 {| World_state := st;
                    World_calls := [CLock; CNewTransaction; CUnlock] |})
      as (conf & -> & Hconf & Hin).
    { apply NoDup_nil_2. }
    { intros k v. by rewrite elem_of_nil. }
    exists conf. split; [done |]. split; [done |].
    intros k v. rewrite Hin, elem_of_nil. naive_solver.
  - intros pre key post err Hsplit Hpre Hkey.
    unfold getSnapConf. rewrite Hlen, Hsplit. run_steps.
    by rewrite (getSnapConf_loop_Err st _ pre key post err Hpre Hkey).
Qed.

(** X18. What [changeInterfaces] leaves behind.  Either it answers with an
    error and the state is as it was; or the request names one plug and
    one slot and the action connect or disconnect, the tasks were built for
    that plug and that slot, and it answers 202 with the id of a new
    change: the state is the former one with that one change more, of kind
    [<action>-snap], which holds those tasks, the two snaps under
    ["snap-names"], and a summary that names the plug and the slot; the
    state engine has then been asked to run. *)
Theorem changeInterfaces_effect (c : Command) (r : Request)
    (user : option UserState) (st : State) (rsp : Response) (w : World) :
  run (changeInterfaces c r user) st = (rsp, w) →
  (Type_ rsp = ResponseTypeError ∧ World_state w = st
   ∧ CEnsureBefore 0 ∉ World_calls w)
  ∨ (∃ a plug slot taskset summary,
       decodeInterfaceAction (Body r) = OK a ∧
       Plugs a = [plug] ∧ Slots a = [slot] ∧
       (interfaceAction_Action a = "connect" ∧
        ifacestate_Connect st (plugJSON_Snap plug) (plugJSON_Name plug)
          (slotJSON_Snap slot) (slotJSON_Name slot) = OK taskset ∧
        summary = "Connect "
                  +:+ (plugJSON_Snap plug +:+ ":" +:+ plugJSON_Name plug)
                  +:+ " to "
                  +:+ (slotJSON_Snap slot +:+ ":" +:+ slotJSON_Name slot)
        ∨ interfaceAction_Action a = "disconnect" ∧
          ifacestate_Disconnect st (plugJSON_Snap plug) (plugJSON_Name plug)
            (slotJSON_Snap slot) (slotJSON_Name slot) = OK taskset ∧
          summary = "Disconnect "
                    +:+ (plugJSON_Snap plug +:+ ":" +:+ plugJSON_Name plug)
                    +:+ " from "
                    +:+ (slotJSON_Snap slot +:+ ":" +:+ slotJSON_Name slot)) ∧
       rsp = AsyncResponse RNil (Some {| Meta_Change := next_id st |}) ∧
       World_state w
         = with_new_change st
             (fresh_change st (interfaceAction_Action a +:+ "-snap") summary
                DoStatus taskset
                [("snap-names", VList [VString (plugJSON_Snap plug);
                                       VString (slotJSON_Snap slot)])]) ∧
       CEnsureBefore 0 ∈ World_calls w).
Proof.
  unfold changeInterfaces, Plugs_0, Slots_0.
  destruct (decodeInterfaceAction (Body r)) as [a | err]; simpl;
    [| intros [= <- <-]; refused].
  repeat (case_match; [intros [= <- <-]; refused |]).
  repeat match goal with
         | H : _ || _ = false |- _ => apply orb_false_elim in H as [? ?]
         | H : bool_decide _ = false |- _ => apply bool_decide_eq_false in H
         end.
  destruct (Plugs a) as [| plug [| ? ?]] eqn:Hplugs; simpl in *; try lia.
  destruct (Slots a) as [| slot [| ? ?]] eqn:Hslots; simpl in *; try lia.
  unfold NewChange, Change_update. run_steps.
  repeat (case_match; simpl in *; simplify_eq).
  all: intros [= <- <-]; try refused.
  all: right; eexists a, plug, slot, _, _.
  all: do 3 (split; [done |]).
  all: split;
    [| split; [reflexivity |];
       split; [simpl; by rewrite !alter_insert_eq
              | simpl; rewrite !elem_of_cons; auto 10]].
  - left. by apply bool_decide_eq_true in H6.
  - right. split; [| done].
    apply bool_decide_eq_false in H6.
    rewrite (bool_decide_true _ H6) in H2. simpl in H2.
    by apply bool_decide_eq_false, dec_stable in H2.
Qed.

(** X19. What [abortChange] leaves behind.  Either it answers with an
    error and the state is as it was; or the state held the change under
    the id of the request, the change was not Ready, and the answer is 200
    with the description of the aborted change: the state is the former one
    with that change aborted, every other change, the last id and the users
    being as they were; the state engine has then been asked to run. *)
Theorem abortChange_effect (c : Command) (r : Request)
    (user : option UserState) (st : State) (rsp : Response) (w : World) :
  run (abortChange c r user) st = (rsp, w) →
  (Type_ rsp = ResponseTypeError ∧ World_state w = st
   ∧ CEnsureBefore 0 ∉ World_calls w)
  ∨ (∃ chg,
       State_Change st (Vars_at (Vars r) "id") = Some chg ∧
       Change_Ready chg = false ∧
       decodeAction (Body r) = OK "abort" ∧
       rsp = SyncResponse
               (SyncOfPayload (RChangeInfo (change2changeInfo (Change_Abort chg))))
               None ∧
       World_state w = with_change st (Vars_at (Vars r) "id") (Change_Abort chg) ∧
       (∀ id, id ≠ Vars_at (Vars r) "id" →
              State_Change (World_state w) id = State_Change st id) ∧
       CEnsureBefore 0 ∈ World_calls w).
Proof.
  unfold abortChange, Change_update. run_steps.
  destruct (State_Change st (Vars_at (Vars r) "id")) as [chg |] eqn:Hchg;
    simpl; [| intros [= <- <-]; refused].
  destruct (decodeAction (Body r)) as [action | err]; simpl;
    [| intros [= <- <-]; refused].
  case_bool_decide as Haction; simpl; [intros [= <- <-]; refused |].
  subst action.
  destruct (Change_Ready chg) eqn:Hready; simpl;
    intros [= <- <-]; [refused |].
  right. exists chg. do 4 (split; [done |]). simpl.
  assert (alter Change_Abort (Vars_at (Vars r) "id") (State_changes st)
          = <[Vars_at (Vars r) "id" := Change_Abort chg]> (State_changes st))
    as ->.
  { rewrite alter_alt. unfold State_Change in Hchg. by rewrite Hchg. }
  split; [done |]. split.
  - intros id Hid. unfold State_Change. simpl. by rewrite lookup_insert_ne.
  - rewrite !elem_of_cons. auto 10.
Qed.

(** X20. What [loginUser] leaves behind.  Either it answers with an error
    and the state is as it was; or the username looked like an email
    address, the store accepted the login, and the answer is 200 with the
    macaroon and the discharge of the store: the state is then the former
    one with one more user, of that name, who holds that macaroon and that
    discharge, and the store was asked once. *)
Theorem loginUser_effect (rx : Regexp) (c : Command) (r : Request)
    (user : option UserState) (st : State) (rsp : Response) (w : World) :
  run (loginUser rx c r user) st = (rsp, w) →
  (Type_ rsp = ResponseTypeError ∧ World_state w = st)
  ∨ (∃ data macaroon discharge,
       decodeLoginData (Body r) = OK data ∧
       isEmailish rx (loginData_Username data) = true ∧
       store_LoginUser (loginData_Username data) (loginData_Password data)
         (loginData_Otp data) = OK (macaroon, discharge) ∧
       rsp = SyncResponse
               (SyncOfPayload
                  (RLogin {| loginResponseData_Macaroon := macaroon;
                             loginResponseData_Discharges := [discharge] |}))
               None ∧
       (∃ id,
          State_users (World_state w)
          = State_users st
            ++ [{| ID := id;
                   Username := loginData_Username data;
                   Macaroon := macaroon;
                   Discharges := [discharge] |}]) ∧
       State_changes (World_state w) = State_changes st ∧
       World_calls w
         = [CStoreLoginUser (loginData_Username data)
              (loginData_Password data) (loginData_Otp data);
            CLock; CAuthNewUser (loginData_Username data); CUnlock]).
Proof.
  unfold loginUser.
  destruct (decodeLoginData (Body r)) as [data | err]; simpl;
    [| intros [= <- <-]; left; by destruct st].
  destruct (isEmailish rx (loginData_Username data)) eqn:Hemail; simpl;
    [| intros [= <- <-]; left; by destruct st].
  run_steps.
  destruct (store_LoginUser (loginData_Username data)
              (loginData_Password data) (loginData_Otp data))
    as [[macaroon discharge] | []] eqn:Hstore; simpl;
    try (intros [= <- <-]; left; by destruct st).
  destruct (auth_NewUser_err st (loginData_Username data)); simpl;
    intros [= <- <-]; [left; by destruct st |].
  right. exists data, macaroon, discharge.
  do 4 (split; [done |]). split; [by eexists | done].
Qed.

End more.

(** The properties on the reference backends. *)
Import refdaemon.

Lemma snapInstall_core_first_witness :
  ∃ msg tsets,
    (run (snapInstall (B := backend_no_core) install_foo) empty_state).1
      = OK (msg, tsets) ∧
    List.length tsets = 2%nat.
Proof.
  destruct (snapInstall_core_first (B := backend_no_core) install_foo
              empty_state 0 (one_task "install" "ubuntu-core")
              (one_task "install" "foo"))
    as (msg & ts' & Hrun & _); [vm_compute; intros [=] | reflexivity ..|].
  exists msg, [one_task "install" "ubuntu-core"; ts']. by rewrite Hrun.
Defined.

Lemma snapInstall_core_present_witness :
  ∃ msg,
    (run (snapInstall (B := backend false) install_foo) empty_state).1
      = OK (msg, [one_task "install" "foo"]).
Proof.
  destruct (proj1 (snapInstall_core_present (B := backend false) install_foo
                     empty_state 0 eq_refl) (or_intror eq_refl)
              (one_task "install" "foo") eq_refl)
    as (msg & w & Hrun).
  exists msg. by rewrite Hrun.
Defined.

Lemma postSnap_effect_witness :
  State_lastID
    (World_state
       (run (postSnap (B := backend_no_core) (command snapCmd_Path false)
               (request_no_core install_body [("name", "foo")] []) None)
          empty_state).2)
  ∈ [0; 1].
Proof.
  destruct (postSnap_effect (B := backend_no_core)
              (command snapCmd_Path false)
              (request_no_core install_body [("name", "foo")] []) None
              empty_state _ _ (surjective_pairing _))
    as [(_ & -> & _) | (inst & summary & tasks & _ & _ & -> & _)]; simpl;
    rewrite !elem_of_cons; auto.
Defined.

Lemma snapsOp_effect_witness :
  State_lastID
    (World_state
       (run (snapsOp (B := backend false) (command snapsCmd_Path false)
               (request false install_two [] []) None) empty_state).2)
  ∈ [0; 1].
Proof.
  destruct (snapsOp_effect (B := backend false) (command snapsCmd_Path false)
              (request false install_two [] []) None empty_state _ _
              (surjective_pairing _))
    as [(_ & -> & _)
       | (inst & summary & affected & tsets & data
          & _ & _ & _ & _ & -> & _)];
    simpl; rewrite !elem_of_cons; auto.
Defined.

Lemma getSnapConf_all_or_nothing_witness :
  ∃ conf,
    (run (getSnapConf (B := backend_no_core) (command snapConfCmd_Path false)
            (request_no_core VNil [("name", "foo")] [("keys", ["port"])])
            None) empty_state).1
      = SyncResponse (SyncOfPayload (RConf conf)) None ∧
    ∀ k v, (k, v) ∈ conf ↔ k ∈ ["port"] ∧ v = VInt 8080.
Proof.
  destruct (proj1 (getSnapConf_all_or_nothing (B := backend_no_core)
                     (command snapConfCmd_Path false)
                     (request_no_core VNil [("name", "foo")]
                        [("keys", ["port"])])
                     None empty_state))
    as (conf & Hrun & _ & Hconf).
  { by repeat constructor. }
  exists conf. split; [by rewrite Hrun |].
  intros k v. rewrite Hconf. change (gostrings.Split _ _) with ["port"].
  split.
  - intros [Hk Hv]. split; [done |].
    apply list_elem_of_singleton in Hk as ->. by injection Hv as <-.
  - intros [Hk ->]. split; [done |].
    by apply list_elem_of_singleton in Hk as ->.
Defined.

Lemma changeInterfaces_effect_witness :
  State_lastID
    (World_state
       (run (changeInterfaces (B := backend false)
               (command interfacesCmd_Path false)
               (request false connect_one [] []) None) empty_state).2)
  ∈ [0; 1].
Proof.
  destruct (changeInterfaces_effect (B := backend false)
              (command interfacesCmd_Path false)
              (request false connect_one [] []) None empty_state _ _
              (surjective_pairing _))
    as [(_ & -> & _)
       | (a & plug & slot & taskset & summary & _ & _ & _ & _ & _ & -> & _)];
    simpl; rewrite !elem_of_cons; auto.
Defined.

Lemma abortChange_effect_witness :
  State_lastID
    (World_state
       (run (abortChange (B := backend false)
               (command stateChangeCmd_Path false)
               (request false abort_body [("id", "1")] []) None)
          (state_with_task DoingStatus)).2)
  = 1.
Proof.
  destruct (abortChange_effect (B := backend false)
              (command stateChangeCmd_Path false)
              (request false abort_body [("id", "1")] []) None
              (state_with_task DoingStatus) _ _ (surjective_pairing _))
    as [(_ & -> & _) | (chg & _ & _ & _ & _ & -> & _)]; reflexivity.
Defined.

Lemma loginUser_effect_witness :
  (List.length
     (State_users
        (World_state
           (run (loginUser (B := backend false) (L := refregexp.lib)
                   isEmailish_rx (command loginCmd_Path false)
                   (request false login_email [] []) None) empty_state).2))
   ≤ 1)%nat.
Proof.
  destruct (loginUser_effect (B := backend false) (L := refregexp.lib)
              isEmailish_rx (command loginCmd_Path false)
              (request false login_email [] []) None empty_state _ _
              (surjective_pairing _))
    as [(_ & ->)
       | (data & macaroon & discharge & _ & _ & _ & _ & (id & ->) & _)];
    simpl; lia.
Defined.

End daemon_more.

(** * Properties of [UserFromRequest] *)
Module daemon_auth_more.
Import state daemon_auth.
#[local] Set Warnings "-clear-no-such-hyp".
#[local] Arguments String.append !_ _ /.

Section more.
Context (TrimSpace : string → string).
Context (CheckMacaroon :
           State → string → list string → result authError UserState).

(** X21. [UserFromRequest] asks [auth.CheckMacaroon] only with a root
    macaroon that is not empty and at least one discharge, and then answers
    what the check answers; otherwise it fails with one of its three
    errors, whatever the state holds. *)
Theorem UserFromRequest_consults_auth (header : string) :
  (∃ err,
     err ∈ [ErrInvalidAuth;
            authErrorf "authorization header misses Macaroon prefix";
            authErrorf "invalid authorization header"] ∧
     ∀ st, UserFromRequest TrimSpace CheckMacaroon st header = Err err)
  ∨ (∃ macaroon discharges,
       macaroon ≠ "" ∧ discharges ≠ [] ∧
       ∀ st, UserFromRequest TrimSpace CheckMacaroon st header
             = CheckMacaroon st macaroon discharges).
Proof.
  unfold UserFromRequest.
  case_bool_decide; [left; eexists; split; [| done]; set_solver |].
  destruct (SplitN_2 " " "" header) as [| a0 [| a1 [| ? ?]]];
    try (left; eexists; split; [| done]; set_solver).
  case_bool_decide; [left; eexists; split; [| done]; set_solver |].
  destruct (parseFields TrimSpace (gostrings.Split a1 ",") "" [])
    as [macaroon discharges].
  case_bool_decide as Hm; simpl;
    [left; eexists; split; [| done]; set_solver |].
  case_bool_decide as Hd; simpl;
    [left; eexists; split; [| done]; set_solver |].
  right. exists macaroon, discharges. split; [done |]. split; [| done].
  by intros ->.
Qed.

Lemma has_byte_app c s1 s2 :
  has_byte c (s1 +:+ s2) = has_byte c s1 || has_byte c s2.
Proof.
  induction s1 as [| a s1 IH]; simpl; [done |].
  by rewrite IH, orb_assoc.
Qed.

Lemma append_nil_r (s : string) : s +:+ "" = s.
Proof. induction s as [| a s IH]; simpl; [done | by rewrite IH]. Qed.

Lemma prefix_empty (s : string) : String.prefix "" s = true.
Proof. by destruct s. Qed.

Lemma Split_from_comma (cur : string) (a : ascii) (s : string) :
  gostrings.Split_from "," 0 cur (String a s)
  = if bool_decide (a = ","%char)
    then cur :: gostrings.Split_from "," 0 "" s
    else gostrings.Split_from "," 0 (cur +:+ String a "") s.
Proof.
  cbn [gostrings.Split_from String.prefix].
  destruct (Ascii.ascii_dec "," a) as [<- | Ha].
  - rewrite bool_decide_true by done. by destruct s.
  - by rewrite bool_decide_false by congruence.
Qed.

Lemma Split_from_no_comma (s1 s2 cur : string) :
  has_byte "," s1 = false →
  gostrings.Split_from "," 0 cur (s1 +:+ s2)
  = gostrings.Split_from "," 0 (cur +:+ s1) s2.
Proof.
  revert cur. induction s1 as [| a s1 IH]; intros cur;
    cbn [has_byte String.append].
  - by rewrite append_nil_r.
  - intros [Ha Hs1]%orb_false_elim.
    rewrite Split_from_comma, Ha, IH by done. by rewrite daemon_facts.append_assoc.
Qed.

Lemma TrimSuffix_app (s : string) (c : ascii) :
  TrimSuffix (s +:+ String c "") c = s.
Proof.
  induction s as [| a s IH]; simpl.
  - by rewrite bool_decide_true.
  - rewrite IH. by destruct s.
Qed.

Lemma Split_fields (discharges : list string) : ∀ cur,
  Forall (λ d, has_byte "," d = false) discharges →
  gostrings.Split_from "," 0 cur (discharge_fields discharges)
  = cur :: ((λ d, " " +:+ discharge_field d) <$> discharges).
Proof.
  induction discharges as [| d discharges IH]; intros cur; [done |].
  rewrite Forall_cons. intros [Hd Hall].
  change (discharge_fields (d :: discharges))
    with (String "," (String " " (discharge_field d
                                   +:+ discharge_fields discharges))).
  rewrite Split_from_comma, bool_decide_true by done.
  f_equal.
  change (String " " (discharge_field d +:+ discharge_fields discharges))
    with (String " " (discharge_field d) +:+ discharge_fields discharges).
  rewrite (Split_from_no_comma (String " " (discharge_field d))).
  - by rewrite IH.
  - unfold discharge_field. simpl. rewrite has_byte_app, Hd. done.
Qed.

Lemma parseFields_cons field fields macaroon discharges :
  parseFields TrimSpace (field :: fields) macaroon discharges
  = parseFields TrimSpace fields
      (if String.prefix root_prefix (TrimSpace field)
       then TrimSuffix (slice_from 6 (TrimSpace field)) dquote else macaroon)
      (if String.prefix discharge_prefix (TrimSpace field)
       then discharges ++ [TrimSuffix (slice_from 11 (TrimSpace field)) dquote]
       else discharges).
Proof. reflexivity. Qed.

Lemma parseFields_discharges (discharges : list string) :
  Forall (λ d, TrimSpace (" " +:+ discharge_field d) = discharge_field d)
    discharges →
  ∀ macaroon acc,
    parseFields TrimSpace ((λ d, " " +:+ discharge_field d) <$> discharges)
      macaroon acc
    = (macaroon, acc ++ discharges).
Proof.
  induction 1 as [| d discharges Hd _ IH]; intros macaroon acc.
  - simpl. by rewrite app_nil_r.
  - rewrite fmap_cons, parseFields_cons, Hd. simpl. rewrite prefix_empty, TrimSuffix_app, IH.
    by rewrite <- app_assoc.
Qed.

(** X22. A header made of [Macaroon], the root macaroon and the
    discharges, each between double quotes and separated by a comma and a
    space, is read back: [auth.CheckMacaroon] is asked with that macaroon
    and those discharges, in their order. *)
Theorem UserFromRequest_macaroon_header (st : State) (macaroon : string)
    (discharges : list string) :
  macaroon ≠ "" →
  discharges ≠ [] →
  has_byte "," macaroon = false →
  Forall (λ d, has_byte "," d = false) discharges →
  TrimSpace (root_field macaroon) = root_field macaroon →
  Forall (λ d, TrimSpace (" " +:+ discharge_field d) = discharge_field d)
    discharges →
  UserFromRequest TrimSpace CheckMacaroon st
    (macaroon_header macaroon discharges)
  = CheckMacaroon st macaroon discharges.
Proof.
  intros Hm Hds Hcomma Hcommas Hroot Htrim.
  unfold UserFromRequest.
  rewrite bool_decide_false by done.
  assert (SplitN_2 " " "" (macaroon_header macaroon discharges)
          = ["Macaroon"; root_field macaroon +:+ discharge_fields discharges])
    as -> by reflexivity.
  rewrite bool_decide_false by (by intros ?).
  unfold gostrings.Split.
  rewrite (Split_from_no_comma (root_field macaroon)), Split_fields by
    (try done; unfold root_field; simpl; by rewrite has_byte_app, Hcomma).
  change ("" +:+ root_field macaroon) with (root_field macaroon).
  rewrite parseFields_cons, Hroot.
  rewrite (parseFields_discharges discharges Htrim). simpl.
  rewrite prefix_empty, TrimSuffix_app.
  rewrite bool_decide_false by done.
  rewrite bool_decide_false; [done |]. by destruct discharges.
Qed.

End more.

Lemma UserFromRequest_macaroon_header_witness :
  UserFromRequest ref_TrimSpace ref_CheckMacaroon
    {| State_changes := ∅; State_lastID := 0;
       State_users := [{| ID := 1; Username := "user@example.com";
                          Macaroon := "MDAx"; Discharges := ["MDAy"] |}] |}
    (macaroon_header "MDAx" ["MDAy"])
  = OK {| ID := 1; Username := "user@example.com"; Macaroon := "MDAx";
          Discharges := ["MDAy"] |}.
Proof.
  rewrite (UserFromRequest_macaroon_header ref_TrimSpace ref_CheckMacaroon);
    [reflexivity | done | done | reflexivity | by repeat constructor
    | reflexivity | by repeat constructor].
Defined.

End daemon_auth_more.

(** * Properties of [getChange] and [getChanges] *)
Module daemon_changes_more.
Import state daemon daemon_changes.
#[local] Open Scope Z_scope.
#[local] Set Warnings "-clear-no-such-hyp".

Ltac run_steps := daemon_facts.run_steps.

Section more.
Context {B : Backend}.
Context (Changes : State → list Change).
Context (Get_snap_names : Change → result string (list string)).

Lemma getChanges_loop_filter (filter : Change → bool) (chgs : list Change) :
  ∀ chgInfos,
    getChanges_loop filter chgs chgInfos
    = chgInfos
      ++ (change2changeInfo <$> base.filter (λ chg, filter chg = true) chgs).
Proof.
  induction chgs as [| chg chgs IH]; intros chgInfos; simpl.
  - by rewrite app_nil_r.
  - destruct (filter chg) eqn:Hchg; simpl; rewrite IH.
    + rewrite filter_cons_True by done. by rewrite <- app_assoc.
    + rewrite filter_cons_False; [done |]. by rewrite Hchg.
Qed.

Lemma filter_for_spec wantedName outerFilter chg :
  filter_for Get_snap_names wantedName outerFilter chg = true ↔
  outerFilter chg = true ∧
  ∃ snapNames, Get_snap_names chg = OK snapNames ∧ wantedName ∈ snapNames.
Proof.
  unfold filter_for. destruct (outerFilter chg); simpl; [| naive_solver].
  destruct (Get_snap_names chg) as [snapNames | err]; [| naive_solver].
  assert ((fix loop (snapNames : list string) : bool :=
             match snapNames with
             | [] => false
             | snapName :: snapNames' =>
                 if bool_decide (snapName = wantedName) then true
                 else loop snapNames'
             end) snapNames = true ↔ wantedName ∈ snapNames) as ->.
  { induction snapNames as [| snapName snapNames IH].
    - rewrite elem_of_nil. naive_solver.
    - rewrite elem_of_cons. case_bool_decide; naive_solver. }
  naive_solver.
Qed.

(** X23. What [getChanges] lists.  A [select] other than all,
    in-progress and ready is answered 400, with the state not even locked.
    Otherwise the answer describes exactly the changes of the state that
    are ready, for ready; that are not, for in-progress, which is the
    default; and, where [for] names a snap, whose snap names can be read
    and hold that name.  The state is as it was. *)
Theorem getChanges_lists (c : Command) (r : Request)
    (user : option UserState) (st : State) :
  (Values_Get (URL_Query r) "select" ∉ [""; "all"; "in-progress"; "ready"] →
   run (getChanges Changes Get_snap_names c r user) st
     = (Refused (BadRequest "select should be one of: all,in-progress,ready"),
        untouched st)) ∧
  (Values_Get (URL_Query r) "select" ∈ [""; "all"; "in-progress"; "ready"] →
   ∃ infos,
     run (getChanges Changes Get_snap_names c r user) st
       = (Sync infos, only_locked st) ∧
     ∀ info,
       info ∈ infos ↔
       ∃ chg,
         chg ∈ Changes st ∧ info = change2changeInfo chg ∧
         (Values_Get (URL_Query r) "select" = "ready" →
          Change_Ready chg = true) ∧
         (Values_Get (URL_Query r) "select" ∈ [""; "in-progress"] →
          Change_Ready chg = false) ∧
         (Values_Get (URL_Query r) "for" ≠ "" →
          ∃ snapNames,
            Get_snap_names chg = OK snapNames ∧
            Values_Get (URL_Query r) "for" ∈ snapNames)).
Proof.
  unfold getChanges. split.
  - rewrite !elem_of_cons, elem_of_nil. intros Hselect.
    rewrite (bool_decide_false (Values_Get (URL_Query r) "select" = ""))
      by tauto.
    by rewrite !bool_decide_false by tauto.
  - intros Hselect. rewrite !elem_of_cons, elem_of_nil in Hselect.
    destruct Hselect as [Hs | [Hs | [Hs | [Hs | []]]]]; rewrite Hs; simpl;
      (eexists; split; [reflexivity |]);
      intros info; rewrite getChanges_loop_filter; simpl;
      rewrite list_elem_of_fmap; setoid_rewrite list_elem_of_filter;
      case_bool_decide; try setoid_rewrite filter_for_spec;
      unfold filter_all, filter_in_progress, filter_ready;
      try setoid_rewrite negb_true_iff;
      (split; intros (chg & Hchg); exists chg; revert Hchg;
       rewrite ?elem_of_cons, ?elem_of_nil;
       intuition (try discriminate; try congruence; eauto)).
Qed.

Lemma filter_for_andb wantedName outerFilter chg :
  filter_for Get_snap_names wantedName outerFilter chg
  = outerFilter chg && filter_for Get_snap_names wantedName filter_all chg.
Proof. unfold filter_for, filter_all. by destruct (outerFilter chg). Qed.

Lemma filter_split {A} (R g : A → bool) (l : list A) :
  base.filter (λ x, g x = true) l
  ≡ₚ base.filter (λ x, negb (R x) && g x = true) l
     ++ base.filter (λ x, R x && g x = true) l.
Proof.
  induction l as [| x l IH]; [done |].
  destruct (g x) eqn:Hg, (R x) eqn:HR.
  - rewrite (filter_cons_True (λ x, g x = true)) by done.
    rewrite (filter_cons_False (λ x, negb (R x) && g x = true))
      by (by rewrite HR).
    rewrite (filter_cons_True (λ x, R x && g x = true))
      by (by rewrite HR, Hg).
    by rewrite <- Permutation_middle, <- IH.
  - rewrite (filter_cons_True (λ x, g x = true)) by done.
    rewrite (filter_cons_True (λ x, negb (R x) && g x = true))
      by (by rewrite HR, Hg).
    rewrite (filter_cons_False (λ x, R x && g x = true))
      by (by rewrite HR).
    simpl. by rewrite <- IH.
  - rewrite (filter_cons_False (λ x, g x = true)) by (by rewrite Hg).
    rewrite (filter_cons_False (λ x, negb (R x) && g x = true))
      by (by rewrite HR, Hg).
    rewrite (filter_cons_False (λ x, R x && g x = true))
      by (by rewrite HR, Hg).
    done.
  - rewrite (filter_cons_False (λ x, g x = true)) by (by rewrite Hg).
    rewrite (filter_cons_False (λ x, negb (R x) && g x = true))
      by (by rewrite HR, Hg).
    rewrite (filter_cons_False (λ x, R x && g x = true))
      by (by rewrite HR, Hg).
    done.
Qed.

(** X24. The changes in progress and the changes that are ready make up
    all the changes: for one and the same [for], what [getChanges] lists
    for select=all is, up to the order, what it lists for
    select=in-progress followed by what it lists for select=ready. *)
Theorem getChanges_partition (c : Command) (r_all r_progress r_ready : Request)
    (user : option UserState) (st : State) :
  Values_Get (URL_Query r_all) "select" = "all" →
  Values_Get (URL_Query r_progress) "select" = "in-progress" →
  Values_Get (URL_Query r_ready) "select" = "ready" →
  Values_Get (URL_Query r_progress) "for" = Values_Get (URL_Query r_all) "for" →
  Values_Get (URL_Query r_ready) "for" = Values_Get (URL_Query r_all) "for" →
  ∃ all progress ready,
    (run (getChanges Changes Get_snap_names c r_all user) st).1 = Sync all ∧
    (run (getChanges Changes Get_snap_names c r_progress user) st).1
      = Sync progress ∧
    (run (getChanges Changes Get_snap_names c r_ready user) st).1
      = Sync ready ∧
    all ≡ₚ progress ++ ready.
Proof.
  intros Hall Hprogress Hready Hfor1 Hfor2.
  unfold getChanges. rewrite Hall, Hprogress, Hready, Hfor1, Hfor2. simpl.
  eexists _, _, _. do 3 (split; [reflexivity |]).
  rewrite !getChanges_loop_filter. simpl. rewrite <- fmap_app.
  apply fmap_Permutation.
  case_bool_decide.
  - rewrite (list_filter_iff
               (λ chg, filter_for Get_snap_names
                         (Values_Get (URL_Query r_all) "for")
                         filter_in_progress chg = true)
               (λ chg, negb (Change_Ready chg)
                       && filter_for Get_snap_names
                            (Values_Get (URL_Query r_all) "for")
                            filter_all chg = true))
      by (intros chg; by rewrite filter_for_andb).
    rewrite (list_filter_iff
               (λ chg, filter_for Get_snap_names
                         (Values_Get (URL_Query r_all) "for")
                         filter_ready chg = true)
               (λ chg, Change_Ready chg
                       && filter_for Get_snap_names
                            (Values_Get (URL_Query r_all) "for")
                            filter_all chg = true))
      by (intros chg; by rewrite filter_for_andb).
    apply (filter_split Change_Ready).
  - rewrite (list_filter_iff (λ chg, filter_in_progress chg = true)
               (λ chg, negb (Change_Ready chg) && filter_all chg = true))
      by (intros chg; unfold filter_in_progress, filter_all;
          by rewrite andb_true_r).
    rewrite (list_filter_iff (λ chg, filter_ready chg = true)
               (λ chg, Change_Ready chg && filter_all chg = true))
      by (intros chg; unfold filter_ready, filter_all; by rewrite andb_true_r).
    apply (filter_split Change_Ready).
Qed.

(** X25. The id that [postSnap] answers with when it accepts a request
    is the id of a change that [getChange] finds in the state that
    [postSnap] left: it answers with the description of a change of that
    id and of the kind [<action>-snap]. *)
Theorem postSnap_change_resolves (c : Command) (r : Request)
    (user : option UserState) (st : State) (rsp : Response) (w : World)
    (c' : Command) (r' : Request) (user' : option UserState) :
  run (postSnap c r user) st = (rsp, w) →
  Type_ rsp = ResponseTypeAsync →
  ∃ id info inst,
    Meta_ rsp = Some {| Meta_Change := id |} ∧
    decodeSnapInstruction (Body r) = OK inst ∧
    (Vars_at (Vars r') "id" = id →
     run (getChange c' r' user') (World_state w)
       = (Sync info, only_locked (World_state w))) ∧
    changeInfo_ID info = id ∧
    changeInfo_Kind info = Action inst +:+ "-snap".
Proof.
  daemon_more.postSnap_cases.
  all: intros Hasync; try discriminate Hasync.
  all: destruct user; simpl in *.
  all: eexists _, _, _; split; [reflexivity |]; split; [reflexivity |].
  all: rewrite !alter_insert_eq.
  all: split; [intros Hid; unfold getChange, State_Change; run_steps;
               rewrite Hid, lookup_insert_eq; reflexivity |].
  all: by split.
Qed.

End more.

(** The properties on the reference backend. *)
Import refdaemon.

Lemma getChanges_lists_witness :
  ∃ infos,
    (run (getChanges (B := backend false) ref_Changes ref_Get_snap_names
            (command stateChangesCmd_Path false)
            (request false VNil []
               [("select", ["in-progress"]); ("for", ["foo"])])
            None) two_changes).1
      = Sync infos ∧
    ∀ info, info ∈ infos → changeInfo_Ready info = false.
Proof.
  destruct (proj2 (getChanges_lists (B := backend false) ref_Changes
                     ref_Get_snap_names (command stateChangesCmd_Path false)
                     (request false VNil []
                        [("select", ["in-progress"]); ("for", ["foo"])])
                     None two_changes))
    as (infos & Hrun & Hin).
  { rewrite !elem_of_cons. auto. }
  exists infos. split; [by rewrite Hrun |].
  intros info (chg & _ & -> & _ & Hprogress & _)%Hin.
  apply Hprogress. rewrite !elem_of_cons. auto.
Defined.

Lemma getChanges_partition_witness :
  ∃ all progress ready,
    (run (getChanges (B := backend false) ref_Changes ref_Get_snap_names
            (command stateChangesCmd_Path false)
            (request false VNil [] [("select", ["all"])]) None)
       two_changes).1 = Sync all ∧
    (run (getChanges (B := backend false) ref_Changes ref_Get_snap_names
            (command stateChangesCmd_Path false)
            (request false VNil [] [("select", ["in-progress"])]) None)
       two_changes).1 = Sync progress ∧
    (run (getChanges (B := backend false) ref_Changes ref_Get_snap_names
            (command stateChangesCmd_Path false)
            (request false VNil [] [("select", ["ready"])]) None)
       two_changes).1 = Sync ready ∧
    all ≡ₚ progress ++ ready.
Proof.
  apply (getChanges_partition (B := backend false) ref_Changes
           ref_Get_snap_names (command stateChangesCmd_Path false)
           (request false VNil [] [("select", ["all"])])
           (request false VNil [] [("select", ["in-progress"])])
           (request false VNil [] [("select", ["ready"])])
           None two_changes); reflexivity.
Defined.

Lemma postSnap_change_resolves_witness :
  ∃ id info,
    Meta_ (run (postSnap (B := backend false) (command snapCmd_Path false)
                  (request false daemon_semantics.install_body
                     [("name", "foo")] []) None) empty_state).1
      = Some {| Meta_Change := id |} ∧
    changeInfo_ID info = id.
Proof.
  destruct (postSnap_change_resolves (B := backend false)
              (command snapCmd_Path false)
              (request false daemon_semantics.install_body
                 [("name", "foo")] []) None empty_state _ _
              (command stateChangeCmd_Path false)
              (request false VNil [("id", "1")] []) None
              (surjective_pairing _) eq_refl)
    as (id & info & inst & Hmeta & _ & _ & Hid & _).
  by exists id, info.
Defined.

End daemon_changes_more.

(** * Properties of [postCreateUser] *)
Module daemon_users_more.
Import state daemon daemon_changes daemon_users.
#[local] Open Scope Z_scope.
#[local] Set Warnings "-clear-no-such-hyp".

Section more.
Context {B : Backend} {U : UsersBackend}.

Lemma contains_elem_of needle haystack :
  contains_ needle haystack = true ↔ needle ∈ haystack.
Proof.
  induction haystack as [| s haystack IH]; simpl.
  - rewrite elem_of_nil. naive_solver.
  - rewrite elem_of_cons. case_bool_decide; naive_solver.
Qed.

(** What a system-user assertion must say for the device it is used on. *)
Lemma cross_check (x : string) (l : list string) :
  bool_decide (0 < List.length l)%nat && negb (contains_ x l) = false ↔
  l = [] ∨ x ∈ l.
Proof.
  rewrite <- contains_elem_of.
  destruct l as [| y l]; [simpl; naive_solver |].
  rewrite (bool_decide_true (0 < _)%nat) by (simpl; lia).
  destruct (contains_ x (y :: l)); naive_solver.
Qed.

(** X26. [osutil.AddUser] is called only for a request that comes from
    root and names an email, with the sudoer flag of the request and with
    extra-users exactly off classic; for a user that is not known, only
    with the username and the keys that the store gave for the email, of
    which there is at least one, and with no password; for a known user,
    only with the username, keys and password of a system-user assertion
    found for the brand of the device and the email, which is valid now
    and which names the series and the model of the device where it names
    any. *)
Theorem postCreateUser_adds_user_only_if (c : Command) (r : Request)
    (remoteAddr : string) (user : option UserState) (st : State)
    (ans : answer createResponseData) (log : list Event)
    (username : string) (opts : AddUserOptions) :
  postCreateUser c r remoteAddr user st [] = (ans, log) →
  EAddUser username opts ∈ log →
  postCreateUserUcrednetGetUID remoteAddr = OK 0 ∧
  ∃ data,
    decodeCreateData (Body r) = OK data ∧
    createData_Email data ≠ "" ∧
    AddUserOptions_Sudoer opts = createData_Sudoer data ∧
    AddUserOptions_ExtraUsers opts = negb release_OnClassic ∧
    (createData_Known data = false →
     ∃ v,
       storeUserInfo (createData_Email data) = OK v ∧
       UserInfo_SSHKeys v ≠ [] ∧
       username = UserInfo_Username v ∧
       AddUserOptions_SSHKeys opts = UserInfo_SSHKeys v ∧
       AddUserOptions_Password opts = "") ∧
    (createData_Known data = true →
     ∃ modelAs su,
       devicestate_Model st = OK modelAs ∧
       db_Find st (ModelAs_BrandID modelAs) (createData_Email data) = OK su ∧
       (SystemUser_Series su = []
        ∨ ModelAs_Series modelAs ∈ SystemUser_Series su) ∧
       (SystemUser_Models su = []
        ∨ ModelAs_Model modelAs ∈ SystemUser_Models su) ∧
       SystemUser_ValidAt_now su = true ∧
       username = SystemUser_Username su ∧
       AddUserOptions_SSHKeys opts = SystemUser_SSHKeys su ∧
       AddUserOptions_Password opts = SystemUser_Password su).
Proof.
  unfold postCreateUser.
  destruct (postCreateUserUcrednetGetUID remoteAddr) as [uid | err];
    [| intros [= <- <-]; by rewrite elem_of_nil].
  case_bool_decide as Huid; [intros [= <- <-]; by rewrite elem_of_nil |].
  subst uid.
  destruct (decodeCreateData (Body r)) as [data | err];
    [| intros [= <- <-]; by rewrite elem_of_nil].
  case_bool_decide as Hemail; [intros [= <- <-]; by rewrite elem_of_nil |].
  intros Hrun Hin. split; [done |]. exists data. split; [done |].
  split; [done |]. revert Hrun Hin.
  destruct (createData_Known data).
  - unfold getUserDetailsFromAssertion, event, mbind, T_bind, mret, T_ret.
    simpl.
    destruct (devicestate_Model st) as [modelAs | err]; simpl;
      [| intros [= <- <-]; rewrite !elem_of_cons, elem_of_nil; naive_solver].
    destruct (db_Find st (ModelAs_BrandID modelAs) (createData_Email data))
      as [su | err] eqn:Hfind; simpl;
      [| intros [= <- <-]; rewrite !elem_of_cons, elem_of_nil; naive_solver].
    destruct (bool_decide (0 < List.length (SystemUser_Series su))%nat
              && negb (contains_ (ModelAs_Series modelAs)
                         (SystemUser_Series su))) eqn:Hseries; simpl;
      [intros [= <- <-]; rewrite !elem_of_cons, elem_of_nil; naive_solver |].
    destruct (bool_decide (0 < List.length (SystemUser_Models su))%nat
              && negb (contains_ (ModelAs_Model modelAs)
                         (SystemUser_Models su))) eqn:Hmodels; simpl;
      [intros [= <- <-]; rewrite !elem_of_cons, elem_of_nil; naive_solver |].
    destruct (SystemUser_ValidAt_now su) eqn:Hvalid; simpl;
      [| intros [= <- <-]; rewrite !elem_of_cons, elem_of_nil; naive_solver].
    apply cross_check in Hseries, Hmodels.
    destruct (osutilAddUser _ _); intros [= <- <-];
      rewrite !elem_of_cons, elem_of_nil;
      (intros [[=] | [[=] | [[=] | [[=] | [[= -> ->] | []]]]]]).
    all: do 2 (split; [reflexivity |]).
    all: (split; [intros [=] |]); intros _.
    all: by exists modelAs, su.
  - unfold getUserDetailsFromStore, event, mbind, T_bind, mret, T_ret.
    simpl.
    destruct (storeUserInfo (createData_Email data)) as [v | err]; simpl;
      [| intros [= <- <-]; rewrite !elem_of_cons, elem_of_nil; naive_solver].
    case_bool_decide as Hkeys; simpl;
      [intros [= <- <-]; rewrite !elem_of_cons, elem_of_nil; naive_solver |].
    destruct (osutilAddUser _ _); intros [= <- <-];
      rewrite !elem_of_cons, elem_of_nil;
      (intros [[=] | [[= -> ->] | []]]).
    all: do 2 (split; [reflexivity |]).
    all: (split; [| intros [=]]); intros _.
    all: exists v; (split; [done |]); (split; [| done]).
    all: intros Hnil; by rewrite Hnil in Hkeys.
Qed.

(** X27. When [postCreateUser] answers with a created user, the user was
    added by the one call of [osutil.AddUser] that the handler made, which
    succeeded; the answer names that user and lists the keys the user was
    given, with their number. *)
Theorem postCreateUser_created (c : Command) (r : Request)
    (remoteAddr : string) (user : option UserState) (st : State)
    (data : createResponseData) (log : list Event) :
  postCreateUser c r remoteAddr user st [] = (Sync data, log) →
  ∃ opts before,
    log = before ++ [EAddUser (createResponseData_Username data) opts] ∧
    (∀ username' opts', EAddUser username' opts' ∉ before) ∧
    osutilAddUser (createResponseData_Username data) opts = None ∧
    createResponseData_SSHKeys data = AddUserOptions_SSHKeys opts ∧
    createResponseData_SSHKeyCount data
      = List.length (AddUserOptions_SSHKeys opts).
Proof.
  unfold postCreateUser, getUserDetailsFromAssertion,
    getUserDetailsFromStore, event, mbind, T_bind, mret, T_ret.
  repeat (case_match; simpl in *; simplify_eq); intros [= <- <-].
  - eexists _, [ELock; EDevicestateModel; EUnlock; EFind _ _].
    split; [reflexivity |]. split; [| done].
    intros ??. rewrite !elem_of_cons, elem_of_nil. naive_solver.
  - eexists _, [EStoreUserInfo _].
    split; [reflexivity |]. split; [| done].
    intros ??. rewrite !elem_of_cons, elem_of_nil. naive_solver.
Qed.

End more.

Lemma postCreateUser_adds_user_only_if_witness :
  ∃ opts,
    EAddUser "user" opts
      ∈ (postCreateUser (U := ref_users)
           (refdaemon.command createUserCmd_Path false)
           (refdaemon.request false create_body [] []) "pid=100;uid=0;" None
           refdaemon.empty_state []).2 ∧
    AddUserOptions_Sudoer opts = true ∧
    AddUserOptions_SSHKeys opts = ["ssh-rsa AAAA"].
Proof.
  eexists. split; [vm_compute; apply list_elem_of_further, list_elem_of_here |].
  destruct (postCreateUser_adds_user_only_if (U := ref_users)
              (refdaemon.command createUserCmd_Path false)
              (refdaemon.request false create_body [] []) "pid=100;uid=0;"
              None refdaemon.empty_state _ _ "user" _
              (surjective_pairing _)
              ltac:(vm_compute; apply list_elem_of_further, list_elem_of_here))
    as (_ & data & Hdata & _ & Hsudoer & _ & Hstore & _).
  injection Hdata as <-. split; [exact Hsudoer |].
  destruct (Hstore eq_refl) as (v & Hv & _ & _ & Hkeys & _).
  injection Hv as <-. exact Hkeys.
Defined.

Lemma postCreateUser_created_witness :
  ∃ data opts,
    (postCreateUser (U := ref_users)
       (refdaemon.command createUserCmd_Path false)
       (refdaemon.request false create_body [] []) "pid=100;uid=0;" None
       refdaemon.empty_state []).1 = Sync data ∧
    @osutilAddUser _ ref_users (createResponseData_Username data) opts
      = None.
Proof.
  eexists _. 
  destruct (postCreateUser_created (U := ref_users)
              (refdaemon.command createUserCmd_Path false)
              (refdaemon.request false create_body [] []) "pid=100;uid=0;"
              None refdaemon.empty_state _ _ eq_refl)
    as (opts & before & _ & _ & Hadd & _).
  exists opts. split; [reflexivity | exact Hadd].
Defined.

End daemon_users_more.

(** * Properties of [postSnaps] *)
Module daemon_sideload_more.
Import state daemon daemon_semantics daemon_sideload.
#[local] Open Scope Z_scope.
#[local] Set Warnings "-clear-no-such-hyp".

Section more.
Context {B : Backend} {S : SideloadBackend}.

(** A step on the state records no call on the other collaborators. *)
Lemma lift_inv {A} (m : M A) (w w' : World2) (a : A) :
  lift m w = (a, w') →
  World2_events w' = World2_events w ∧
  m (World2_world w) = (a, World2_world w').
Proof.
  unfold lift. destruct (m (World2_world w)) as [a0 w0].
  by intros [= <- <-].
Qed.

(** A call on a collaborator is recorded, and the run goes on. *)
Lemma event_bind {A} (e : Event) (m : H A) (w : World2) :
  (event e;; m) w
  = m {| World2_world := World2_world w;
         World2_events := World2_events w ++ [e] |}.
Proof. reflexivity. Qed.

(** A run under [defer form.RemoveAll()] is the run of the body, and the
    removal after it. *)
Lemma defer_RemoveAll_inv {A} (body : H A) (w w' : World2) (a : A) :
  defer_RemoveAll body w = (a, w') →
  ∃ w0,
    body w = (a, w0) ∧
    World2_world w' = World2_world w0 ∧
    World2_events w' = World2_events w0 ++ [EFormRemoveAll].
Proof.
  unfold defer_RemoveAll, event, mbind, H_bind, mret, H_ret.
  destruct (body w) as [a0 w0]. intros [= <- <-]. by exists w0.
Qed.

#[local] Arguments defer_RemoveAll : simpl never.

(** Unfold the plumbing of the handler monad, and split a run at each
    choice. *)
Ltac run2_steps :=
  unfold run2, untouched2, locked2, event, mbind, H_bind, mret, H_ret;
  simpl.

Ltac lifts :=
  repeat match goal with
         | H : lift _ _ = (_, _) |- _ =>
             apply lift_inv in H as [? ?]; simpl in *
         end.

Lemma trySnap_unchecked (c : Command) (r : Request)
    (user : option UserState) (trydir : string) (flags : Z)
    (events : list Event) (st : State) (rsp : Response) (w : World2)
    (snapPath : string) :
  trySnap c r user trydir flags
    {| World2_world := untouched st; World2_events := events |} = (rsp, w) →
  EUnsafeReadSnapInfo snapPath ∈ World2_events w →
  EUnsafeReadSnapInfo snapPath ∈ events ∨ snapPath = trydir.
Proof.
  unfold trySnap. run2_steps.
  repeat (case_match; simpl in *; simplify_eq; lifts);
    intros [= <- <-]; simpl;
    repeat match goal with H : World2_events _ = _ |- _ => rewrite H end;
    rewrite ?elem_of_app, ?elem_of_cons, ?elem_of_nil; naive_solver.
Qed.

Lemma installFile_unchecked (user : option UserState)
    (dangerousOK devmode : bool) (flags : Z) (tempPath origPath : string)
    (events : list Event) (st : State) (rsp : Response) (w : World2)
    (snapPath : string) :
  installFile user dangerousOK devmode flags tempPath origPath
    {| World2_world := untouched st; World2_events := events |} = (rsp, w) →
  EUnsafeReadSnapInfo snapPath ∈ World2_events w →
  EUnsafeReadSnapInfo snapPath ∈ events
  ∨ snapPath = tempPath ∧
    (dangerousOK = true
     ∨ (devmode = true ∧
        snapasserts_DeriveSideInfo tempPath st = DeriveErrNotFound)
     ∨ (∃ si, snapasserts_DeriveSideInfo tempPath st = DeriveOK si ∧
              RealName si = "")).
Proof.
  unfold installFile, deriveSideInfo, nameSideInfo. run2_steps.
  unfold lift at 1 2. simpl.
  destruct dangerousOK, devmode; simpl;
    repeat (case_match; simpl in *; simplify_eq; lifts);
    intros [= <- <-]; simpl;
    repeat match goal with H : World2_events _ = _ |- _ => rewrite H end;
    simpl; rewrite ?elem_of_app, ?elem_of_cons, ?elem_of_nil;
    repeat match goal with
           | H : bool_decide _ = true |- _ => apply bool_decide_eq_true in H
           end;
    naive_solver.
Qed.

(** X28. A snap is read without being checked against the assertions
    only where the request allows it: where it is a try, of the directory
    that the request names; where the form says dangerous; where it says
    devmode and no assertion was found for the uploaded file; and where
    the assertions name no snap. *)
Theorem unchecked_read_only_if (c : Command) (r : Request)
    (contentType : string) (user : option UserState) (st : State)
    (rsp : Response) (w : World2) (snapPath : string) :
  run2 (postSnaps c r contentType user) st = (rsp, w) →
  EUnsafeReadSnapInfo snapPath ∈ World2_events w →
  ∃ params form,
    mime_ParseMediaType contentType = OK params ∧
    ReadForm (Body r) (Vars_at params "boundary") = OK form ∧
    ((∃ action_rest path_rest,
        Value_at form "action" = "try" :: action_rest ∧
        Value_at form "snap-path" = snapPath :: path_rest)
     ∨ ioutil_TempFile = OK snapPath ∧
       (isTrue form "dangerous" = true
        ∨ (isTrue form "devmode" = true ∧
           snapasserts_DeriveSideInfo snapPath st = DeriveErrNotFound)
        ∨ (∃ si, snapasserts_DeriveSideInfo snapPath st = DeriveOK si ∧
                 RealName si = ""))).
Proof.
  unfold postSnaps, run2.
  case_bool_decide.
  { intros [He _]%lift_inv Hin. rewrite He in Hin.
    by apply elem_of_nil in Hin. }
  destruct (String.prefix "multipart/" contentType); simpl;
    [| intros [= <- <-] Hin; by apply elem_of_nil in Hin].
  destruct (router_Get (d c) stateChangeCmd_Path); simpl;
    [| intros [= <- <-] Hin; by apply elem_of_nil in Hin].
  destruct (mime_ParseMediaType contentType) as [params | err];
    [| intros [= <- <-] Hin; by apply elem_of_nil in Hin].
  rewrite event_bind. simpl.
  destruct (ReadForm (Body r) (Vars_at params "boundary"))
    as [form | err] eqn:Hform;
    [| intros [= <- <-] Hin; by apply list_elem_of_singleton in Hin].
  destruct (modeFlags (isTrue form "devmode") (isTrue form "jailmode"))
    as [flags | err];
    [| intros [= <- <-] Hin; by apply list_elem_of_singleton in Hin].
  intros Hrun Hin. exists params, form. do 2 (split; [done |]).
  revert Hrun Hin.
  destruct (Value_at form "action") as [| action_0 action_rest] eqn:Haction;
    [| case_bool_decide as Htry].
  2: { subst action_0.
       destruct (Value_at form "snap-path") as [| snap_path_0 path_rest];
         [intros [= <- <-] Hin; by apply list_elem_of_singleton in Hin |].
       intros Hrun Hin. left. exists action_rest, path_rest.
       destruct (trySnap_unchecked _ _ _ _ _ _ _ _ _ _ Hrun Hin)
         as [Hbefore | ->]; [| done].
       by apply list_elem_of_singleton in Hbefore. }
  all: destruct (Form_File form !! "snap") as [[| fheader ?] |];
    try destruct (Open_err fheader);
    try (intros [= <- <-] Hin; by apply list_elem_of_singleton in Hin).
  all: intros (w0 & Hrun & _ & Hevents)%defer_RemoveAll_inv Hin.
  all: rewrite Hevents in Hin.
  all: apply elem_of_app in Hin as [Hin | Hin];
    [| by apply list_elem_of_singleton in Hin].
  all: revert Hrun Hin.
  all: try (intros [= <- <-] Hin; by apply list_elem_of_singleton in Hin).
  all: rewrite event_bind; simpl.
  all: destruct ioutil_TempFile as [tempPath | err];
    [| intros [= <- <-]; simpl; rewrite !elem_of_cons, elem_of_nil;
       naive_solver].
  all: rewrite event_bind; simpl.
  all: destruct (io_Copy tempPath fheader);
    [rewrite event_bind; intros [= <- <-]; simpl;
     rewrite !elem_of_cons, elem_of_nil; naive_solver |].
  all: intros Hrun Hin; right.
  all: destruct (installFile_unchecked _ _ _ _ _ _ _ _ _ _ _ Hrun Hin)
         as [Hbefore | [-> Hwhy]];
    [revert Hbefore; simpl;
     rewrite ?elem_of_app, ?elem_of_cons, ?elem_of_nil; naive_solver
    | by split].
Qed.

(** X29. An upload with jailmode set, on a platform that forces devmode
    or with devmode set as well, is refused with the error of the mode
    flags once the form has been read, and before anything else is done:
    the handler makes no temporary file of its own, copies nothing, looks
    no assertion up, reads no snap and does not take the state lock.  The
    reading of the form, which is where the multipart reader writes the
    file parts that do not fit in memory to temporary files, is the one
    thing that has happened, and the handler returns before it has
    deferred the removal of those files: [form.RemoveAll] is not called. *)
Theorem postSnaps_mode_flags_refused (c : Command) (r : Request)
    (contentType : string) (user : option UserState) (st : State)
    (params : list (string * string)) (form : Form) :
  contentType ≠ "application/json" →
  String.prefix "multipart/" contentType = true →
  router_Get (d c) stateChangeCmd_Path = true →
  mime_ParseMediaType contentType = OK params →
  ReadForm (Body r) (Vars_at params "boundary") = OK form →
  isTrue form "jailmode" = true →
  ForceDevMode = true ∨ isTrue form "devmode" = true →
  run2 (postSnaps c r contentType user) st
    = (BadRequest (if ForceDevMode then errNoJailMode else errModeConflict),
       {| World2_world := untouched st; World2_events := [EReadForm] |}) ∧
  Status_ (BadRequest (if ForceDevMode then errNoJailMode else errModeConflict))
    = 400.
Proof.
  intros Hjson Hmultipart Hroute Hparams Hform Hjail Hmode.
  split; [| done].
  unfold postSnaps, run2.
  rewrite bool_decide_false by done.
  rewrite Hmultipart, Hroute, Hparams. simpl.
  rewrite event_bind, Hform, Hjail. simpl.
  by rewrite (daemon_facts.modeFlags_jailMode _ Hmode).
Qed.

Lemma installFile_accepted (user : option UserState) (devmode : bool)
    (flags : Z) (tempPath origPath : string) (events : list Event)
    (st : State) (rsp : Response) (w : World2) :
  installFile user false devmode flags tempPath origPath
    {| World2_world := untouched st; World2_events := events |} = (rsp, w) →
  Type_ rsp = ResponseTypeAsync →
  (∃ si, snapasserts_DeriveSideInfo tempPath st = DeriveOK si)
  ∨ devmode = true ∧
    snapasserts_DeriveSideInfo tempPath st = DeriveErrNotFound.
Proof.
  unfold installFile, deriveSideInfo, nameSideInfo. run2_steps.
  unfold lift at 1 2. simpl.
  destruct devmode; simpl;
    repeat (case_match; simpl in *; simplify_eq; lifts);
    intros [= <- <-]; simpl; try (by intros [=]); naive_solver.
Qed.

(** X30. Without dangerous and without devmode, a snap file is accepted
    only with its assertions: where [postSnaps] answers 202 to an upload
    that says neither, and that is not a try, the side info of the
    uploaded file was derived from the assertions. *)
Theorem upload_accepted_only_asserted (c : Command) (r : Request)
    (contentType : string) (user : option UserState) (st : State)
    (rsp : Response) (w : World2) (params : list (string * string))
    (form : Form) :
  run2 (postSnaps c r contentType user) st = (rsp, w) →
  Type_ rsp = ResponseTypeAsync →
  contentType ≠ "application/json" →
  mime_ParseMediaType contentType = OK params →
  ReadForm (Body r) (Vars_at params "boundary") = OK form →
  (∀ action_rest, Value_at form "action" ≠ "try" :: action_rest) →
  isTrue form "dangerous" = false →
  isTrue form "devmode" = false →
  ∃ tempPath si,
    ioutil_TempFile = OK tempPath ∧
    snapasserts_DeriveSideInfo tempPath st = DeriveOK si.
Proof.
  intros Hrun Hasync Hjson Hparams Hform Htry Hdangerous Hdevmode.
  revert Hrun. unfold postSnaps, run2.
  rewrite bool_decide_false by done.
  destruct (String.prefix "multipart/" contentType); simpl;
    [| intros [= <- <-]; discriminate Hasync].
  destruct (router_Get (d c) stateChangeCmd_Path); simpl;
    [| intros [= <- <-]; discriminate Hasync].
  rewrite Hparams, event_bind, Hform, Hdangerous, Hdevmode. simpl.
  destruct (modeFlags false (isTrue form "jailmode")) as [flags | err];
    [| intros [= <- <-]; discriminate Hasync].
  destruct (Value_at form "action") as [| action_0 action_rest] eqn:Haction;
    [| rewrite bool_decide_false by (intros ->; by eapply Htry)].
  all: destruct (Form_File form !! "snap") as [[| fheader ?] |];
    try destruct (Open_err fheader);
    try (intros [= <- <-]; discriminate Hasync).
  all: intros (w0 & Hrun & _ & _)%defer_RemoveAll_inv.
  all: revert Hrun.
  all: try (intros [= <- <-]; discriminate Hasync).
  all: rewrite event_bind; simpl.
  all: destruct ioutil_TempFile as [tempPath | err];
    [| intros [= <- <-]; discriminate Hasync].
  all: rewrite event_bind; simpl.
  all: destruct (io_Copy tempPath fheader);
    [rewrite event_bind; intros [= <- <-]; discriminate Hasync |].
  all: intros Hrun; exists tempPath.
  all: destruct (installFile_accepted _ _ _ _ _ _ _ _ _ Hrun Hasync)
         as [[si Hsi] | [[=] _]].
  all: by exists si.
Qed.

End more.

(** The properties on the reference backends. *)
Import refdaemon.

Lemma unchecked_read_only_if_witness :
  ∃ form,
    ReadForm (SideloadBackend := ref_sideload false) form_dangerous "xyz"
      = OK form ∧
    (isTrue form "dangerous" = true
     ∨ Value_at form "action" ≠ []
     ∨ snapasserts_DeriveSideInfo (SideloadBackend := ref_sideload false)
         "/tmp/snapd-sideload-pkg-1" empty_state ≠ DeriveErrOther "").
Proof.
  destruct (unchecked_read_only_if (S := ref_sideload false)
              (command snapsCmd_Path false)
              (request false form_dangerous [] [])
              "multipart/form-data; boundary=xyz" None empty_state _ _
              "/tmp/snapd-sideload-pkg-1" (surjective_pairing _))
    as (params & form & Hparams & Hform & Hwhy).
  { vm_compute. do 3 apply list_elem_of_further. apply list_elem_of_here. }
  injection Hparams as <-. exists form. split; [exact Hform |].
  destruct Hwhy as [(action_rest & path_rest & Haction & _)
                   | [_ [Hdangerous | [[_ Hderive] | (si & Hderive & _)]]]].
  - right. left. by rewrite Haction.
  - by left.
  - right. right. by rewrite Hderive.
  - right. right. by rewrite Hderive.
Defined.

Lemma postSnaps_mode_flags_refused_witness :
  run2 (postSnaps (S := ref_sideload false) (command snapsCmd_Path false)
          (request false form_both_modes [] [])
          "multipart/form-data; boundary=xyz" None) empty_state
  = (BadRequest errModeConflict,
     {| World2_world := untouched empty_state;
        World2_events := [EReadForm] |}).
Proof.
  destruct (postSnaps_mode_flags_refused (S := ref_sideload false)
              (command snapsCmd_Path false)
              (request false form_both_modes [] [])
              "multipart/form-data; boundary=xyz" None empty_state
              [("boundary", "xyz")] (form_of form_both_modes)) as [Hrun _];
    [by intros [=] | reflexivity | reflexivity | reflexivity | reflexivity
    | reflexivity | by right |].
  exact Hrun.
Defined.

Lemma upload_accepted_only_asserted_witness :
  ∃ si,
    snapasserts_DeriveSideInfo (SideloadBackend := ref_sideload true)
      "/tmp/snapd-sideload-pkg-1" empty_state
    = DeriveOK si.
Proof.
  destruct (upload_accepted_only_asserted (S := ref_sideload true)
              (command snapsCmd_Path false)
              (request false form_snap [] [])
              "multipart/form-data; boundary=xyz" None empty_state _ _
              [("boundary", "xyz")] (form_of form_snap)
              (surjective_pairing _))
    as (tempPath & si & Htemp & Hsi);
    [reflexivity | by intros [=] | reflexivity | reflexivity
    | intros action_rest; by vm_compute | reflexivity | reflexivity |].
  injection Htemp as <-. by exists si.
Defined.

End daemon_sideload_more.
